(** * Score reporting to the tracing backend (LangfuseTracer)

    A shallow embedding of
    [src/doj_research_agent/evaluation/langfuse_integration.py].

    The module is glue over a third-party client, so what can be verified is
    the sequence of client calls made, the values placed in them, what is
    logged, and which exceptions are absorbed where.  Python values are
    modelled by [pyval], the client by an oracle that decides, from the
    history of calls, whether the next call raises, and the methods by a small
    state-and-exception monad whose state survives a raised exception, as
    Python's does. *)

From Stdlib Require Import ZArith List String Ascii Bool Arith Lia.
From Stdlib Require Import Numbers.DecimalString.
From Stdlib Require Import Floats.PrimFloat Floats.FloatOps.
From Stdlib Require Import Numbers.Cyclic.Int63.Uint63.
Import ListNotations.

#[local] Set Warnings "-inexact-float,-register-all".
#[local] Open Scope string_scope.

(* ===================================================================== *)
(** * Python values *)
(* ===================================================================== *)

Module Py.

(** The values that reach this module: JSON-like data with string keys.
    A [float] is an IEEE binary64, as Python's is; an [int] is unbounded. *)
Inductive pyval :=
| PyNone
| PyBool (b : bool)
| PyInt (z : Z)
| PyFloat (f : float)
| PyStr (s : string)
| PyList (l : list pyval)
| PyDict (d : list (string * pyval)).

(** A dict in insertion order.  A Python dict never holds a key twice. *)
Definition dict := list (string * pyval).


(** [d.get(k)]: [None] stands for an absent key, so this also serves for
    [k in d] and, where the key is there, [d[k]]. *)
Fixpoint dict_get (k : string) (d : dict) : option pyval :=
  match d with
  | [] => None
  | (k', v) :: d' => if String.eqb k k' then Some v else dict_get k d'
  end.

(** [d.get(k, default)] *)
Definition dict_get_default (k : string) (default : pyval) (d : dict) : pyval :=
  match dict_get k d with Some v => v | None => default end.

(** [d[k] = v]: an existing key keeps its place, a new key goes last. *)
Fixpoint dict_set (k : string) (v : pyval) (d : dict) : dict :=
  match d with
  | [] => [(k, v)]
  | (k', v') :: d' =>
      if String.eqb k k' then (k', v) :: d' else (k', v') :: dict_set k v d'
  end.

(** [{**d1, **d2}]: the items of [d2] are stored into [d1] in order. *)
Definition dict_update (d1 d2 : dict) : dict :=
  fold_left (fun acc kv => dict_set (fst kv) (snd kv) acc) d2 d1.

(** [metadata or {}] for an [Optional[Dict]]: [None] and the empty dict are
    both falsy. *)
Definition or_empty (metadata : option dict) : dict :=
  match metadata with
  | Some (kv :: d) => kv :: d
  | _ => []
  end.

(** Truth value of an object, as [if x] and [a if x else b] test it. *)
Definition truthy (v : pyval) : bool :=
  match v with
  | PyNone => false
  | PyBool b => b
  | PyInt z => negb (Z.eqb z 0)
  | PyFloat f => negb (PrimFloat.eqb f 0%float)
  | PyStr s => negb (String.eqb s "")
  | PyList l => match l with [] => false | _ => true end
  | PyDict d => match d with [] => false | _ => true end
  end.

(** [isinstance(v, (int, float))]; [bool] is a subclass of [int]. *)
Definition isinstance_int_float (v : pyval) : bool :=
  match v with
  | PyBool _ | PyInt _ | PyFloat _ => true
  | _ => false
  end.

(** Exceptions: the class decides whether [except Exception] catches it.
    [KeyboardInterrupt], [SystemExit] and [GeneratorExit] derive from
    [BaseException] only. *)
Inductive exn_class :=
| TypeError | AttributeError | OverflowError
| OtherException (name : string)
| BaseExceptionOnly (name : string).

Record exn := mk_exn { exn_type : exn_class; exn_text : string }.

Definition is_Exception (e : exn) : bool :=
  match exn_type e with
  | BaseExceptionOnly _ => false
  | _ => true
  end.

Inductive outcome (A : Type) :=
| Ret (a : A)
| Raise (e : exn).
Arguments Ret {A} a.
Arguments Raise {A} e.

(** [float(n)] for an int [n]: the nearest binary64, ties to even;
    [OverflowError] when that is not finite.  The magnitude is cut to 62
    significant bits, the bits cut off leaving a sticky bit behind, so that
    the one rounding of [of_uint63] is the correct one. *)
Definition float_of_Z (z : Z) : option float :=
  let a := Z.abs z in
  let k := Z.max 0 (Z.log2 a + 1 - 62) in
  let sticky := if Z.eqb (Z.land a (Z.ones k)) 0 then 0%Z else 1%Z in
  let m := Z.lor (Z.shiftr a k) sticky in
  let f := Z.ldexp (PrimFloat.of_uint63 (Uint63.of_Z m)) k in
  let f := if Z.ltb z 0 then PrimFloat.opp f else f in
  if PrimFloat.is_infinity f then None else Some f.

Definition float_of_bool (b : bool) : float :=
  if b then 1%float else 0%float.

(** [type(v).__name__], as the messages of [TypeError] and
    [AttributeError] quote it. *)
Definition type_name (v : pyval) : string :=
  match v with
  | PyNone => "NoneType"
  | PyBool _ => "bool"
  | PyInt _ => "int"
  | PyFloat _ => "float"
  | PyStr _ => "str"
  | PyList _ => "list"
  | PyDict _ => "dict"
  end.

(** [float(v)], used where [isinstance_int_float v] holds.  (Parsing a
    [str] is outside this model: the source never reaches it.) *)
Definition py_float (v : pyval) : outcome float :=
  match v with
  | PyBool b => Ret (float_of_bool b)
  | PyInt z =>
      match float_of_Z z with
      | Some f => Ret f
      | None => Raise (mk_exn OverflowError "int too large to convert to float")
      end
  | PyFloat f => Ret f
  | _ => Raise (mk_exn TypeError
                  ("float() argument must be a string or a real number, not '"
                   ++ type_name v ++ "'"))
  end.

(** [v / 10.0]: an int or bool operand is converted to float first. *)
Definition truediv_10 (v : pyval) : outcome float :=
  match v with
  | PyBool b => Ret (float_of_bool b / 10)%float
  | PyInt z =>
      match float_of_Z z with
      | Some f => Ret (f / 10)%float
      | None => Raise (mk_exn OverflowError "int too large to convert to float")
      end
  | PyFloat f => Ret (f / 10)%float
  | _ => Raise (mk_exn TypeError
                  ("unsupported operand type(s) for /: '" ++ type_name v
                   ++ "' and 'float'"))
  end.

(** [v.get(k, default)]: of the values above only a dict has [get]. *)
Definition py_get (v : pyval) (k : string) (default : pyval) : outcome pyval :=
  match v with
  | PyDict d => Ret (dict_get_default k default d)
  | _ => Raise (mk_exn AttributeError
                  ("'" ++ type_name v ++ "' object has no attribute 'get'"))
  end.

(** [v == b] for a bool [b]: numbers compare by value, anything else is
    unequal. *)
Definition py_eq_bool (v : pyval) (b : bool) : bool :=
  match v with
  | PyBool b' => Bool.eqb b' b
  | PyInt z => Z.eqb z (if b then 1 else 0)
  | PyFloat f => PrimFloat.eqb f (float_of_bool b)
  | _ => false
  end.

(** [str(n)] for a natural number. *)
Definition str_of_nat (n : nat) : string :=
  NilZero.string_of_uint (Nat.to_uint n).

(** [s.lower()] on ASCII text. *)
Definition lower_ascii (c : ascii) : ascii :=
  let n := nat_of_ascii c in
  if andb (Nat.leb 65 n) (Nat.leb n 90) then ascii_of_nat (n + 32) else c.

Fixpoint lower (s : string) : string :=
  match s with
  | EmptyString => EmptyString
  | String c s' => String (lower_ascii c) (lower s')
  end.

(** [s.startswith(p)] and [s.endswith(suffix)], to tell score names
    apart. *)
Fixpoint list_starts_with (p l : list ascii) : bool :=
  match p with
  | [] => true
  | a :: p' =>
      match l with
      | [] => false
      | b :: l' => Ascii.eqb a b && list_starts_with p' l'
      end
  end.

Definition starts_with (p s : string) : bool :=
  list_starts_with (list_ascii_of_string p) (list_ascii_of_string s).

Definition ends_with (suffix s : string) : bool :=
  list_starts_with (rev (list_ascii_of_string suffix)) (rev (list_ascii_of_string s)).

End Py.
Import Py.

(* ===================================================================== *)
(** * Data model *)
(* ===================================================================== *)

(** Modelled from the spec: [EvaluationResult], declared in
    [evaluation_types] (not part of this slice).  Section 3 of the
    specification gives its fields: four float metrics, a timestamp, the
    ordered per-case detail records (each a mapping) and an optional mapping
    of auxiliary scores.  The timestamp is only passed on, so it is kept as
    an arbitrary value. *)
Record EvaluationResult := mkEvaluationResult {
  accuracy : float;
  precision : float;
  recall : float;
  f1_score : float;
  timestamp : pyval;
  detailed_results : list dict;
  ragas_scores : option dict
}.

(** Modelled from the spec: [TestCase], declared in [evaluation_types]:
    a title string and an expected boolean flag. *)
Record TestCase := mkTestCase {
  title : string;
  expected_fraud_flag : bool
}.

(** The instance attributes of a [LangfuseTracer].  An attribute that
    [__init__] has not assigned is absent: [None] for the three strings,
    [false] for [client] ([hasattr(self, 'client')]). *)
Record LangfuseTracer := mkTracer {
  enabled : bool;
  public_key : option string;
  secret_key : option string;
  host : option string;
  client : bool
}.

(** The calls made on the third-party library: the module function
    [langfuse.get_client], the methods of the client, and the two calls on
    the span object that [start_as_current_span] hands to the [with] block
    ([span.update] and leaving the block). *)
Inductive Call :=
| GetClient (public_key : string)
| CreateTraceId
| StartAsCurrentSpan (name : string)
| SpanExit
| UpdateCurrentTrace (name : string) (metadata : dict)
| CreateScore (trace_id : string) (name : string) (value : float) (comment : string)
| SpanUpdate (output : dict)
| Flush
| Shutdown.

(** The library as the module sees it: whether [import langfuse] succeeded,
    and, given the calls made so far, whether the next call raises and which
    identifier [create_trace_id] hands out. *)
Record Langfuse := mkLangfuse {
  LANGFUSE_AVAILABLE : bool;
  raises : list Call -> Call -> option exn;
  new_trace_id : list Call -> string
}.

Inductive level := INFO | WARNING | ERROR.

(** What a method can read and change: the instance, the calls that have
    reached the library, the records handed to the logger, and the process
    environment. *)
Record World := mkWorld {
  self : LangfuseTracer;
  calls : list Call;
  logs : list (level * string);
  environ : list (string * string)
}.

Definition set_self (t : LangfuseTracer) (w : World) : World :=
  mkWorld t (calls w) (logs w) (environ w).

Definition add_call (c : Call) (w : World) : World :=
  mkWorld (self w) (calls w ++ [c]) (logs w) (environ w).

Definition add_calls (cs : list Call) (w : World) : World :=
  mkWorld (self w) (calls w ++ cs) (logs w) (environ w).

Definition add_log (l : level) (msg : string) (w : World) : World :=
  mkWorld (self w) (calls w) (logs w ++ [(l, msg)]) (environ w).

(** [os.environ[k] = v] *)
Fixpoint env_set (k v : string) (env : list (string * string)) : list (string * string) :=
  match env with
  | [] => [(k, v)]
  | (k', v') :: env' =>
      if String.eqb k k' then (k', v) :: env' else (k', v') :: env_set k v env'
  end.

Fixpoint env_get (k : string) (env : list (string * string)) : option string :=
  match env with
  | [] => None
  | (k', v) :: env' => if String.eqb k k' then Some v else env_get k env'
  end.

Definition set_environ (k v : string) (w : World) : World :=
  mkWorld (self w) (calls w) (logs w) (env_set k v (environ w)).

(* ===================================================================== *)
(** * The monad of methods *)
(* ===================================================================== *)

(** A method body maps the world to an outcome and the world it leaves; what
    was done before an exception stays done. *)
Definition M (A : Type) : Type := World -> outcome A * World.

Definition ret {A} (a : A) : M A := fun w => (Ret a, w).

Definition bind {A B} (m : M A) (k : A -> M B) : M B :=
  fun w =>
    match m w with
    | (Ret a, w') => k a w'
    | (Raise e, w') => (Raise e, w')
    end.

Definition raise {A} (e : exn) : M A := fun w => (Raise e, w).

Definition lift {A} (o : outcome A) : M A := fun w => (o, w).

Declare Scope py_scope.
Delimit Scope py_scope with py.
Notation "x <- m ;; k" := (bind m (fun x => k))
  (at level 61, m at next level, right associativity) : py_scope.
Notation "m ;; k" := (bind m (fun _ => k))
  (at level 61, right associativity) : py_scope.
#[local] Open Scope py_scope.

(** [try: body  except Exception as e: handler e] *)
Definition try_except {A} (body : M A) (handler : exn -> M A) : M A :=
  fun w =>
    match body w with
    | (Ret a, w') => (Ret a, w')
    | (Raise e, w') => if is_Exception e then handler e w' else (Raise e, w')
    end.

Definition get_self : M LangfuseTracer := fun w => (Ret (self w), w).

(** [logger.info / warning / error] *)
Definition log (l : level) (msg : string) : M unit :=
  fun w => (Ret tt, add_log l msg w).

(** [os.getenv(k)] and [os.getenv(k, default)] *)
Definition getenv (k : string) : M (option string) :=
  fun w => (Ret (env_get k (environ w)), w).

Definition getenv_default (k default : string) : M string :=
  fun w => (Ret (match env_get k (environ w) with Some v => v | None => default end), w).

(** [os.environ[k] = v]: the name and the value go to [putenv] as C
    strings, so a NUL in either is a [ValueError], as is an empty name or one
    that holds [=]; the mapping is written only when [putenv] took them.  A
    string here is the UTF-8 text of a [str], which the file-system encoding
    (UTF-8) always takes, so these are the only refusals. *)
Definition has_nul (s : string) : bool :=
  existsb (Ascii.eqb "000"%char) (list_ascii_of_string s).

Definition has_equals (s : string) : bool :=
  existsb (Ascii.eqb "="%char) (list_ascii_of_string s).

Definition embedded_null_byte : exn :=
  mk_exn (OtherException "ValueError") "embedded null byte".

Definition illegal_name : exn :=
  mk_exn (OtherException "ValueError") "illegal environment variable name".

Definition setenv (k v : string) : M unit :=
  fun w =>
    if has_nul k || has_nul v then (Raise embedded_null_byte, w)
    else if String.eqb k "" || has_equals k then (Raise illegal_name, w)
    else (Ret tt, set_environ k v w).

(* ===================================================================== *)
(** * The class LangfuseTracer *)
(* ===================================================================== *)

Section Tracer.

Variable L : Langfuse.

(** A call that reaches the library: it is recorded, and raises if the
    library says so. *)
Definition library_call (c : Call) : M unit :=
  fun w =>
    match raises L (calls w) c with
    | None => (Ret tt, add_call c w)
    | Some e => (Raise e, add_call c w)
    end.

(** Reading [self.client]: [AttributeError] when [__init__] never set it. *)
Definition self_client : M unit :=
  s <- get_self ;;
  if client s then ret tt
  else raise (mk_exn AttributeError "'LangfuseTracer' object has no attribute 'client'").

(** [self.client.<method>(...)] with arguments that cannot raise: the
    attribute is read, then the call is made. *)
Definition client_call (c : Call) : M unit :=
  self_client ;;
  library_call c.

(** [self.client.create_trace_id()] *)
Definition create_trace_id : M string :=
  fun w =>
    match client_call CreateTraceId w with
    | (Ret _, w') => (Ret (new_trace_id L (calls w)), w')
    | (Raise e, w') => (Raise e, w')
    end.

(** [with self.client.start_as_current_span(name=name) as span: body].
    The block is left through the context manager whether the body returned
    or raised; the manager does not swallow the body's exception, and an
    exception of its own takes its place. *)
Definition with_span {A} (name : string) (body : M A) : M A :=
  client_call (StartAsCurrentSpan name) ;;
  fun w =>
    match body w with
    | (Ret a, w1) =>
        match library_call SpanExit w1 with
        | (Ret _, w2) => (Ret a, w2)
        | (Raise e, w2) => (Raise e, w2)
        end
    | (Raise e, w1) =>
        match library_call SpanExit w1 with
        | (Ret _, w2) => (Raise e, w2)
        | (Raise e', w2) => (Raise e', w2)
        end
    end.

Definition set_enabled (b : bool) : M unit :=
  fun w => (Ret tt, set_self (mkTracer b (public_key (self w)) (secret_key (self w))
                                       (host (self w)) (client (self w))) w).

Definition set_public_key (v : option string) : M unit :=
  fun w => (Ret tt, set_self (mkTracer (enabled (self w)) v (secret_key (self w))
                                       (host (self w)) (client (self w))) w).

Definition set_secret_key (v : option string) : M unit :=
  fun w => (Ret tt, set_self (mkTracer (enabled (self w)) (public_key (self w)) v
                                       (host (self w)) (client (self w))) w).

Definition set_host (v : option string) : M unit :=
  fun w => (Ret tt, set_self (mkTracer (enabled (self w)) (public_key (self w))
                                       (secret_key (self w)) v (client (self w))) w).

Definition set_client : M unit :=
  fun w => (Ret tt, set_self (mkTracer (enabled (self w)) (public_key (self w))
                                       (secret_key (self w)) (host (self w)) true) w).

(** [x or y] for an optional string: [None] and the empty string are falsy. *)
Definition str_truthy (x : option string) : bool :=
  match x with
  | Some s => negb (String.eqb s "")
  | None => false
  end.

(** A new object, before [__init__] has assigned anything. *)
Definition blank : LangfuseTracer := mkTracer false None None None false.

Definition __init__ (public_key_arg secret_key_arg host_arg : option string)
                    (enabled_arg : option bool) : M unit :=
  enabled_val <- match enabled_arg with
                 | None => v <- getenv_default "ENABLE_LANGFUSE_TRACING" "true" ;;
                           ret (String.eqb (lower v) "true")
                 | Some b => ret b
                 end ;;
  set_enabled (enabled_val && LANGFUSE_AVAILABLE L) ;;
  s <- get_self ;;
  if negb (enabled s) then
    log INFO "Langfuse tracing disabled or not available"
  else
    pk <- (if str_truthy public_key_arg then ret public_key_arg
           else getenv "LANGFUSE_PUBLIC_KEY") ;;
    set_public_key pk ;;
    sk <- (if str_truthy secret_key_arg then ret secret_key_arg
           else getenv "LANGFUSE_SECRET_KEY") ;;
    set_secret_key sk ;;
    h <- (if str_truthy host_arg then ret (match host_arg with Some h => h | None => "" end)
          else getenv_default "LANGFUSE_HOST" "https://us.cloud.langfuse.com") ;;
    set_host (Some h) ;;
    if negb (str_truthy pk) || negb (str_truthy sk) then
      log WARNING "Langfuse credentials not found. Set LANGFUSE_PUBLIC_KEY and LANGFUSE_SECRET_KEY environment variables." ;;
      set_enabled false
    else
      let pk_s := match pk with Some x => x | None => "" end in
      let sk_s := match sk with Some x => x | None => "" end in
      try_except
        (setenv "LANGFUSE_PUBLIC_KEY" pk_s ;;
         setenv "LANGFUSE_SECRET_KEY" sk_s ;;
         setenv "LANGFUSE_HOST" h ;;
         library_call (GetClient pk_s) ;;
         set_client ;;
         log INFO ("Langfuse client initialized successfully with host: " ++ h))
        (fun e =>
           log ERROR ("Failed to initialize Langfuse client: " ++ exn_text e) ;;
           set_enabled false).

(** [overall_quality] of [_push_overall_scores]: float arithmetic, left to
    right, then a division by the int 4. *)
Definition overall_quality (r : EvaluationResult) : float :=
  ((accuracy r + precision r + recall r + f1_score r) / 4)%float.

Definition _push_overall_scores (trace_id : string) (evaluation_result : EvaluationResult)
                                (model_name : string) : M unit :=
  s <- get_self ;;
  if negb (enabled s) then ret tt else
  try_except
    (client_call (CreateScore trace_id "fraud_detection_accuracy"
                    (accuracy evaluation_result)
                    ("Overall fraud detection accuracy for " ++ model_name)) ;;
     client_call (CreateScore trace_id "fraud_detection_precision"
                    (precision evaluation_result)
                    ("Fraud detection precision for " ++ model_name)) ;;
     client_call (CreateScore trace_id "fraud_detection_recall"
                    (recall evaluation_result)
                    ("Fraud detection recall for " ++ model_name)) ;;
     client_call (CreateScore trace_id "fraud_detection_f1"
                    (f1_score evaluation_result)
                    ("Fraud detection F1 score for " ++ model_name)) ;;
     client_call (CreateScore trace_id "fraud_detection_overall_quality"
                    (overall_quality evaluation_result)
                    ("Overall quality score for " ++ model_name)))
    (fun e => log ERROR ("Failed to push overall scores: " ++ exn_text e)).

(** The score of the [i]-th pair (counted from 0) of the loop of
    [_push_case_scores]. *)
Definition case_accuracy_score (trace_id : string) (i : nat) (result : dict)
                               (test_case : TestCase) : Call :=
  let case_correct := dict_get_default "overall_correct" (PyBool false) result in
  CreateScore trace_id
    ("case_" ++ str_of_nat (i + 1) ++ "_accuracy")
    (if truthy case_correct then 1%float else 0%float)
    ("Case " ++ str_of_nat (i + 1) ++ ": " ++ title test_case).

Definition llm_judge_score (trace_id : string) (i : nat) (value : float)
                           (test_case : TestCase) : Call :=
  CreateScore trace_id
    ("case_" ++ str_of_nat (i + 1) ++ "_llm_judge_quality")
    value
    ("LLM judge quality for case " ++ str_of_nat (i + 1) ++ ": " ++ title test_case).

(** The body of [for i, (result, test_case) in enumerate(zip(...))], over
    the pairs that are left, [i] being the index of the first of them. *)
Fixpoint case_loop (trace_id : string) (i : nat) (pairs : list (dict * TestCase)) : M unit :=
  match pairs with
  | [] => ret tt
  | (result, test_case) :: rest =>
      client_call (case_accuracy_score trace_id i result test_case) ;;
      (match dict_get "llm_judgment" result with   (* 'llm_judgment' in result *)
       | Some judgment =>                           (* result['llm_judgment'] *)
           self_client ;;                           (* self.client.create_score( *)
           raw <- lift (py_get judgment "overall_quality" (PyInt 0)) ;;
           value <- lift (truediv_10 raw) ;;        (*   value=... / 10.0, *)
           library_call (llm_judge_score trace_id i value test_case)
       | None => ret tt
       end) ;;
      case_loop trace_id (S i) rest
  end.

Definition _push_case_scores (trace_id : string) (evaluation_result : EvaluationResult)
                             (test_cases : list TestCase) : M unit :=
  s <- get_self ;;
  if negb (enabled s) then ret tt else
  try_except
    (case_loop trace_id 0 (combine (detailed_results evaluation_result) test_cases))
    (fun e => log ERROR ("Failed to push case scores: " ++ exn_text e)).

Definition ragas_score (trace_id metric_name : string) (value : float) : Call :=
  CreateScore trace_id ("ragas_" ++ metric_name) value
              ("RAGAS " ++ metric_name ++ " score").

(** [for metric_name, score in ragas_scores.items()] *)
Fixpoint ragas_loop (trace_id : string) (items : dict) : M unit :=
  match items with
  | [] => ret tt
  | (metric_name, score) :: rest =>
      (if isinstance_int_float score then
         self_client ;;                             (* self.client.create_score( *)
         value <- lift (py_float score) ;;          (*   value=float(score), *)
         library_call (ragas_score trace_id metric_name value)
       else ret tt) ;;
      ragas_loop trace_id rest
  end.

Definition _push_ragas_scores (trace_id : string) (ragas : dict) : M unit :=
  s <- get_self ;;
  if negb (enabled s) then ret tt else
  try_except
    (ragas_loop trace_id ragas)
    (fun e => log ERROR ("Failed to push RAGAS scores: " ++ exn_text e)).

(** [trace_metadata] of [trace_evaluation_run]: the five literal keys, then
    [**(metadata or {})]. *)
Definition fixed_metadata (evaluation_result : EvaluationResult)
                          (model_name model_provider : string)
                          (test_cases : list TestCase) : dict :=
  [ ("model_name", PyStr model_name);
    ("model_provider", PyStr model_provider);
    ("evaluation_timestamp", timestamp evaluation_result);
    ("test_cases_count", PyInt (Z.of_nat (List.length test_cases)));
    ("evaluation_type", PyStr "fraud_detection") ].

Definition trace_metadata (evaluation_result : EvaluationResult)
                          (model_name model_provider : string)
                          (test_cases : list TestCase)
                          (metadata : option dict) : dict :=
  dict_update (fixed_metadata evaluation_result model_name model_provider test_cases)
              (or_empty metadata).

Definition run_output (evaluation_result : EvaluationResult)
                      (test_cases : list TestCase) : dict :=
  [ ("accuracy", PyFloat (accuracy evaluation_result));
    ("precision", PyFloat (precision evaluation_result));
    ("recall", PyFloat (recall evaluation_result));
    ("f1_score", PyFloat (f1_score evaluation_result));
    ("total_cases", PyInt (Z.of_nat (List.length test_cases))) ].

(** [if evaluation_result.ragas_scores: self._push_ragas_scores(...)]:
    [None] and the empty dict are falsy. *)
Definition push_ragas_if_available (trace_id : string)
                                   (evaluation_result : EvaluationResult) : M unit :=
  match ragas_scores evaluation_result with
  | Some (kv :: d) => _push_ragas_scores trace_id (kv :: d)
  | _ => ret tt
  end.

Definition trace_evaluation_run (evaluation_result : EvaluationResult)
                                (model_name model_provider : string)
                                (test_cases : list TestCase)
                                (metadata : option dict) : M (option string) :=
  s <- get_self ;;
  if negb (enabled s) then ret None else
  try_except
    (let md := trace_metadata evaluation_result model_name model_provider
                              test_cases metadata in
     trace_id <- create_trace_id ;;
     with_span ("fraud_detection_evaluation_" ++ model_name)
       (client_call (UpdateCurrentTrace ("fraud_detection_evaluation_" ++ model_name) md) ;;
        _push_overall_scores trace_id evaluation_result model_name ;;
        _push_case_scores trace_id evaluation_result test_cases ;;
        push_ragas_if_available trace_id evaluation_result ;;
        library_call (SpanUpdate (run_output evaluation_result test_cases))) ;;
     client_call Flush ;;
     log INFO ("Evaluation trace created with ID: " ++ trace_id) ;;
     ret (Some trace_id))
    (fun e =>
       log ERROR ("Failed to create evaluation trace: " ++ exn_text e) ;;
       ret None).

(** [prediction.get('fraud_flag', False)] *)
Definition predicted_fraud (prediction : dict) : pyval :=
  dict_get_default "fraud_flag" (PyBool false) prediction.

Definition single_case_metadata (test_case : TestCase) (prediction : dict)
                                (model_name : string) (metadata : option dict) : dict :=
  dict_update
    [ ("model_name", PyStr model_name);
      ("test_case_title", PyStr (title test_case));
      ("expected_fraud", PyBool (expected_fraud_flag test_case));
      ("predicted_fraud", predicted_fraud prediction) ]
    (or_empty metadata).

(** [is_correct] of [trace_single_case_evaluation] *)
Definition is_correct (test_case : TestCase) (prediction : dict) : bool :=
  py_eq_bool (predicted_fraud prediction) (expected_fraud_flag test_case).

Definition single_case_score (trace_id : string) (test_case : TestCase)
                             (prediction : dict) : Call :=
  CreateScore trace_id "case_accuracy"
    (if is_correct test_case prediction then 1%float else 0%float)
    ("Case accuracy: " ++ title test_case).

Definition single_case_output (test_case : TestCase) (prediction : dict) : dict :=
  [ ("correct", PyBool (is_correct test_case prediction));
    ("expected", PyBool (expected_fraud_flag test_case));
    ("predicted", predicted_fraud prediction) ].

Definition trace_single_case_evaluation (test_case : TestCase) (prediction : dict)
                                        (model_name : string)
                                        (metadata : option dict) : M (option string) :=
  s <- get_self ;;
  if negb (enabled s) then ret None else
  try_except
    (trace_id <- create_trace_id ;;
     with_span ("single_case_evaluation_" ++ model_name)
       (client_call (UpdateCurrentTrace ("single_case_evaluation_" ++ model_name)
                       (single_case_metadata test_case prediction model_name metadata)) ;;
        client_call (single_case_score trace_id test_case prediction) ;;
        library_call (SpanUpdate (single_case_output test_case prediction))) ;;
     client_call Flush ;;
     ret (Some trace_id))
    (fun e =>
       log ERROR ("Failed to create single case trace: " ++ exn_text e) ;;
       ret None).

Definition close : M unit :=
  s <- get_self ;;
  if enabled s && client s then
    try_except
      (client_call Shutdown ;;
       log INFO "Langfuse client shut down successfully")
      (fun e => log ERROR ("Error shutting down Langfuse client: " ++ exn_text e))
  else ret tt.

End Tracer.

(* ===================================================================== *)
(** * Runs, observations and sample inputs *)
(* ===================================================================== *)

(** The calls and log records that a step from [w] to [w'] added. *)
Definition new_calls (w w' : World) : list Call :=
  skipn (List.length (calls w)) (calls w').

Definition new_logs (w w' : World) : list (level * string) :=
  skipn (List.length (logs w)) (logs w').

Definition is_error (l : level * string) : bool :=
  match fst l with ERROR => true | _ => false end.

Definition count_errors (ls : list (level * string)) : nat :=
  List.length (filter is_error ls).

Definition is_score (c : Call) : bool :=
  match c with CreateScore _ _ _ _ => true | _ => false end.

(** Calls that open a trace or emit a score. *)
Definition is_emission (c : Call) : bool :=
  match c with
  | CreateTraceId | StartAsCurrentSpan _ | UpdateCurrentTrace _ _
  | CreateScore _ _ _ _ => true
  | _ => false
  end.

(** A per-case correctness score of the full run, by its name
    [case_<n>_accuracy]. *)
Definition is_case_accuracy (c : Call) : bool :=
  match c with
  | CreateScore _ name _ _ => starts_with "case_" name && ends_with "_accuracy" name
  | _ => false
  end.

(** Replaying the calls [cs] after the history [h]: does the library raise
    on one of them, and on one that is not a score emission? *)
Fixpoint some_raise (L : Langfuse) (h : list Call) (cs : list Call) : bool :=
  match cs with
  | [] => false
  | c :: cs' =>
      match raises L h c with
      | Some _ => true
      | None => some_raise L (h ++ [c]) cs'
      end
  end.

Fixpoint some_raise_outside_scores (L : Langfuse) (h : list Call) (cs : list Call) : bool :=
  match cs with
  | [] => false
  | c :: cs' =>
      match raises L h c with
      | Some _ => negb (is_score c) || some_raise_outside_scores L (h ++ [c]) cs'
      | None => some_raise_outside_scores L (h ++ [c]) cs'
      end
  end.

(** A library that never raises, and one all of whose exceptions derive
    from [Exception]. *)
Definition never_raises (L : Langfuse) : Prop :=
  forall h c, raises L h c = None.

Definition raises_only_Exception (L : Langfuse) : Prop :=
  forall h c e, raises L h c = Some e -> is_Exception e = true.

(** The per-case records that the loop of [_push_case_scores] reads without
    an exception: an [llm_judgment], when present, is a mapping, and its
    [overall_quality], when present, a number that has a float.  This is the
    shape section 3 of the specification gives them. *)
Definition judgment_ok (result : dict) : bool :=
  match dict_get "llm_judgment" result with
  | None => true
  | Some (PyDict j) =>
      match truediv_10 (dict_get_default "overall_quality" (PyInt 0) j) with
      | Ret _ => true
      | Raise _ => false
      end
  | Some _ => false
  end.

(** The exception that reading the [llm_judgment] of a record raises, if
    any: [judgment.get] on a value that is no mapping, or the division of an
    [overall_quality] that is no number or too large an int. *)
Definition judge_error (result : dict) : option exn :=
  match dict_get "llm_judgment" result with
  | None => None
  | Some judgment =>
      match py_get judgment "overall_quality" (PyInt 0) with
      | Raise e => Some e
      | Ret raw =>
          match truediv_10 raw with
          | Raise e => Some e
          | Ret _ => None
          end
      end
  end.

(** The first such exception among the pairs, and the pairs that the loop
    of [_push_case_scores] reaches: those up to and including the first
    whose judgment cannot be read. *)
Fixpoint first_judge_error (pairs : list (dict * TestCase)) : option exn :=
  match pairs with
  | [] => None
  | (result, _) :: rest =>
      match judge_error result with
      | Some e => Some e
      | None => first_judge_error rest
      end
  end.

Fixpoint through_unreadable (pairs : list (dict * TestCase)) : list (dict * TestCase) :=
  match pairs with
  | [] => []
  | (result, test_case) :: rest =>
      if judgment_ok result then (result, test_case) :: through_unreadable rest
      else [(result, test_case)]
  end.

(** The auxiliary scores that [float] converts: every int among them is
    small enough. *)
Definition score_ok (kv : string * pyval) : bool :=
  match snd kv with
  | PyInt z => match float_of_Z z with Some _ => true | None => false end
  | _ => true
  end.

Definition is_numeric_item (kv : string * pyval) : bool :=
  isinstance_int_float (snd kv).

(** The five calls of [_push_overall_scores], in order. *)
Definition overall_scores (trace_id : string) (r : EvaluationResult)
                          (model_name : string) : list Call :=
  [ CreateScore trace_id "fraud_detection_accuracy" (accuracy r)
      ("Overall fraud detection accuracy for " ++ model_name);
    CreateScore trace_id "fraud_detection_precision" (precision r)
      ("Fraud detection precision for " ++ model_name);
    CreateScore trace_id "fraud_detection_recall" (recall r)
      ("Fraud detection recall for " ++ model_name);
    CreateScore trace_id "fraud_detection_f1" (f1_score r)
      ("Fraud detection F1 score for " ++ model_name);
    CreateScore trace_id "fraud_detection_overall_quality" (overall_quality r)
      ("Overall quality score for " ++ model_name) ].

(** What a method may do to the world: leave the instance and the
    environment alone, and add calls, all of them of the kind [P], and log
    records. *)
Definition appends (P : Call -> bool) {A} (m : M A) : Prop :=
  forall w, exists cs ls,
    snd (m w) = mkWorld (self w) (calls w ++ cs) (logs w ++ ls) (environ w)
    /\ forallb P cs = true.

(** The exceptions a method lets out are all caught by [except Exception]. *)
Definition catchable {A} (m : M A) : Prop :=
  forall w e, fst (m w) = Raise e -> is_Exception e = true.

(** The method returns: no exception leaves it. *)
Definition returns {A} (m : M A) : Prop :=
  forall w, exists a, fst (m w) = Ret a.

Definition any_call (c : Call) : bool := true.

(** A method that only emits scores, logs nothing, and raises whenever the
    library raised on one of its calls. *)
Definition tracked (L : Langfuse) {A} (m : M A) : Prop :=
  forall w, exists cs,
    snd (m w) = add_calls cs w
    /\ forallb is_score cs = true
    /\ (some_raise L (calls w) cs = true -> exists e, fst (m w) = Raise e).

(** What a score helper leaves behind: it returns, its calls are score
    emissions, it logs at most one error, and it logs one when the library
    raised on one of its calls. *)
Definition absorbs (L : Langfuse) (m : M unit) : Prop :=
  forall w, exists cs ls,
    m w = (Ret tt, mkWorld (self w) (calls w ++ cs) (logs w ++ ls) (environ w))
    /\ forallb is_score cs = true
    /\ count_errors ls <= 1
    /\ (some_raise L (calls w) cs = true -> count_errors ls = 1).

(** Scores by the prefix of their name: the per-case scores of the full run
    are all named [case_...], the auxiliary ones [ragas_...]. *)
Definition is_case_call (c : Call) : bool :=
  match c with
  | CreateScore _ name _ _ => starts_with "case_" name
  | _ => false
  end.

Definition is_ragas_call (c : Call) : bool :=
  match c with
  | CreateScore _ name _ _ => starts_with "ragas_" name
  | _ => false
  end.

(** What the loops send when no call raises and every record reads well:
    the calls of one pair, of the pairs from index [i] on, and of the
    auxiliary items. *)
Definition judge_calls (trace_id : string) (i : nat) (result : dict)
                       (test_case : TestCase) : list Call :=
  match dict_get "llm_judgment" result with
  | Some (PyDict j) =>
      match truediv_10 (dict_get_default "overall_quality" (PyInt 0) j) with
      | Ret value => [llm_judge_score trace_id i value test_case]
      | Raise _ => []
      end
  | _ => []
  end.

Fixpoint case_calls (trace_id : string) (i : nat) (pairs : list (dict * TestCase)) : list Call :=
  match pairs with
  | [] => []
  | (result, test_case) :: rest =>
      case_accuracy_score trace_id i result test_case
        :: judge_calls trace_id i result test_case ++ case_calls trace_id (S i) rest
  end.

Definition ragas_item_calls (trace_id : string) (kv : string * pyval) : list Call :=
  if isinstance_int_float (snd kv) then
    match py_float (snd kv) with
    | Ret value => [ragas_score trace_id (fst kv) value]
    | Raise _ => []
    end
  else [].

Definition ragas_calls (trace_id : string) (items : dict) : list Call :=
  flat_map (ragas_item_calls trace_id) items.

(** The correctness scores alone, one per pair. *)
Fixpoint accuracy_calls (trace_id : string) (i : nat) (pairs : list (dict * TestCase)) : list Call :=
  match pairs with
  | [] => []
  | (result, test_case) :: rest =>
      case_accuracy_score trace_id i result test_case :: accuracy_calls trace_id (S i) rest
  end.

(** The items that come before the first int too large for a float. *)
Fixpoint before_overflow (items : dict) : dict :=
  match items with
  | [] => []
  | kv :: rest => if score_ok kv then kv :: before_overflow rest else []
  end.

(** [evaluation_result.ragas_scores], [None] read as no items. *)
Definition ragas_items (r : EvaluationResult) : dict :=
  match ragas_scores r with Some d => d | None => [] end.

(** The public operations, for runs of several of them. *)
Inductive Operation :=
| OpRun (evaluation_result : EvaluationResult) (model_name model_provider : string)
        (test_cases : list TestCase) (metadata : option dict)
| OpSingle (test_case : TestCase) (prediction : dict) (model_name : string)
           (metadata : option dict)
| OpClose
| OpPushOverall (trace_id : string) (evaluation_result : EvaluationResult) (model_name : string)
| OpPushCases (trace_id : string) (evaluation_result : EvaluationResult)
              (test_cases : list TestCase)
| OpPushRagas (trace_id : string) (ragas : dict).

(** One operation: the world it leaves and whether an exception escaped. *)
Definition perform (L : Langfuse) (op : Operation) (w : World) : World :=
  match op with
  | OpRun r mn mp tcs md => snd (trace_evaluation_run L r mn mp tcs md w)
  | OpSingle tc p mn md => snd (trace_single_case_evaluation L tc p mn md w)
  | OpClose => snd (close L w)
  | OpPushOverall tid r mn => snd (_push_overall_scores L tid r mn w)
  | OpPushCases tid r tcs => snd (_push_case_scores L tid r tcs w)
  | OpPushRagas tid d => snd (_push_ragas_scores L tid d w)
  end.

Definition perform_all (L : Langfuse) (ops : list Operation) (w : World) : World :=
  fold_left (fun w op => perform L op w) ops w.

(** The constructor: [__init__] on a new object. *)
Definition construct (L : Langfuse) (env : list (string * string))
                     (pk sk h : option string) (en : option bool) : outcome unit * World :=
  __init__ L pk sk h en (mkWorld blank [] [] env).

Module Sample.

Definition quiet : Langfuse :=
  mkLangfuse true (fun _ _ => None)
             (fun h => "trace-" ++ str_of_nat (List.length h)).

(** A library that raises [e] on the calls that [p] selects. *)
Definition failing (p : Call -> bool) (e : exn) : Langfuse :=
  mkLangfuse true (fun _ c => if p c then Some e else None)
             (fun h => "trace-" ++ str_of_nat (List.length h)).

Definition timeout_error : exn := mk_exn (OtherException "TimeoutError") "timed out".

Definition is_flush (c : Call) : bool :=
  match c with Flush => true | _ => false end.

Definition keyboard_interrupt : exn := mk_exn (BaseExceptionOnly "KeyboardInterrupt") "".

Definition live : LangfuseTracer :=
  mkTracer true (Some "pk-lf-1") (Some "sk-lf-1") (Some "https://us.cloud.langfuse.com") true.

Definition off : LangfuseTracer := mkTracer false None None None false.

Definition world (t : LangfuseTracer) : World := mkWorld t [] [] [].

Definition case_a : TestCase := mkTestCase "Wire fraud scheme" true.
Definition case_b : TestCase := mkTestCase "Tax evasion plea" false.

Definition five_cases : list TestCase := [case_a; case_b; case_a; case_b; case_a].

Definition result_of (details : list dict) (ragas : option dict) : EvaluationResult :=
  mkEvaluationResult 0.8 0.75 0.9 0.82 (PyStr "2024-05-01T12:00:00") details ragas.

Definition three_details : list dict :=
  [ [("overall_correct", PyBool true)];
    [("overall_correct", PyBool false);
     ("llm_judgment", PyDict [("overall_quality", PyInt 7)])];
    [("overall_correct", PyBool true);
     ("llm_judgment", PyDict [("overall_quality", PyInt 15)])] ].

Definition bad_details : list dict :=
  [ [("overall_correct", PyBool true);
     ("llm_judgment", PyDict [("overall_quality", PyStr "high")])] ].

(** Three records, the judgment of the first of which cannot be read. *)
Definition unreadable_details : list dict :=
  [ [("overall_correct", PyBool true);
     ("llm_judgment", PyDict [("overall_quality", PyStr "high")])];
    [("overall_correct", PyBool false);
     ("llm_judgment", PyDict [("overall_quality", PyInt 7)])];
    [("overall_correct", PyBool true)] ].

Definition mixed_ragas : dict :=
  [ ("faithfulness", PyFloat 0.5); ("verdict", PyStr "good") ].

Definition huge_ragas : dict :=
  [ ("context_size", PyInt (2 ^ 1024)); ("faithfulness", PyFloat 0.5) ].


End Sample.

(* ===================================================================== *)
(** * The module-level tracer and the convenience function *)
(* ===================================================================== *)

(** The state of the process as the module-level functions see it: the
    global [_global_tracer] ([None] until it is first asked for), and what
    the methods see of the world.  The global holds the instance itself;
    since no method assigns an attribute after [__init__], its value stands
    for it. *)
Record Process := mkProcess {
  _global_tracer : option LangfuseTracer;
  process_calls : list Call;
  process_logs : list (level * string);
  process_environ : list (string * string)
}.

(** The world of a method call on the instance [t]. *)
Definition world_of (t : LangfuseTracer) (p : Process) : World :=
  mkWorld t (process_calls p) (process_logs p) (process_environ p).

(** The process after a method call that left the world [w], with the
    global [g]. *)
Definition process_of (g : option LangfuseTracer) (w : World) : Process :=
  mkProcess g (calls w) (logs w) (environ w).

(** [get_langfuse_tracer()]: [LangfuseTracer()] on first use; the global is
    assigned only when the constructor returns. *)
Definition get_langfuse_tracer (L : Langfuse) (p : Process)
  : outcome LangfuseTracer * Process :=
  match _global_tracer p with
  | Some t => (Ret t, p)
  | None =>
      match __init__ L None None None None (world_of blank p) with
      | (Ret _, w) => (Ret (self w), process_of (Some (self w)) w)
      | (Raise e, w) => (Raise e, process_of None w)
      end
  end.

(** [set_langfuse_tracer(tracer)] *)
Definition set_langfuse_tracer (tracer : LangfuseTracer) (p : Process)
  : outcome unit * Process :=
  (Ret tt, mkProcess (Some tracer) (process_calls p) (process_logs p) (process_environ p)).

(** [trace_evaluation(...)]: an instance is always truthy, so
    [tracer and tracer.enabled] is [tracer.enabled]. *)
Definition trace_evaluation (L : Langfuse) (evaluation_result : EvaluationResult)
                            (model_name model_provider : string)
                            (test_cases : list TestCase) (metadata : option dict)
                            (p : Process) : outcome (option string) * Process :=
  match get_langfuse_tracer L p with
  | (Raise e, p') => (Raise e, p')
  | (Ret tracer, p') =>
      if enabled tracer then
        match trace_evaluation_run L evaluation_result model_name model_provider
                                   test_cases metadata (world_of tracer p') with
        | (o, w) => (o, process_of (Some (self w)) w)
        end
      else (Ret None, p')
  end.

(* ===================================================================== *)
(** * Further observations *)
(* ===================================================================== *)

(** What [__init__] works from: the enabled flag asked for, and the
    credentials and host after the fall-back to the environment. *)
Definition requested_enabled (en : option bool) (env : list (string * string)) : bool :=
  match en with
  | Some b => b
  | None =>
      String.eqb
        (lower (match env_get "ENABLE_LANGFUSE_TRACING" env with
                | Some v => v
                | None => "true"
                end))
        "true"
  end.

Definition effective_key (arg : option string) (name : string)
                         (env : list (string * string)) : option string :=
  if str_truthy arg then arg else env_get name env.

Definition effective_host (arg : option string) (env : list (string * string)) : string :=
  if str_truthy arg then match arg with Some h => h | None => "" end
  else match env_get "LANGFUSE_HOST" env with
       | Some v => v
       | None => "https://us.cloud.langfuse.com"
       end.

Definition key_text (k : option string) : string :=
  match k with Some x => x | None => "" end.

(** Whether [os.environ] takes the three values, and what it holds when it
    refused one: the values assigned before that one. *)
Definition exportable (pk sk : option string) (h : string) : bool :=
  negb (has_nul (key_text pk)) && negb (has_nul (key_text sk)) && negb (has_nul h).

Definition partly_exported (pk sk : option string)
                           (env : list (string * string)) : list (string * string) :=
  if has_nul (key_text pk) then env
  else if has_nul (key_text sk) then env_set "LANGFUSE_PUBLIC_KEY" (key_text pk) env
  else env_set "LANGFUSE_SECRET_KEY" (key_text sk)
         (env_set "LANGFUSE_PUBLIC_KEY" (key_text pk) env).

(** The environment after [__init__] has exported the credentials. *)
Definition exported_environ (pk sk : option string) (h : string)
                            (env : list (string * string)) : list (string * string) :=
  env_set "LANGFUSE_HOST" h
    (env_set "LANGFUSE_SECRET_KEY" (key_text sk)
       (env_set "LANGFUSE_PUBLIC_KEY" (key_text pk) env)).

Definition is_span_exit (c : Call) : bool :=
  match c with SpanExit => true | _ => false end.

Definition is_shutdown (c : Call) : bool :=
  match c with Shutdown => true | _ => false end.

(** Replaying the calls [cs] after the history [h]: was a span entered, that
    is, did a [start_as_current_span] return? *)
Fixpoint span_entered (L : Langfuse) (h : list Call) (cs : list Call) : bool :=
  match cs with
  | [] => false
  | c :: cs' =>
      match c, raises L h c with
      | StartAsCurrentSpan _, None => true
      | _, _ => span_entered L (h ++ [c]) cs'
      end
  end.

(** A score, if it is one, is attached to the trace [tid]. *)
Definition on_trace (tid : string) (c : Call) : bool :=
  match c with
  | CreateScore t _ _ _ => String.eqb t tid
  | _ => true
  end.

(** [cs] is what was sent of [full] before the sending stopped. *)
Definition sent_prefix (cs full : list Call) : Prop :=
  exists rest, full = (cs ++ rest)%list.

(** A method that makes the calls [full] in order and nothing else: what it
    made is an initial part of [full], and all of [full] when it returned. *)
Definition sends_in_order {A} (m : M A) (full : list Call) : Prop :=
  forall w, client (self w) = true ->
    exists cs, snd (m w) = add_calls cs w
      /\ sent_prefix cs full
      /\ (forall a, fst (m w) = Ret a -> cs = full).

(** A method that can only return [a]. *)
Definition returns_only {A} (a : A) (m : M A) : Prop :=
  forall w x, fst (m w) = Ret x -> x = a.

(** The calls that make the client and that end it. *)
Definition is_lifecycle (c : Call) : bool :=
  match c with GetClient _ | Shutdown => true | _ => false end.

Definition is_reporting (c : Call) : bool := negb (is_lifecycle c).

(** What a module-level function added to the calls and to the log. *)
Definition process_new_calls (p p' : Process) : list Call :=
  skipn (List.length (process_calls p)) (process_calls p').

Definition process_new_logs (p p' : Process) : list (level * string) :=
  skipn (List.length (process_logs p)) (process_logs p').

(** The process after [os.environ] was changed from outside to [env]. *)
Definition with_environ (env : list (string * string)) (p : Process) : Process :=
  mkProcess (_global_tracer p) (process_calls p) (process_logs p) env.

Module SampleEnv.

Definition credentials : list (string * string) :=
  [ ("LANGFUSE_PUBLIC_KEY", "pk-env"); ("LANGFUSE_SECRET_KEY", "sk-env") ].



Definition is_get_client (c : Call) : bool :=
  match c with GetClient _ => true | _ => false end.

Definition fresh (env : list (string * string)) : Process :=
  mkProcess None [] [] env.


End SampleEnv.

(* ===================================================================== *)
(** * Basic facts about the monad and the calls *)
(* ===================================================================== *)

#[local] Open Scope list_scope.

Lemma new_calls_app (w w' : World) (cs : list Call) :
  calls w' = calls w ++ cs -> new_calls w w' = cs.
Proof.
  intros E. unfold new_calls. rewrite E.
  rewrite skipn_app, skipn_all, Nat.sub_diag. reflexivity.
Qed.

Lemma new_logs_app (w w' : World) (ls : list (level * string)) :
  logs w' = logs w ++ ls -> new_logs w w' = ls.
Proof.
  intros E. unfold new_logs. rewrite E.
  rewrite skipn_app, skipn_all, Nat.sub_diag. reflexivity.
Qed.

Lemma new_calls_same (w : World) : new_calls w w = [].
Proof. apply new_calls_app. now rewrite app_nil_r. Qed.

Lemma add_calls_nil (w : World) : add_calls [] w = w.
Proof. destruct w. unfold add_calls. simpl. now rewrite app_nil_r. Qed.

Lemma add_calls_add_calls (cs cs' : list Call) (w : World) :
  add_calls cs' (add_calls cs w) = add_calls (cs ++ cs') w.
Proof. unfold add_calls. simpl. now rewrite <- app_assoc. Qed.

Lemma add_call_as_calls (c : Call) (w : World) : add_call c w = add_calls [c] w.
Proof. reflexivity. Qed.

Lemma bind_ret {A B} (a : A) (k : A -> M B) (w : World) :
  bind (ret a) k w = k a w.
Proof. reflexivity. Qed.

Lemma bind_lift_ret {A B} (a : A) (k : A -> M B) (w : World) :
  bind (lift (Ret a)) k w = k a w.
Proof. reflexivity. Qed.

Lemma bind_step {A B} {m : M A} {k : A -> M B} {w w1 : World} {a : A} :
  m w = (Ret a, w1) -> bind m k w = k a w1.
Proof. intros E. unfold bind. now rewrite E. Qed.

Lemma bind_bind {A B C} (m : M A) (k : A -> M B) (k' : B -> M C) (w : World) :
  bind (bind m k) k' w = bind m (fun a => bind (k a) k') w.
Proof. unfold bind. destruct (m w) as [[a | e] w1]; reflexivity. Qed.

Section Stepping.

Variable L : Langfuse.

Lemma self_client_present (w : World) :
  client (self w) = true -> self_client w = (Ret tt, w).
Proof. intros C. unfold self_client, bind, get_self. now rewrite C. Qed.

Lemma client_call_quiet (c : Call) (w : World) :
  never_raises L -> client (self w) = true ->
  client_call L c w = (Ret tt, add_call c w).
Proof.
  intros Q C. unfold client_call.
  rewrite (bind_step (self_client_present w C)).
  unfold library_call. now rewrite Q.
Qed.

Lemma library_call_quiet (c : Call) (w : World) :
  never_raises L -> library_call L c w = (Ret tt, add_call c w).
Proof. intros Q. unfold library_call. now rewrite Q. Qed.

Lemma create_trace_id_quiet (w : World) :
  never_raises L -> client (self w) = true ->
  create_trace_id L w = (Ret (new_trace_id L (calls w)), add_call CreateTraceId w).
Proof.
  intros Q C. unfold create_trace_id. now rewrite client_call_quiet.
Qed.

Lemma push_overall_quiet (tid : string) (r : EvaluationResult) (mn : string) (w : World) :
  never_raises L -> enabled (self w) = true -> client (self w) = true ->
  _push_overall_scores L tid r mn w = (Ret tt, add_calls (overall_scores tid r mn) w).
Proof.
  intros Q E C. unfold _push_overall_scores, bind at 1, get_self.
  rewrite E. cbn [negb]. unfold try_except, bind.
  repeat (rewrite client_call_quiet by (auto; cbn; auto)).
  rewrite !add_call_as_calls, !add_calls_add_calls. reflexivity.
Qed.

End Stepping.

(* ===================================================================== *)
(** * Score names *)
(* ===================================================================== *)

Lemma list_ascii_of_string_app (a b : string) :
  list_ascii_of_string (a ++ b)%string = list_ascii_of_string a ++ list_ascii_of_string b.
Proof. induction a as [| c a IH]; simpl; [reflexivity | now rewrite IH]. Qed.

Lemma ends_with_app (suffix p q : string) :
  ends_with suffix (p ++ q)%string =
  list_starts_with (rev (list_ascii_of_string suffix))
                   (rev (list_ascii_of_string q) ++ rev (list_ascii_of_string p)).
Proof. unfold ends_with. now rewrite list_ascii_of_string_app, rev_app_distr. Qed.

Lemma case_accuracy_name_ends (p : string) :
  ends_with "_accuracy" (p ++ "_accuracy")%string = true.
Proof. rewrite ends_with_app. reflexivity. Qed.

Lemma llm_judge_name_ends (p : string) :
  ends_with "_accuracy" (p ++ "_llm_judge_quality")%string = false.
Proof. rewrite ends_with_app. reflexivity. Qed.

Lemma is_case_accuracy_accuracy tid i result tc :
  is_case_accuracy (case_accuracy_score tid i result tc) = true.
Proof.
  unfold is_case_accuracy, case_accuracy_score.
  change ("case_" ++ str_of_nat (i + 1) ++ "_accuracy")%string
    with ("case_" ++ (str_of_nat (i + 1) ++ "_accuracy"))%string.
  rewrite andb_true_iff. split; [reflexivity |].
  rewrite ends_with_app, list_ascii_of_string_app, rev_app_distr, <- app_assoc.
  reflexivity.
Qed.

Lemma is_case_accuracy_llm_judge tid i v tc :
  is_case_accuracy (llm_judge_score tid i v tc) = false.
Proof.
  unfold is_case_accuracy, llm_judge_score.
  rewrite andb_false_iff. right.
  rewrite ends_with_app, list_ascii_of_string_app, rev_app_distr, <- app_assoc.
  reflexivity.
Qed.

Lemma ragas_name_not_case (name : string) :
  starts_with "ragas_" name = true -> starts_with "case_" name = false.
Proof.
  destruct name as [| a name]; [discriminate |].
  unfold starts_with. cbn [list_starts_with list_ascii_of_string].
  destruct (Ascii.eqb "r" a) eqn:E; [| discriminate].
  apply Ascii.eqb_eq in E. subst a. reflexivity.
Qed.

Lemma case_name_not_ragas (name : string) :
  starts_with "case_" name = true -> starts_with "ragas_" name = false.
Proof.
  intros H. destruct (starts_with "ragas_" name) eqn:E; [| reflexivity].
  apply ragas_name_not_case in E. congruence.
Qed.

Lemma ragas_call_is_score c : is_ragas_call c = true -> is_score c = true.
Proof. destruct c; simpl; congruence. Qed.

Lemma case_call_is_score c : is_case_call c = true -> is_score c = true.
Proof. destruct c; simpl; congruence. Qed.

Lemma filter_none {A} (f : A -> bool) (l : list A) :
  (forall x, In x l -> f x = false) -> filter f l = [].
Proof.
  induction l as [| x l IH]; intros H; simpl; [reflexivity |].
  rewrite (H x (or_introl eq_refl)). apply IH. intros y Hy. apply H. now right.
Qed.

Lemma filter_all {A} (f : A -> bool) (l : list A) :
  forallb f l = true -> filter f l = l.
Proof.
  induction l as [| x l IH]; simpl; [reflexivity |].
  intros H. apply andb_true_iff in H as [Hx Hl]. now rewrite Hx, IH.
Qed.

Lemma filter_disjoint {A} (f g : A -> bool) (l : list A) :
  (forall x, g x = true -> f x = false) -> forallb g l = true -> filter f l = [].
Proof.
  intros D H. apply filter_none. intros x Hx.
  apply D. rewrite forallb_forall in H. now apply H.
Qed.

Lemma ragas_call_not_case_accuracy c : is_ragas_call c = true -> is_case_accuracy c = false.
Proof.
  destruct c; simpl; try reflexivity. intros H.
  now rewrite (ragas_name_not_case _ H).
Qed.

Lemma case_call_not_ragas c : is_case_call c = true -> is_ragas_call c = false.
Proof. destruct c; simpl; try reflexivity. apply case_name_not_ragas. Qed.

(* ===================================================================== *)
(** * What every method leaves untouched *)
(* ===================================================================== *)

Section Frame.

Variable L : Langfuse.
Variable P : Call -> bool.

Lemma world_eta (w : World) :
  w = mkWorld (self w) (calls w ++ []) (logs w ++ []) (environ w).
Proof. destruct w. simpl. now rewrite !app_nil_r. Qed.

Lemma appends_ret {A} (a : A) : appends P (ret a).
Proof. intros w. exists [], []. simpl. split; [apply world_eta | reflexivity]. Qed.

Lemma appends_raise {A} (e : exn) : appends P (@raise A e).
Proof. intros w. exists [], []. simpl. split; [apply world_eta | reflexivity]. Qed.

Lemma appends_lift {A} (o : outcome A) : appends P (lift o).
Proof. intros w. exists [], []. simpl. split; [apply world_eta | reflexivity]. Qed.

Lemma appends_get_self : appends P get_self.
Proof. intros w. exists [], []. simpl. split; [apply world_eta | reflexivity]. Qed.

Lemma appends_log (l : level) (msg : string) : appends P (log l msg).
Proof.
  intros w. exists [], [(l, msg)]. simpl. unfold add_log.
  now rewrite app_nil_r.
Qed.

Lemma appends_then (w w1 w2 : World) (cs ls : _) (cs' ls' : _) :
  w1 = mkWorld (self w) (calls w ++ cs) (logs w ++ ls) (environ w) ->
  w2 = mkWorld (self w1) (calls w1 ++ cs') (logs w1 ++ ls') (environ w1) ->
  w2 = mkWorld (self w) (calls w ++ (cs ++ cs')) (logs w ++ (ls ++ ls')) (environ w).
Proof. intros -> ->. simpl. now rewrite !app_assoc. Qed.

Lemma appends_bind {A B} (m : M A) (k : A -> M B) :
  appends P m -> (forall a, appends P (k a)) -> appends P (bind m k).
Proof.
  intros Hm Hk w. unfold bind.
  destruct (Hm w) as (cs & ls & E & F).
  destruct (m w) as [[a | e] w1]; simpl in E.
  - destruct (Hk a w1) as (cs' & ls' & E' & F').
    exists (cs ++ cs'), (ls ++ ls'). split.
    + eapply appends_then; eauto.
    + rewrite forallb_app, F, F'. reflexivity.
  - exists cs, ls. simpl. auto.
Qed.

Lemma appends_try_except {A} (body : M A) (handler : exn -> M A) :
  appends P body -> (forall e, appends P (handler e)) ->
  appends P (try_except body handler).
Proof.
  intros Hb Hh w. unfold try_except.
  destruct (Hb w) as (cs & ls & E & F).
  destruct (body w) as [[a | e] w1]; simpl in E.
  - exists cs, ls. simpl. auto.
  - destruct (is_Exception e).
    + destruct (Hh e w1) as (cs' & ls' & E' & F').
      exists (cs ++ cs'), (ls ++ ls'). split.
      * eapply appends_then; eauto.
      * rewrite forallb_app, F, F'. reflexivity.
    + exists cs, ls. simpl. auto.
Qed.

Lemma appends_library_call (c : Call) :
  P c = true -> appends P (library_call L c).
Proof.
  intros Pc w. exists [c], []. unfold library_call.
  destruct (raises L (calls w) c); simpl; rewrite app_nil_r, Pc; auto.
Qed.

Lemma appends_self_client : appends P self_client.
Proof.
  unfold self_client. apply appends_bind; [apply appends_get_self |].
  intros s. destruct (client s); [apply appends_ret | apply appends_raise].
Qed.

Lemma appends_client_call (c : Call) :
  P c = true -> appends P (client_call L c).
Proof.
  intros Pc. unfold client_call. apply appends_bind; [apply appends_self_client |].
  intros _. now apply appends_library_call.
Qed.

Lemma appends_create_trace_id :
  P CreateTraceId = true -> appends P (create_trace_id L).
Proof.
  intros Pc w. unfold create_trace_id.
  destruct (appends_client_call CreateTraceId Pc w) as (cs & ls & E & F).
  exists cs, ls. destruct (client_call L CreateTraceId w) as [[a | e] w1]; auto.
Qed.

Lemma appends_with_span {A} (name : string) (body : M A) :
  P (StartAsCurrentSpan name) = true -> P SpanExit = true ->
  appends P body -> appends P (with_span L name body).
Proof.
  intros Ps Pe Hb. unfold with_span.
  apply appends_bind; [now apply appends_client_call |].
  intros _ w.
  destruct (Hb w) as (cs & ls & E & F).
  destruct (appends_library_call SpanExit Pe (snd (body w))) as (cs' & ls' & E' & F').
  exists (cs ++ cs'), (ls ++ ls'). split.
  - destruct (body w) as [[a | e] w1]; simpl in *;
      destruct (library_call L SpanExit w1) as [[u | e'] w2]; simpl in *;
      eapply appends_then; eauto.
  - rewrite forallb_app, F, F'. reflexivity.
Qed.

End Frame.

Lemma appends_weaken (P Q : Call -> bool) {A} (m : M A) :
  (forall c, P c = true -> Q c = true) -> appends P m -> appends Q m.
Proof.
  intros PQ Hm w. destruct (Hm w) as (cs & ls & E & F).
  exists cs, ls. split; [assumption |].
  rewrite forallb_forall in *. auto.
Qed.

Create HintDb frame.
#[local] Hint Resolve appends_ret appends_raise appends_lift appends_get_self appends_log
  appends_self_client appends_library_call appends_client_call appends_create_trace_id
  : frame.

Ltac frame_leaf :=
  solve [ auto with frame
        | apply appends_client_call; reflexivity
        | apply appends_library_call; reflexivity ].

Ltac frame_seq :=
  first [ frame_leaf
        | apply appends_bind; [frame_leaf | intros ?; frame_seq] ].

Section FrameOfMethods.

Variable L : Langfuse.

Lemma appends_push_overall tid r mn : appends is_score (_push_overall_scores L tid r mn).
Proof.
  unfold _push_overall_scores. apply appends_bind; [frame_leaf |].
  intros s. destruct (negb (enabled s)); [frame_leaf |].
  apply appends_try_except; [frame_seq | intros e; frame_leaf].
Qed.

Lemma appends_case_loop tid pairs : forall i, appends is_case_call (case_loop L tid i pairs).
Proof.
  induction pairs as [| [result test_case] rest IH]; intros i; simpl.
  - frame_leaf.
  - apply appends_bind; [frame_leaf | intros _].
    apply appends_bind; [| intros _; apply IH].
    destruct (dict_get "llm_judgment" result); [frame_seq | frame_leaf].
Qed.

Lemma appends_push_cases tid r tcs : appends is_case_call (_push_case_scores L tid r tcs).
Proof.
  unfold _push_case_scores. apply appends_bind; [frame_leaf |].
  intros s. destruct (negb (enabled s)); [frame_leaf |].
  apply appends_try_except; [apply appends_case_loop | intros e; frame_leaf].
Qed.

Lemma appends_ragas_loop tid items : appends is_ragas_call (ragas_loop L tid items).
Proof.
  induction items as [| [metric_name score] rest IH]; simpl.
  - frame_leaf.
  - apply appends_bind; [| intros _; apply IH].
    destruct (isinstance_int_float score); [frame_seq | frame_leaf].
Qed.

Lemma appends_push_ragas tid d : appends is_ragas_call (_push_ragas_scores L tid d).
Proof.
  unfold _push_ragas_scores. apply appends_bind; [frame_leaf |].
  intros s. destruct (negb (enabled s)); [frame_leaf |].
  apply appends_try_except; [apply appends_ragas_loop | intros e; frame_leaf].
Qed.

Lemma appends_push_ragas_if tid r : appends is_ragas_call (push_ragas_if_available L tid r).
Proof.
  unfold push_ragas_if_available.
  destruct (ragas_scores r) as [[| kv d] |]; try frame_leaf.
  apply appends_push_ragas.
Qed.

Lemma appends_any (P : Call -> bool) {A} (m : M A) : appends P m -> appends any_call m.
Proof. apply appends_weaken. reflexivity. Qed.

Lemma appends_run r mn mp tcs md :
  appends any_call (trace_evaluation_run L r mn mp tcs md).
Proof.
  unfold trace_evaluation_run. apply appends_bind; [frame_leaf |].
  intros s. destruct (negb (enabled s)); [frame_leaf |].
  apply appends_try_except; [| intros e; frame_seq].
  apply appends_bind; [frame_leaf | intros tid].
  apply appends_bind; [| intros _; frame_seq].
  apply appends_with_span; [reflexivity | reflexivity |].
  apply appends_bind; [frame_leaf | intros _].
  apply appends_bind; [apply (appends_any is_score), appends_push_overall | intros _].
  apply appends_bind; [apply (appends_any is_case_call), appends_push_cases | intros _].
  apply appends_bind; [apply (appends_any is_ragas_call), appends_push_ragas_if | intros _; frame_leaf].
Qed.

Lemma appends_single tc p mn md :
  appends any_call (trace_single_case_evaluation L tc p mn md).
Proof.
  unfold trace_single_case_evaluation. apply appends_bind; [frame_leaf |].
  intros s. destruct (negb (enabled s)); [frame_leaf |].
  apply appends_try_except; [| intros e; frame_seq].
  apply appends_bind; [frame_leaf | intros tid].
  apply appends_bind; [| intros _; frame_seq].
  apply appends_with_span; [reflexivity | reflexivity | frame_seq].
Qed.

Lemma appends_close : appends any_call (close L).
Proof.
  unfold close. apply appends_bind; [frame_leaf |].
  intros s. destruct (enabled s && client s); [| frame_leaf].
  apply appends_try_except; [frame_seq | intros e; frame_leaf].
Qed.

End FrameOfMethods.

(* ===================================================================== *)
(** * Which exceptions can leave a method *)
(* ===================================================================== *)

Lemma py_get_raises_Exception v k d e :
  py_get v k d = Raise e -> is_Exception e = true.
Proof. destruct v; simpl; intros E; inversion E; reflexivity. Qed.

Lemma truediv_10_raises_Exception v e :
  truediv_10 v = Raise e -> is_Exception e = true.
Proof.
  destruct v; simpl; intros E; try (inversion E; reflexivity).
  destruct (float_of_Z z); inversion E; reflexivity.
Qed.

Lemma py_float_raises_Exception v e :
  py_float v = Raise e -> is_Exception e = true.
Proof.
  destruct v; simpl; intros E; try (inversion E; reflexivity).
  destruct (float_of_Z z); inversion E; reflexivity.
Qed.

Lemma never_raises_only_Exception (L : Langfuse) :
  never_raises L -> raises_only_Exception L.
Proof. intros Q h c e E. rewrite Q in E. discriminate. Qed.

Section Exceptions.

Variable L : Langfuse.
Hypothesis only_Exception : raises_only_Exception L.

Lemma catchable_ret {A} (a : A) : catchable (ret a).
Proof. intros w e E. discriminate. Qed.

Lemma catchable_log l msg : catchable (log l msg).
Proof. intros w e E. discriminate. Qed.

Lemma catchable_get_self : catchable get_self.
Proof. intros w e E. discriminate. Qed.

Lemma catchable_lift {A} (o : outcome A) :
  (forall e, o = Raise e -> is_Exception e = true) -> catchable (lift o).
Proof. intros H w e E. simpl in E. auto. Qed.

Lemma catchable_bind {A B} (m : M A) (k : A -> M B) :
  catchable m -> (forall a, catchable (k a)) -> catchable (bind m k).
Proof.
  intros Hm Hk w e. unfold bind. specialize (Hm w).
  destruct (m w) as [[a | e'] w1]; simpl in *.
  - apply Hk.
  - intros E. inversion E; subst. now apply Hm.
Qed.

Lemma catchable_library_call c : catchable (library_call L c).
Proof.
  intros w e. unfold library_call.
  destruct (raises L (calls w) c) eqn:R; simpl; intros E; inversion E; subst.
  eapply only_Exception; eauto.
Qed.

Lemma catchable_self_client : catchable self_client.
Proof.
  unfold self_client. apply catchable_bind; [apply catchable_get_self |].
  intros s. destruct (client s); [apply catchable_ret |].
  intros w e E. inversion E. reflexivity.
Qed.

Lemma catchable_client_call c : catchable (client_call L c).
Proof.
  unfold client_call. apply catchable_bind; [apply catchable_self_client |].
  intros _. apply catchable_library_call.
Qed.

Lemma catchable_create_trace_id : catchable (create_trace_id L).
Proof.
  intros w e. unfold create_trace_id.
  pose proof (catchable_client_call CreateTraceId w) as H.
  destruct (client_call L CreateTraceId w) as [[u | e'] w1]; simpl in *; intros E;
    inversion E; subst; auto.
Qed.

Lemma catchable_with_span {A} name (body : M A) :
  catchable body -> catchable (with_span L name body).
Proof.
  intros Hb. unfold with_span.
  apply catchable_bind; [apply catchable_client_call | intros _].
  intros w e. specialize (Hb w).
  destruct (body w) as [[a | e1] w1]; simpl in *;
    pose proof (catchable_library_call SpanExit w1) as Hx;
    destruct (library_call L SpanExit w1) as [[u | e2] w2]; simpl in *;
    intros E; inversion E; subst; auto.
Qed.

Lemma catchable_try_except {A} (body : M A) handler :
  catchable body -> (forall e, catchable (handler e)) ->
  catchable (try_except body handler).
Proof.
  intros Hb Hh w e. unfold try_except. specialize (Hb w).
  destruct (body w) as [[a | e1] w1]; simpl in *; [discriminate |].
  rewrite (Hb e1 eq_refl). apply Hh.
Qed.

Lemma returns_ret {A} (a : A) : returns (ret a).
Proof. intros w. now exists a. Qed.

Lemma returns_log l msg : returns (log l msg).
Proof. intros w. now exists tt. Qed.

Lemma returns_bind {A B} (m : M A) (k : A -> M B) :
  returns m -> (forall a, returns (k a)) -> returns (bind m k).
Proof.
  intros Hm Hk w. unfold bind. destruct (Hm w) as [a E].
  destruct (m w) as [[a' | e] w1]; simpl in E; [apply Hk | discriminate].
Qed.

Lemma returns_try_except {A} (body : M A) handler :
  catchable body -> (forall e, returns (handler e)) ->
  returns (try_except body handler).
Proof.
  intros Hb Hh w. unfold try_except. specialize (Hb w).
  destruct (body w) as [[a | e] w1]; simpl in *.
  - now exists a.
  - rewrite (Hb e eq_refl). apply Hh.
Qed.

Lemma catchable_case_loop tid pairs : forall i, catchable (case_loop L tid i pairs).
Proof.
  induction pairs as [| [result test_case] rest IH]; intros i; simpl.
  - apply catchable_ret.
  - apply catchable_bind; [apply catchable_client_call | intros _].
    apply catchable_bind; [| intros _; apply IH].
    destruct (dict_get "llm_judgment" result) as [j |]; [| apply catchable_ret].
    apply catchable_bind; [apply catchable_self_client | intros _].
    apply catchable_bind; [apply catchable_lift, py_get_raises_Exception | intros raw].
    apply catchable_bind; [apply catchable_lift, truediv_10_raises_Exception | intros v].
    apply catchable_library_call.
Qed.

Lemma catchable_ragas_loop tid items : catchable (ragas_loop L tid items).
Proof.
  induction items as [| [metric_name score] rest IH]; simpl.
  - apply catchable_ret.
  - apply catchable_bind; [| intros _; apply IH].
    destruct (isinstance_int_float score); [| apply catchable_ret].
    apply catchable_bind; [apply catchable_self_client | intros _].
    apply catchable_bind; [apply catchable_lift, py_float_raises_Exception | intros v].
    apply catchable_library_call.
Qed.

Lemma returns_push_overall tid r mn : returns (_push_overall_scores L tid r mn).
Proof.
  unfold _push_overall_scores. intros w. unfold bind at 1, get_self.
  destruct (negb (enabled (self w))); [now exists tt |].
  apply returns_try_except; [| intros e; apply returns_log].
  repeat (apply catchable_bind; [apply catchable_client_call | intros _]).
  apply catchable_client_call.
Qed.

Lemma returns_push_cases tid r tcs : returns (_push_case_scores L tid r tcs).
Proof.
  unfold _push_case_scores. intros w. unfold bind at 1, get_self.
  destruct (negb (enabled (self w))); [now exists tt |].
  apply returns_try_except; [apply catchable_case_loop | intros e; apply returns_log].
Qed.

Lemma returns_push_ragas tid d : returns (_push_ragas_scores L tid d).
Proof.
  unfold _push_ragas_scores. intros w. unfold bind at 1, get_self.
  destruct (negb (enabled (self w))); [now exists tt |].
  apply returns_try_except; [apply catchable_ragas_loop | intros e; apply returns_log].
Qed.

Lemma returns_push_ragas_if tid r : returns (push_ragas_if_available L tid r).
Proof.
  unfold push_ragas_if_available.
  destruct (ragas_scores r) as [[| kv d] |]; try apply returns_ret.
  apply returns_push_ragas.
Qed.

Lemma catchable_of_returns {A} (m : M A) : returns m -> catchable m.
Proof. intros H w e E. destruct (H w) as [a Ea]. congruence. Qed.

Lemma returns_run r mn mp tcs md : returns (trace_evaluation_run L r mn mp tcs md).
Proof.
  unfold trace_evaluation_run. intros w. unfold bind at 1, get_self.
  destruct (negb (enabled (self w))); [now exists None |].
  apply returns_try_except.
  - apply catchable_bind; [apply catchable_create_trace_id | intros tid].
    apply catchable_bind.
    + apply catchable_with_span.
      apply catchable_bind; [apply catchable_client_call | intros _].
      apply catchable_bind; [apply catchable_of_returns, returns_push_overall | intros _].
      apply catchable_bind; [apply catchable_of_returns, returns_push_cases | intros _].
      apply catchable_bind; [| intros _; apply catchable_library_call].
      apply catchable_of_returns, returns_push_ragas_if.
    + intros _. apply catchable_bind; [apply catchable_client_call | intros _].
      apply catchable_bind; [apply catchable_log | intros _; apply catchable_ret].
  - intros e. apply returns_bind; [apply returns_log | intros _; apply returns_ret].
Qed.

Lemma returns_single tc p mn md : returns (trace_single_case_evaluation L tc p mn md).
Proof.
  unfold trace_single_case_evaluation. intros w. unfold bind at 1, get_self.
  destruct (negb (enabled (self w))); [now exists None |].
  apply returns_try_except.
  - apply catchable_bind; [apply catchable_create_trace_id | intros tid].
    apply catchable_bind.
    + apply catchable_with_span.
      apply catchable_bind; [apply catchable_client_call | intros _].
      apply catchable_bind; [apply catchable_client_call | intros _].
      apply catchable_library_call.
    + intros _. apply catchable_bind; [apply catchable_client_call | intros _].
      apply catchable_ret.
  - intros e. apply returns_bind; [apply returns_log | intros _; apply returns_ret].
Qed.

Lemma returns_close : returns (close L).
Proof.
  unfold close. intros w. unfold bind at 1, get_self.
  destruct (enabled (self w) && client (self w)); [| now exists tt].
  apply returns_try_except; [| intros e; apply returns_log].
  apply catchable_bind; [apply catchable_client_call | intros _; apply catchable_log].
Qed.

End Exceptions.

(* ===================================================================== *)
(** * A run against a library that never raises *)
(* ===================================================================== *)

Section QuietRun.

Variable L : Langfuse.
Hypothesis quiet : never_raises L.

Lemma judgment_ok_error (result : dict) :
  judgment_ok result = match judge_error result with None => true | Some _ => false end.
Proof.
  unfold judgment_ok, judge_error.
  destruct (dict_get "llm_judgment" result) as [[| | | | | | j] |]; try reflexivity.
  cbn [py_get]. now destruct (truediv_10 _).
Qed.

Lemma judge_error_Exception (result : dict) (e : exn) :
  judge_error result = Some e -> is_Exception e = true.
Proof.
  unfold judge_error.
  destruct (dict_get "llm_judgment" result) as [judgment |]; [| discriminate].
  destruct (py_get judgment "overall_quality" (PyInt 0)) as [raw | e'] eqn:G.
  - destruct (truediv_10 raw) as [v | e'] eqn:T; [discriminate |].
    intros H. inversion H. subst. exact (truediv_10_raises_Exception _ _ T).
  - intros H. inversion H. subst. exact (py_get_raises_Exception _ _ _ _ G).
Qed.

Lemma first_judge_error_Exception (pairs : list (dict * TestCase)) (e : exn) :
  first_judge_error pairs = Some e -> is_Exception e = true.
Proof.
  induction pairs as [| [result tc] rest IH]; [discriminate |].
  cbn [first_judge_error]. destruct (judge_error result) as [e' |] eqn:J; [| exact IH].
  intros H. inversion H. subst. exact (judge_error_Exception _ _ J).
Qed.

Lemma first_judge_error_ok (pairs : list (dict * TestCase)) :
  forallb judgment_ok (map fst pairs)
  = match first_judge_error pairs with None => true | Some _ => false end.
Proof.
  induction pairs as [| [result tc] rest IH]; [reflexivity |].
  cbn [map fst forallb first_judge_error]. rewrite judgment_ok_error.
  destruct (judge_error result); [reflexivity | exact IH].
Qed.

Lemma through_unreadable_all (pairs : list (dict * TestCase)) :
  forallb judgment_ok (map fst pairs) = true -> through_unreadable pairs = pairs.
Proof.
  induction pairs as [| [result tc] rest IH]; [reflexivity |].
  cbn [map fst forallb through_unreadable]. intros H.
  apply andb_true_iff in H as [H1 H2]. now rewrite H1, IH.
Qed.

(** The loop of [_push_case_scores] over any records: it sends the calls of
    the pairs up to the first judgment that cannot be read, the correctness
    score of that pair included, and raises there. *)
Lemma case_loop_quiet_any tid pairs : forall i w,
  client (self w) = true ->
  case_loop L tid i pairs w =
  (match first_judge_error pairs with None => Ret tt | Some e => Raise e end,
   add_calls (case_calls tid i (through_unreadable pairs)) w).
Proof.
  induction pairs as [| [result test_case] rest IH]; intros i w C.
  - simpl. now rewrite add_calls_nil.
  - cbn [case_loop first_judge_error through_unreadable].
    rewrite (bind_step (client_call_quiet L _ w quiet C)).
    rewrite judgment_ok_error. unfold judge_error.
    destruct (dict_get "llm_judgment" result) as [judgment |] eqn:J.
    + rewrite bind_bind. erewrite bind_step by (apply self_client_present; exact C).
      rewrite bind_bind.
      destruct (py_get judgment "overall_quality" (PyInt 0)) as [raw | e] eqn:G.
      * rewrite bind_lift_ret, bind_bind.
        destruct (truediv_10 raw) as [v | e] eqn:T.
        -- rewrite bind_lift_ret.
           erewrite bind_step by (apply library_call_quiet; exact quiet).
           rewrite IH by assumption.
           cbn [case_calls]. unfold judge_calls. rewrite J.
           destruct judgment; try discriminate G.
           cbn [py_get] in G. inversion G. subst raw. rewrite T.
           now rewrite !add_call_as_calls, !add_calls_add_calls.
        -- unfold bind, lift.
           cbn [case_calls]. unfold judge_calls. rewrite J.
           destruct judgment; try discriminate G.
           cbn [py_get] in G. inversion G. subst raw. rewrite T.
           cbn [app]. now rewrite add_call_as_calls.
      * unfold bind, lift.
        cbn [case_calls]. unfold judge_calls. rewrite J.
        destruct judgment; try discriminate G;
          cbn [app]; now rewrite add_call_as_calls.
    + rewrite bind_ret, IH by assumption.
      cbn [case_calls]. unfold judge_calls. rewrite J.
      now rewrite add_call_as_calls, add_calls_add_calls.
Qed.

Lemma before_overflow_all (items : dict) :
  forallb score_ok items = true -> before_overflow items = items.
Proof.
  induction items as [| kv rest IH]; simpl; [reflexivity |].
  intros H. apply andb_true_iff in H as [H1 H2]. now rewrite H1, IH.
Qed.

Lemma py_float_score_ok (k : string) (v : pyval) :
  isinstance_int_float v = true ->
  if score_ok (k, v)
  then exists f, py_float v = Ret f
  else py_float v = Raise (mk_exn OverflowError "int too large to convert to float").
Proof.
  unfold score_ok. cbn [snd]. destruct v; try discriminate; intros _; simpl; eauto.
  destruct (float_of_Z z); eauto.
Qed.

Lemma ragas_loop_quiet tid items : forall w,
  client (self w) = true ->
  ragas_loop L tid items w =
  (if forallb score_ok items then Ret tt
   else Raise (mk_exn OverflowError "int too large to convert to float"),
   add_calls (ragas_calls tid (before_overflow items)) w).
Proof.
  induction items as [| [metric_name score] rest IH]; intros w C.
  - simpl. now rewrite add_calls_nil.
  - cbn [ragas_loop forallb before_overflow].
    destruct (isinstance_int_float score) eqn:N.
    + pose proof (py_float_score_ok metric_name score N) as F.
      destruct (score_ok (metric_name, score)) eqn:OK.
      * destruct F as [v Ev]. cbn [andb].
        unfold ragas_calls. cbn [flat_map]. fold (ragas_calls tid (before_overflow rest)).
        unfold ragas_item_calls. cbn [fst snd]. rewrite N, Ev.
        rewrite bind_bind. erewrite bind_step by (apply self_client_present; exact C).
        rewrite bind_bind, bind_lift_ret.
        erewrite bind_step by (apply library_call_quiet; exact quiet).
        rewrite IH by assumption.
        now rewrite add_call_as_calls, add_calls_add_calls.
      * cbn [andb]. rewrite F.
        rewrite bind_bind. erewrite bind_step by (apply self_client_present; exact C).
        unfold bind, lift. cbn [ragas_calls flat_map].
        now rewrite add_calls_nil.
    + assert (OK : score_ok (metric_name, score) = true)
        by (unfold score_ok; cbn [snd]; destruct score; auto; discriminate).
      rewrite OK. cbn [andb].
      unfold ragas_calls. cbn [flat_map]. fold (ragas_calls tid (before_overflow rest)).
      unfold ragas_item_calls. cbn [fst snd]. rewrite N. cbn [app].
      rewrite bind_ret. now apply IH.
Qed.

Lemma helper_returns {m : M unit} (w : World) :
  returns m -> m w = (Ret tt, snd (m w)).
Proof.
  intros H. destruct (H w) as [[] E]. destruct (m w) as [o w1].
  simpl in *. now subst.
Qed.

Lemma helper_keeps_self (P : Call -> bool) {A} (m : M A) (w : World) :
  appends P m -> self (snd (m w)) = self w.
Proof. intros H. destruct (H w) as (cs & ls & E & _). now rewrite E. Qed.

Lemma run_quiet r mn mp tcs md w :
  enabled (self w) = true -> client (self w) = true ->
  let tid := new_trace_id L (calls w) in
  let name := ("fraud_detection_evaluation_" ++ mn)%string in
  let w3 := add_calls (CreateTraceId :: StartAsCurrentSpan name
                         :: UpdateCurrentTrace name (trace_metadata r mn mp tcs md)
                         :: overall_scores tid r mn) w in
  let w4 := snd (_push_case_scores L tid r tcs w3) in
  let w5 := snd (push_ragas_if_available L tid r w4) in
  trace_evaluation_run L r mn mp tcs md w =
  (Ret (Some tid),
   add_log INFO ("Evaluation trace created with ID: " ++ tid)%string
     (add_calls [SpanUpdate (run_output r tcs); SpanExit; Flush] w5)).
Proof.
  intros E C tid name w3 w4 w5.
  pose proof (never_raises_only_Exception L quiet) as OE.
  unfold trace_evaluation_run, bind at 1, get_self. rewrite E. cbn [negb].
  unfold try_except.
  rewrite (bind_step (create_trace_id_quiet L w quiet C)). fold tid.
  unfold with_span. rewrite bind_bind.
  erewrite bind_step by (apply client_call_quiet; [exact quiet | exact C]).
  unfold bind at 1.
  erewrite bind_step by (apply client_call_quiet; [exact quiet | exact C]).
  erewrite bind_step by (apply push_overall_quiet; [exact quiet | exact E | exact C]).
  rewrite !add_call_as_calls, !add_calls_add_calls. cbn [app]. fold name. fold w3.
  rewrite (bind_step (helper_returns w3 (returns_push_cases L OE tid r tcs))). fold w4.
  rewrite (bind_step (helper_returns w4 (returns_push_ragas_if L OE tid r))). fold w5.
  rewrite !library_call_quiet by exact quiet.
  assert (C5 : client (self (add_call SpanExit (add_call (SpanUpdate (run_output r tcs)) w5))) = true).
  { cbn [self add_call]. unfold w5, w4.
    rewrite (helper_keeps_self _ _ _ (appends_push_ragas_if L tid r)).
    rewrite (helper_keeps_self _ _ _ (appends_push_cases L tid r tcs)).
    exact C. }
  erewrite bind_step by (apply client_call_quiet; [exact quiet | exact C5]).
  unfold bind, log, ret.
  now rewrite !add_call_as_calls, !add_calls_add_calls.
Qed.

Lemma forallb_combine_fst {A B} (f : A -> bool) (l : list A) (l' : list B) :
  forallb f l = true -> forallb f (map fst (combine l l')) = true.
Proof.
  revert l'. induction l as [| x l IH]; intros [| y l'] H; simpl in *; try reflexivity.
  apply andb_true_iff in H as [Hx Hl]. rewrite Hx. now apply IH.
Qed.

Lemma push_cases_quiet_any tid r tcs w :
  enabled (self w) = true -> client (self w) = true ->
  let pairs := combine (detailed_results r) tcs in
  _push_case_scores L tid r tcs w =
  (Ret tt,
   match first_judge_error pairs with
   | None => add_calls (case_calls tid 0 (through_unreadable pairs)) w
   | Some e =>
       add_log ERROR ("Failed to push case scores: " ++ exn_text e)%string
         (add_calls (case_calls tid 0 (through_unreadable pairs)) w)
   end).
Proof.
  intros E C pairs. unfold _push_case_scores, bind at 1, get_self.
  rewrite E. cbn [negb]. unfold try_except.
  rewrite case_loop_quiet_any by assumption. fold pairs.
  destruct (first_judge_error pairs) as [e |] eqn:F; [| reflexivity].
  now rewrite (first_judge_error_Exception _ _ F).
Qed.

Lemma push_ragas_quiet tid d w :
  enabled (self w) = true -> client (self w) = true ->
  _push_ragas_scores L tid d w =
  (Ret tt,
   if forallb score_ok d
   then add_calls (ragas_calls tid d) w
   else add_log ERROR "Failed to push RAGAS scores: int too large to convert to float"
          (add_calls (ragas_calls tid (before_overflow d)) w)).
Proof.
  intros E C. unfold _push_ragas_scores, bind at 1, get_self.
  rewrite E. cbn [negb]. unfold try_except.
  rewrite ragas_loop_quiet by assumption.
  destruct (forallb score_ok d) eqn:OK.
  - now rewrite before_overflow_all.
  - reflexivity.
Qed.

Lemma push_ragas_if_quiet tid r w :
  enabled (self w) = true -> client (self w) = true ->
  push_ragas_if_available L tid r w =
  (Ret tt,
   if forallb score_ok (ragas_items r)
   then add_calls (ragas_calls tid (ragas_items r)) w
   else add_log ERROR "Failed to push RAGAS scores: int too large to convert to float"
          (add_calls (ragas_calls tid (before_overflow (ragas_items r))) w)).
Proof.
  intros E C. unfold push_ragas_if_available, ragas_items in *.
  destruct (ragas_scores r) as [[| kv d] |].
  - unfold ret. cbn [forallb ragas_calls flat_map]. now rewrite add_calls_nil.
  - now apply push_ragas_quiet.
  - unfold ret. cbn [forallb ragas_calls flat_map]. now rewrite add_calls_nil.
Qed.

(** The calls of a whole run, in order: the trace is opened, the five
    aggregate scores, what the per-case helper sent, what the auxiliary
    helper sent, and the trace is closed. *)
Lemma run_quiet_calls r mn mp tcs md w :
  enabled (self w) = true -> client (self w) = true ->
  let tid := new_trace_id L (calls w) in
  let name := ("fraud_detection_evaluation_" ++ mn)%string in
  let w' := snd (trace_evaluation_run L r mn mp tcs md w) in
  fst (trace_evaluation_run L r mn mp tcs md w) = Ret (Some tid) /\
  exists cs_case cs_ragas,
    new_calls w w' =
      (CreateTraceId :: StartAsCurrentSpan name
         :: UpdateCurrentTrace name (trace_metadata r mn mp tcs md)
         :: overall_scores tid r mn)
      ++ cs_case ++ cs_ragas ++ [SpanUpdate (run_output r tcs); SpanExit; Flush]
    /\ forallb is_case_call cs_case = true
    /\ forallb is_ragas_call cs_ragas = true
    /\ cs_case = case_calls tid 0 (through_unreadable (combine (detailed_results r) tcs))
    /\ cs_ragas = ragas_calls tid (before_overflow (ragas_items r)).
Proof.
  intros E C tid name w'. subst w'.
  rewrite run_quiet by assumption. fold tid. fold name. cbn [fst snd].
  split; [reflexivity |].
  set (pre := CreateTraceId :: StartAsCurrentSpan name
                :: UpdateCurrentTrace name (trace_metadata r mn mp tcs md)
                :: overall_scores tid r mn).
  set (w3 := add_calls pre w).
  assert (E3 : enabled (self w3) = true) by exact E.
  assert (C3 : client (self w3) = true) by exact C.
  destruct (appends_push_cases L tid r tcs w3) as (cs & ls & E4 & F4).
  set (w4 := snd (_push_case_scores L tid r tcs w3)) in *.
  assert (E4' : enabled (self w4) = true) by (rewrite E4; exact E).
  assert (C4' : client (self w4) = true) by (rewrite E4; exact C).
  destruct (appends_push_ragas_if L tid r w4) as (cs' & ls' & E5 & F5).
  set (w5 := snd (push_ragas_if_available L tid r w4)) in *.
  exists cs, cs'. repeat split; try assumption.
  - apply new_calls_app. cbn [calls add_log add_calls].
    rewrite E5. cbn [calls]. rewrite E4. cbn [calls]. unfold w3. cbn [calls add_calls].
    now rewrite <- !app_assoc.
  - unfold w4 in E4. rewrite push_cases_quiet_any in E4 by assumption.
    cbn [snd] in E4. apply (f_equal calls) in E4.
    destruct (first_judge_error (combine (detailed_results r) tcs));
      cbn [calls add_calls add_log] in E4; apply app_inv_head in E4; now symmetry.
  - unfold w5 in E5. rewrite push_ragas_if_quiet in E5 by assumption.
    cbn [snd] in E5. apply (f_equal calls) in E5.
    destruct (forallb score_ok (ragas_items r)) eqn:OK;
      cbn [calls add_calls add_log] in E5; apply app_inv_head in E5.
    + now rewrite before_overflow_all.
    + now symmetry.
Qed.

End QuietRun.

(* ===================================================================== *)
(** * Dictionaries *)
(* ===================================================================== *)




(* ===================================================================== *)
(** * The specification's claims *)
(* ===================================================================== *)

(** C2.  A reporter whose [enabled] is false does nothing: the full-run
    operation, the single-case operation and [close] each return nothing,
    make no call on the client -- in particular none that opens a trace or
    emits a score -- and leave the world as it was.  A reporter constructed
    with [enabled=False] is in that state, and its construction made no
    call either. *)
Theorem disabled_reporter_is_inert
    (L : Langfuse) (w : World)
    (r : EvaluationResult) (mn mp : string) (tcs : list TestCase) (md : option dict)
    (tc : TestCase) (p : dict)
    (env : list (string * string)) (pk sk h : option string) :
  enabled (self w) = false ->
  let run := trace_evaluation_run L r mn mp tcs md w in
  let single := trace_single_case_evaluation L tc p mn md w in
  let closed := close L w in
  (fst run = Ret None /\ fst single = Ret None /\ fst closed = Ret tt)
  /\ (filter is_emission (new_calls w (snd run)) = []
      /\ filter is_emission (new_calls w (snd single)) = []
      /\ filter is_emission (new_calls w (snd closed)) = [])
  /\ (snd run = w /\ snd single = w /\ snd closed = w)
  /\ (enabled (self (snd (construct L env pk sk h (Some false)))) = false
      /\ calls (snd (construct L env pk sk h (Some false))) = []).
Proof.
  intros D run single closed.
  assert (Er : run = (Ret None, w)).
  { unfold run, trace_evaluation_run, bind, get_self. now rewrite D. }
  assert (Es : single = (Ret None, w)).
  { unfold single, trace_single_case_evaluation, bind, get_self. now rewrite D. }
  assert (Ec : closed = (Ret tt, w)).
  { unfold closed, close, bind, get_self. now rewrite D. }
  rewrite Er, Es, Ec. cbn [fst snd]. rewrite new_calls_same.
  repeat split.
Qed.

Lemma disabled_reporter_is_inert_witness :
  enabled (self (Sample.world Sample.off)) = false
  /\ trace_evaluation_run Sample.quiet
       (Sample.result_of Sample.three_details (Some Sample.mixed_ragas))
       "gpt" "openai" Sample.five_cases None (Sample.world Sample.off)
     = (Ret None, Sample.world Sample.off).
Proof.
  split; [reflexivity |].
  pose proof (disabled_reporter_is_inert Sample.quiet (Sample.world Sample.off)
                (Sample.result_of Sample.three_details (Some Sample.mixed_ragas))
                "gpt" "openai" Sample.five_cases None Sample.case_a [] [] None None None
                eq_refl) as (H1 & _ & H3 & _).
  apply injective_projections; [apply H1 | apply H3].
Defined.

(** Every operation, public or helper, leaves the instance as it found it,
    and a disabled instance leaves the whole world as it found it. *)
Lemma perform_keeps_self (L : Langfuse) (op : Operation) (w : World) :
  self (perform L op w) = self w.
Proof.
  destruct op; simpl.
  - apply (helper_keeps_self any_call), appends_run.
  - apply (helper_keeps_self any_call), appends_single.
  - apply (helper_keeps_self any_call), appends_close.
  - apply (helper_keeps_self is_score), appends_push_overall.
  - apply (helper_keeps_self is_case_call), appends_push_cases.
  - apply (helper_keeps_self is_ragas_call), appends_push_ragas.
Qed.

Lemma perform_disabled (L : Langfuse) (op : Operation) (w : World) :
  enabled (self w) = false -> perform L op w = w.
Proof.
  intros D. destruct op; simpl.
  - unfold trace_evaluation_run, bind, get_self. now rewrite D.
  - unfold trace_single_case_evaluation, bind, get_self. now rewrite D.
  - unfold close, bind, get_self. now rewrite D.
  - unfold _push_overall_scores, bind, get_self. now rewrite D.
  - unfold _push_case_scores, bind, get_self. now rewrite D.
  - unfold _push_ragas_scores, bind, get_self. now rewrite D.
Qed.

(** C9.  Whatever operations follow the construction, in whatever order,
    the instance keeps the [enabled] it had: none of them writes it.  And
    while it is false nothing reaches the library: after any sequence of
    operations on a disabled instance the calls made are those made
    before. *)
Theorem enabled_is_fixed_after_construction
    (L : Langfuse) (ops : list Operation) (w : World) :
  enabled (self (perform_all L ops w)) = enabled (self w)
  /\ (enabled (self w) = false -> calls (perform_all L ops w) = calls w).
Proof.
  revert w. induction ops as [| op ops IH]; intros w; simpl.
  - auto.
  - destruct (IH (perform L op w)) as [IH1 IH2]. split.
    + now rewrite IH1, perform_keeps_self.
    + intros D. rewrite perform_disabled by assumption.
      rewrite perform_disabled in IH2 by assumption. auto.
Qed.

Lemma enabled_is_fixed_after_construction_witness :
  enabled (self (Sample.world Sample.off)) = false
  /\ calls (perform_all Sample.quiet
              [OpRun (Sample.result_of Sample.three_details None) "gpt" "openai"
                     Sample.five_cases None;
               OpPushRagas "t" Sample.mixed_ragas;
               OpSingle Sample.case_a [] "gpt" None;
               OpClose]
              (Sample.world Sample.off)) = [].
Proof.
  split; [reflexivity |].
  apply (proj2 (enabled_is_fixed_after_construction Sample.quiet _ (Sample.world Sample.off))).
  reflexivity.
Defined.

(** C4.  In a full run against a library that does not raise, the score
    named [fraud_detection_overall_quality] is emitted with the value
    [(accuracy + precision + recall + f1_score) / 4], computed in binary64
    arithmetic; it is the only score of that name; and for the metrics 0.8,
    0.75, 0.9 and 0.82 the value is 0.8175. *)
Theorem overall_quality_is_unweighted_mean
    (L : Langfuse) (w : World)
    (r : EvaluationResult) (mn mp : string) (tcs : list TestCase) (md : option dict) :
  never_raises L -> enabled (self w) = true -> client (self w) = true ->
  let tid := new_trace_id L (calls w) in
  let w' := snd (trace_evaluation_run L r mn mp tcs md w) in
  let mean := ((accuracy r + precision r + recall r + f1_score r) / 4)%float in
  In (CreateScore tid "fraud_detection_overall_quality" mean
        ("Overall quality score for " ++ mn)%string)
     (new_calls w w')
  /\ (forall t v c,
        In (CreateScore t "fraud_detection_overall_quality" v c) (new_calls w w') ->
        v = mean)
  /\ (accuracy r = 0.8%float -> precision r = 0.75%float ->
      recall r = 0.9%float -> f1_score r = 0.82%float ->
      mean = 0.8175%float).
Proof.
  intros Q E C tid w' mean.
  destruct (run_quiet_calls L Q r mn mp tcs md w E C)
    as (_ & cs_case & cs_ragas & EC & Fc & Fr & _).
  fold w' in EC. fold tid in EC. rewrite EC. repeat split.
  - apply in_or_app. left. unfold overall_scores, overall_quality. simpl. auto 10.
  - intros t v c H.
    apply in_app_or in H as [H | H].
    { unfold overall_scores, overall_quality in H. simpl in H.
      repeat (destruct H as [H | H]; [try discriminate H |]); try contradiction.
      now inversion H. }
    apply in_app_or in H as [H | H].
    { rewrite forallb_forall in Fc. apply Fc in H. discriminate H. }
    apply in_app_or in H as [H | H].
    { rewrite forallb_forall in Fr. apply Fr in H. discriminate H. }
    simpl in H. repeat (destruct H as [H | H]; [discriminate H |]). contradiction.
  - intros Ha Hp Hr Hf. unfold mean. rewrite Ha, Hp, Hr, Hf. reflexivity.
Qed.

Lemma overall_quality_is_unweighted_mean_witness :
  never_raises Sample.quiet
  /\ In (CreateScore "trace-0" "fraud_detection_overall_quality" 0.8175%float
           "Overall quality score for gpt")
        (new_calls (Sample.world Sample.live)
           (snd (trace_evaluation_run Sample.quiet
                   (Sample.result_of Sample.three_details (Some Sample.mixed_ragas))
                   "gpt" "openai" Sample.five_cases None (Sample.world Sample.live)))).
Proof.
  assert (Q : never_raises Sample.quiet) by (intros h c; reflexivity).
  split; [exact Q |].
  exact (proj1 (overall_quality_is_unweighted_mean Sample.quiet (Sample.world Sample.live)
                  (Sample.result_of Sample.three_details (Some Sample.mixed_ragas))
                  "gpt" "openai" Sample.five_cases None Q eq_refl eq_refl)).
Defined.



(* ===================================================================== *)
(** * Per-case and auxiliary scores *)
(* ===================================================================== *)

Lemma filter_judge_calls tid i result tc :
  filter is_case_accuracy (judge_calls tid i result tc) = [].
Proof.
  unfold judge_calls.
  destruct (dict_get "llm_judgment" result) as [[| | | | | | j] |]; try reflexivity.
  destruct (truediv_10 _); [| reflexivity].
  cbn [filter]. now rewrite is_case_accuracy_llm_judge.
Qed.

Lemma filter_case_calls tid pairs : forall i,
  filter is_case_accuracy (case_calls tid i pairs) = accuracy_calls tid i pairs.
Proof.
  induction pairs as [| [result tc] rest IH]; intros i; [reflexivity |].
  cbn [case_calls accuracy_calls filter].
  now rewrite is_case_accuracy_accuracy, filter_app, filter_judge_calls, IH.
Qed.

Lemma length_accuracy_calls tid pairs : forall i,
  List.length (accuracy_calls tid i pairs) = List.length pairs.
Proof.
  induction pairs as [| [result tc] rest IH]; intros i; simpl; [reflexivity |].
  now rewrite IH.
Qed.

Lemma nth_error_accuracy_calls tid pairs : forall i k result tc,
  nth_error pairs k = Some (result, tc) ->
  nth_error (accuracy_calls tid i pairs) k = Some (case_accuracy_score tid (i + k) result tc).
Proof.
  induction pairs as [| [result0 tc0] rest IH]; intros i k result tc H.
  - destruct k; discriminate.
  - destruct k as [| k]; simpl in *.
    + inversion H. now rewrite Nat.add_0_r.
    + rewrite (IH (S i) k result tc H). now rewrite Nat.add_succ_r.
Qed.

Lemma nth_error_combine {A B} (l : list A) (l' : list B) : forall k a b,
  nth_error l k = Some a -> nth_error l' k = Some b ->
  nth_error (combine l l') k = Some (a, b).
Proof.
  revert l'. induction l as [| x l IH]; intros l' k a b Ha Hb.
  - destruct k; discriminate.
  - destruct l' as [| y l']; [destruct k; discriminate |].
    destruct k as [| k]; simpl in *.
    + congruence.
    + now apply IH.
Qed.

Lemma in_case_calls tid c pairs : forall i k result tc,
  nth_error pairs k = Some (result, tc) ->
  In c (judge_calls tid (i + k) result tc) ->
  In c (case_calls tid i pairs).
Proof.
  induction pairs as [| [result0 tc0] rest IH]; intros i k result tc H Hc.
  - destruct k; discriminate.
  - cbn [case_calls]. right. apply in_or_app.
    destruct k as [| k]; simpl in H.
    + inversion H; subst. rewrite Nat.add_0_r in Hc. now left.
    + right. apply (IH (S i) k result tc H). now rewrite Nat.add_succ_r in Hc.
Qed.

Lemma ragas_call_not_case c : is_ragas_call c = true -> is_case_call c = false.
Proof. destruct c; simpl; try reflexivity. apply ragas_name_not_case. Qed.

Lemma ragas_calls_are_ragas tid items : forallb is_ragas_call (ragas_calls tid items) = true.
Proof.
  induction items as [| [k v] rest IH]; [reflexivity |].
  unfold ragas_calls. cbn [flat_map]. rewrite forallb_app. fold (ragas_calls tid rest).
  rewrite IH, andb_true_r. unfold ragas_item_calls. cbn [fst snd].
  destruct (isinstance_int_float v); [| reflexivity].
  destruct (py_float v); reflexivity.
Qed.

Lemma length_ragas_calls tid items :
  forallb score_ok items = true ->
  List.length (ragas_calls tid items) = List.length (filter is_numeric_item items).
Proof.
  induction items as [| [k v] rest IH]; [reflexivity |].
  cbn [forallb]. intros H. apply andb_true_iff in H as [H1 H2].
  unfold ragas_calls. cbn [flat_map filter]. fold (ragas_calls tid rest).
  rewrite length_app, IH by assumption.
  unfold ragas_item_calls, is_numeric_item. cbn [fst snd].
  destruct (isinstance_int_float v) eqn:N; [| reflexivity].
  pose proof (py_float_score_ok k v N) as F. rewrite H1 in F.
  destruct F as [f ->]. reflexivity.
Qed.

Lemma opening_calls_filtered (f : Call -> bool) n m tid r mn :
  f = is_case_accuracy \/ f = is_case_call \/ f = is_ragas_call ->
  filter f (CreateTraceId :: StartAsCurrentSpan n :: UpdateCurrentTrace n m
              :: overall_scores tid r mn) = [].
Proof. intros [-> | [-> | ->]]; reflexivity. Qed.

Lemma closing_calls_filtered (f : Call -> bool) out :
  f = is_case_accuracy \/ f = is_case_call \/ f = is_ragas_call ->
  filter f [SpanUpdate out; SpanExit; Flush] = [].
Proof. intros [-> | [-> | ->]]; reflexivity. Qed.

Section CaseScores.

Variable L : Langfuse.
Hypothesis quiet : never_raises L.

Variable w : World.
Hypothesis is_enabled : enabled (self w) = true.
Hypothesis has_client : client (self w) = true.

Variables (r : EvaluationResult) (mn mp : string) (tcs : list TestCase) (md : option dict).

Let tid := new_trace_id L (calls w).
Let w' := snd (trace_evaluation_run L r mn mp tcs md w).

Lemma run_case_accuracy_calls :
  filter is_case_accuracy (new_calls w w')
  = accuracy_calls tid 0 (through_unreadable (combine (detailed_results r) tcs)).
Proof.
  destruct (run_quiet_calls L quiet r mn mp tcs md w is_enabled has_client)
    as (_ & cs_case & cs_ragas & EC & Fc & Fr & Hc & Hr).
  fold w' in EC. fold tid in EC, Hc, Hr. rewrite EC, Hc.
  rewrite !filter_app, opening_calls_filtered, closing_calls_filtered by auto.
  rewrite (filter_disjoint _ _ cs_ragas ragas_call_not_case_accuracy Fr).
  rewrite filter_case_calls. cbn [app]. now rewrite app_nil_r.
Qed.

Lemma run_case_calls :
  filter is_case_call (new_calls w w')
  = case_calls tid 0 (through_unreadable (combine (detailed_results r) tcs)).
Proof.
  destruct (run_quiet_calls L quiet r mn mp tcs md w is_enabled has_client)
    as (_ & cs_case & cs_ragas & EC & Fc & Fr & Hc & Hr).
  fold w' in EC. fold tid in EC, Hc, Hr. rewrite EC.
  rewrite !filter_app, opening_calls_filtered, closing_calls_filtered by auto.
  rewrite (filter_disjoint _ _ cs_ragas ragas_call_not_case Fr).
  rewrite (filter_all _ _ Fc), Hc. cbn [app]. now rewrite app_nil_r.
Qed.

Lemma run_ragas_calls :
  filter is_ragas_call (new_calls w w')
  = ragas_calls tid (before_overflow (ragas_items r)).
Proof.
  destruct (run_quiet_calls L quiet r mn mp tcs md w is_enabled has_client)
    as (_ & cs_case & cs_ragas & EC & Fc & Fr & Hc & Hr).
  fold w' in EC. fold tid in EC, Hc, Hr. rewrite EC.
  rewrite !filter_app, opening_calls_filtered, closing_calls_filtered by auto.
  rewrite (filter_disjoint _ _ cs_case case_call_not_ragas Fc).
  rewrite (filter_all _ _ Fr), Hr. cbn [app]. now rewrite app_nil_r.
Qed.

End CaseScores.

Lemma nth_error_combine_inv {A B} (l : list A) (l' : list B) : forall k a b,
  nth_error (combine l l') k = Some (a, b) ->
  nth_error l k = Some a /\ nth_error l' k = Some b.
Proof.
  revert l'. induction l as [| x l IH]; intros l' k a b H.
  - destruct k; discriminate.
  - destruct l' as [| y l']; [destruct k; discriminate |].
    destruct k as [| k]; simpl in *.
    + inversion H. now split.
    + now apply IH.
Qed.

Lemma nth_error_through_unreadable (pairs : list (dict * TestCase)) : forall k x,
  nth_error (through_unreadable pairs) k = Some x -> nth_error pairs k = Some x.
Proof.
  induction pairs as [| [result tc] rest IH]; intros k x H; [destruct k; discriminate |].
  cbn [through_unreadable] in H. destruct (judgment_ok result).
  - destruct k as [| k]; [exact H | exact (IH k x H)].
  - destruct k as [| k]; [exact H | destruct k; discriminate].
Qed.

Lemma length_through_unreadable (pairs : list (dict * TestCase)) :
  List.length (through_unreadable pairs) <= List.length pairs.
Proof.
  induction pairs as [| [result tc] rest IH]; [reflexivity |].
  cbn [through_unreadable]. destruct (judgment_ok result); simpl; lia.
Qed.

(** What [v / 10.0] is when it has a value. *)
Lemma truediv_10_value (raw : pyval) (v : float) :
  truediv_10 raw = Ret v ->
  (exists f, raw = PyFloat f /\ v = (f / 10)%float)
  \/ (exists z f, raw = PyInt z /\ float_of_Z z = Some f /\ v = (f / 10)%float)
  \/ (exists b, raw = PyBool b /\ v = ((if b then 1 else 0) / 10)%float).
Proof.
  destruct raw; cbn [truediv_10]; try discriminate.
  - intros H. inversion H. right. right. exists b. split; [reflexivity |].
    now destruct b.
  - destruct (float_of_Z z) as [f |] eqn:F; [| discriminate].
    intros H. inversion H. right. left. now exists z, f.
  - intros H. inversion H. left. now exists f.
Qed.

Lemma in_case_calls_inv tid c pairs : forall i,
  In c (case_calls tid i pairs) -> is_case_accuracy c = false ->
  exists k result tc j v,
    nth_error pairs k = Some (result, tc)
    /\ dict_get "llm_judgment" result = Some (PyDict j)
    /\ truediv_10 (dict_get_default "overall_quality" (PyInt 0) j) = Ret v
    /\ c = llm_judge_score tid (i + k) v tc.
Proof.
  induction pairs as [| [result tc] rest IH]; intros i H NA; [contradiction |].
  cbn [case_calls] in H. destruct H as [H | H].
  { subst c. rewrite is_case_accuracy_accuracy in NA. discriminate NA. }
  apply in_app_or in H as [H | H].
  - unfold judge_calls in H.
    destruct (dict_get "llm_judgment" result) as [[| | | | | | j] |] eqn:J;
      try contradiction.
    destruct (truediv_10 (dict_get_default "overall_quality" (PyInt 0) j))
      as [v | e] eqn:T; [| contradiction].
    destruct H as [H | []]. subst c.
    exists 0, result, tc, j, v. rewrite Nat.add_0_r. repeat split; assumption.
  - destruct (IH (S i) H NA) as (k & result' & tc' & j & v & Hn & Hj & Ht & Hc).
    exists (S k), result', tc', j, v. rewrite Nat.add_succ_r.
    repeat split; assumption.
Qed.

(** Claim C5 as written fails where the judgment of a record cannot be
    read: of three records paired with five test cases only the first gets
    its correctness score, because the division of its [overall_quality], a
    string, raises [TypeError], the helper catches it, and the loop is
    over. *)
Lemma unreadable_judgment_stops_case_scores :
  let w := Sample.world Sample.live in
  let r := Sample.result_of Sample.unreadable_details None in
  let w' := snd (trace_evaluation_run Sample.quiet r "gpt" "openai"
                   Sample.five_cases None w) in
  List.length (detailed_results r) = 3 /\ List.length Sample.five_cases = 5
  /\ filter is_case_accuracy (new_calls w w')
     = [CreateScore "trace-0" "case_1_accuracy" 1 "Case 1: Wire fraud scheme"]
  /\ List.length (filter is_case_accuracy (new_calls w w'))
     <> Nat.min (List.length (detailed_results r)) (List.length Sample.five_cases)
  /\ In (ERROR, "Failed to push case scores: unsupported operand type(s) for /: 'str' and 'float'"%string)
        (logs w').
Proof.
  vm_compute. repeat split; try discriminate. now left.
Qed.

(** C5, amended.  In a full run against a library that does not raise, the
    correctness scores [case_<n>_accuracy] are paired by position with the
    detail records and the test cases, over the pairs the loop reaches:
    those up to and including the first record whose [llm_judgment] cannot
    be read.  The [i]-th score (counted from 0) is named
    [case_<i+1>_accuracy], has the value 1.0 when the [overall_correct] of
    the [i]-th record is truthy and 0.0 otherwise, and the comment
    [Case <i+1>: <title of the i-th test case>].  When every judgment of the
    paired records reads well there are exactly [min m n] of them and the
    helper logs nothing; otherwise the helper logs the error and there are
    at most [min m n].  A difference in length raises nothing either way:
    the run returns its trace id. *)
Theorem per_case_scores_stop_at_shorter_sequence
    (L : Langfuse) (w : World)
    (r : EvaluationResult) (mn mp : string) (tcs : list TestCase) (md : option dict) :
  never_raises L -> enabled (self w) = true -> client (self w) = true ->
  let tid := new_trace_id L (calls w) in
  let w' := snd (trace_evaluation_run L r mn mp tcs md w) in
  let pairs := combine (detailed_results r) tcs in
  let reached := through_unreadable pairs in
  let emitted := filter is_case_accuracy (new_calls w w') in
  let score i result tc :=
    CreateScore tid
      ("case_" ++ str_of_nat (i + 1) ++ "_accuracy")%string
      (if truthy (dict_get_default "overall_correct" (PyBool false) result)
       then 1%float else 0%float)
      ("Case " ++ str_of_nat (i + 1) ++ ": " ++ title tc)%string in
  fst (trace_evaluation_run L r mn mp tcs md w) = Ret (Some tid)
  /\ List.length emitted = List.length reached
  /\ List.length emitted <= Nat.min (List.length (detailed_results r)) (List.length tcs)
  /\ (forall i result tc,
        nth_error reached i = Some (result, tc) ->
        nth_error (detailed_results r) i = Some result
        /\ nth_error tcs i = Some tc
        /\ nth_error emitted i = Some (score i result tc))
  /\ (forallb judgment_ok (map fst pairs) = true ->
      List.length emitted = Nat.min (List.length (detailed_results r)) (List.length tcs)
      /\ (forall i result tc,
            nth_error (detailed_results r) i = Some result ->
            nth_error tcs i = Some tc ->
            nth_error emitted i = Some (score i result tc))
      /\ (forall t,
            _push_case_scores L t r tcs w
            = (Ret tt, add_calls (case_calls t 0 pairs) w)))
  /\ (forall e, first_judge_error pairs = Some e ->
        forall t,
          _push_case_scores L t r tcs w
          = (Ret tt,
             add_log ERROR ("Failed to push case scores: " ++ exn_text e)%string
               (add_calls (case_calls t 0 reached) w))).
Proof.
  intros Q E C tid w' pairs reached emitted score.
  assert (EM : emitted = accuracy_calls tid 0 reached)
    by (apply run_case_accuracy_calls; assumption).
  assert (NTH : forall i result tc,
             nth_error reached i = Some (result, tc) ->
             nth_error emitted i = Some (score i result tc)).
  { intros i result tc H. rewrite EM.
    exact (nth_error_accuracy_calls tid reached 0 i result tc H). }
  split; [apply (run_quiet_calls L Q r mn mp tcs md w E C) |].
  split; [now rewrite EM, length_accuracy_calls |].
  split.
  { rewrite EM, length_accuracy_calls, <- (length_combine (detailed_results r) tcs).
    apply length_through_unreadable. }
  split.
  { intros i result tc H.
    pose proof (nth_error_through_unreadable pairs i _ H) as Hp.
    destruct (nth_error_combine_inv _ _ _ _ _ Hp) as [Hr Ht].
    split; [exact Hr | split; [exact Ht | exact (NTH i result tc H)]]. }
  split.
  { intros OK.
    assert (RP : reached = pairs) by (apply through_unreadable_all; exact OK).
    split; [now rewrite EM, length_accuracy_calls, RP; apply length_combine |].
    split.
    - intros i result tc Hr Ht. apply NTH. rewrite RP.
      now apply nth_error_combine.
    - intros t. rewrite push_cases_quiet_any by assumption. fold pairs.
      rewrite first_judge_error_ok in OK.
      destruct (first_judge_error pairs); [discriminate OK |].
      fold reached. now rewrite RP. }
  intros e F t. rewrite push_cases_quiet_any by assumption. fold pairs.
  now rewrite F.
Qed.

Lemma per_case_scores_stop_at_shorter_sequence_witness :
  never_raises Sample.quiet
  /\ List.length Sample.three_details = 3 /\ List.length Sample.five_cases = 5
  /\ List.length
       (filter is_case_accuracy
          (new_calls (Sample.world Sample.live)
             (snd (trace_evaluation_run Sample.quiet
                     (Sample.result_of Sample.three_details None)
                     "gpt" "openai" Sample.five_cases None
                     (Sample.world Sample.live))))) = 3
  /\ nth_error
       (filter is_case_accuracy
          (new_calls (Sample.world Sample.live)
             (snd (trace_evaluation_run Sample.quiet
                     (Sample.result_of Sample.three_details None)
                     "gpt" "openai" Sample.five_cases None
                     (Sample.world Sample.live))))) 1
     = Some (CreateScore "trace-0" "case_2_accuracy" 0 "Case 2: Tax evasion plea").
Proof.
  assert (Q : never_raises Sample.quiet) by (intros h c; reflexivity).
  split; [exact Q |]. split; [reflexivity |]. split; [reflexivity |].
  pose proof (per_case_scores_stop_at_shorter_sequence Sample.quiet
                (Sample.world Sample.live) (Sample.result_of Sample.three_details None)
                "gpt" "openai" Sample.five_cases None Q eq_refl eq_refl)
    as (_ & _ & _ & _ & Hok & _).
  destruct (Hok eq_refl) as (Hlen & Hnth & _).
  split; [exact Hlen |].
  exact (Hnth 1 _ Sample.case_b eq_refl eq_refl).
Defined.

(** Claim C6 as written fails for a record that the loop does not reach:
    the second record holds an [llm_judgment] mapping with the raw value 7
    and is paired with a test case, but the judgment of the first record
    cannot be read, so the loop is over before it and no judge score is
    emitted -- neither 0.7 for the second record nor any for the first. *)
Lemma judge_score_missing_after_unreadable_record :
  let w := Sample.world Sample.live in
  let r := Sample.result_of Sample.unreadable_details None in
  let w' := snd (trace_evaluation_run Sample.quiet r "gpt" "openai"
                   Sample.five_cases None w) in
  nth_error (detailed_results r) 1
  = Some [("overall_correct", PyBool false);
          ("llm_judgment", PyDict [("overall_quality", PyInt 7)])]
  /\ nth_error Sample.five_cases 1 = Some Sample.case_b
  /\ filter is_case_call (new_calls w w')
     = [CreateScore "trace-0" "case_1_accuracy" 1 "Case 1: Wire fraud scheme"]
  /\ ~ In (CreateScore "trace-0" "case_2_llm_judge_quality" 0.7
             "LLM judge quality for case 2: Tax evasion plea")
          (new_calls w w').
Proof.
  vm_compute. repeat split.
  intros H. repeat (destruct H as [H | H]; [discriminate H |]). exact H.
Qed.

(** C6, amended.  In a full run against a library that does not raise, a
    detail record that is paired with a test case, that the loop reaches (no
    earlier paired record has a judgment that cannot be read) and that holds
    an [llm_judgment] mapping gets the score [case_<i+1>_llm_judge_quality]
    with the comment [LLM judge quality for case <i+1>: <title>] and the
    value of the raw [overall_quality] (0 when the mapping lacks it) divided
    by 10.0 in binary64 arithmetic, whatever its size, when that raw value
    is a float, a bool or an int that has a float: 7 gives 0.7, 15 gives
    1.5.  No other judge score is emitted: every per-case score of the run
    that is not a correctness score is the judge score of such a record,
    with that value. *)
Theorem llm_judge_score_is_raw_over_ten
    (L : Langfuse) (w : World)
    (r : EvaluationResult) (mn mp : string) (tcs : list TestCase) (md : option dict) :
  never_raises L -> enabled (self w) = true -> client (self w) = true ->
  let tid := new_trace_id L (calls w) in
  let w' := snd (trace_evaluation_run L r mn mp tcs md w) in
  let pairs := combine (detailed_results r) tcs in
  let reached := through_unreadable pairs in
  let score i v tc :=
    CreateScore tid
      ("case_" ++ str_of_nat (i + 1) ++ "_llm_judge_quality")%string
      v
      ("LLM judge quality for case " ++ str_of_nat (i + 1) ++ ": " ++ title tc)%string in
  (forall i result tc j,
     nth_error reached i = Some (result, tc) ->
     dict_get "llm_judgment" result = Some (PyDict j) ->
     let raw := dict_get_default "overall_quality" (PyInt 0) j in
     (forall f, raw = PyFloat f -> In (score i (f / 10)%float tc) (new_calls w w'))
     /\ (forall z f, raw = PyInt z -> float_of_Z z = Some f ->
           In (score i (f / 10)%float tc) (new_calls w w'))
     /\ (forall b, raw = PyBool b ->
           In (score i ((if b then 1 else 0) / 10)%float tc) (new_calls w w'))
     /\ (raw = PyInt 7 -> In (score i 0.7%float tc) (new_calls w w'))
     /\ (raw = PyInt 15 -> In (score i 1.5%float tc) (new_calls w w')))
  /\ (forall c, In c (new_calls w w') ->
        is_case_call c = true -> is_case_accuracy c = false ->
        exists i result tc j v,
          nth_error reached i = Some (result, tc)
          /\ nth_error (detailed_results r) i = Some result
          /\ nth_error tcs i = Some tc
          /\ dict_get "llm_judgment" result = Some (PyDict j)
          /\ (let raw := dict_get_default "overall_quality" (PyInt 0) j in
              (exists f, raw = PyFloat f /\ v = (f / 10)%float)
              \/ (exists z f, raw = PyInt z /\ float_of_Z z = Some f /\ v = (f / 10)%float)
              \/ (exists b, raw = PyBool b /\ v = ((if b then 1 else 0) / 10)%float))
          /\ c = score i v tc)
  /\ (forallb judgment_ok (map fst pairs) = true -> reached = pairs).
Proof.
  intros Q E C tid w' pairs reached score.
  assert (EC : filter is_case_call (new_calls w w') = case_calls tid 0 reached)
    by (apply run_case_calls; assumption).
  split; [| split].
  - intros i result tc j Hn Hj raw.
    assert (G : forall v, truediv_10 raw = Ret v -> In (score i v tc) (new_calls w w')).
    { intros v Hv.
      assert (I : In (llm_judge_score tid i v tc) (filter is_case_call (new_calls w w'))).
      { rewrite EC. apply (in_case_calls tid _ _ 0 i result tc Hn).
        unfold judge_calls. rewrite Hj. fold raw. rewrite Hv. now left. }
      apply filter_In in I. exact (proj1 I). }
    split; [| split; [| split; [| split]]].
    + intros f Hf. apply G. now rewrite Hf.
    + intros z f Hz Hf. apply G. rewrite Hz. cbn [truediv_10]. now rewrite Hf.
    + intros b Hb. apply G. rewrite Hb. now destruct b.
    + intros H7. apply G. rewrite H7. reflexivity.
    + intros H15. apply G. rewrite H15. reflexivity.
  - intros c I CC NA.
    assert (I' : In c (case_calls tid 0 reached))
      by (rewrite <- EC; apply filter_In; split; assumption).
    destruct (in_case_calls_inv tid c reached 0 I' NA)
      as (k & result & tc & j & v & Hn & Hj & Ht & Hc).
    exists k, result, tc, j, v.
    pose proof (nth_error_through_unreadable pairs k _ Hn) as Hp.
    destruct (nth_error_combine_inv _ _ _ _ _ Hp) as [Hr Htc].
    split; [exact Hn |]. split; [exact Hr |]. split; [exact Htc |].
    split; [exact Hj |]. split; [exact (truediv_10_value _ _ Ht) |].
    exact Hc.
  - apply through_unreadable_all.
Qed.

Lemma llm_judge_score_is_raw_over_ten_witness :
  never_raises Sample.quiet
  /\ nth_error Sample.three_details 1
     = Some [("overall_correct", PyBool false);
             ("llm_judgment", PyDict [("overall_quality", PyInt 7)])]
  /\ In (CreateScore "trace-0" "case_2_llm_judge_quality" 0.7
           "LLM judge quality for case 2: Tax evasion plea")
        (new_calls (Sample.world Sample.live)
           (snd (trace_evaluation_run Sample.quiet
                   (Sample.result_of Sample.three_details None)
                   "gpt" "openai" Sample.five_cases None
                   (Sample.world Sample.live))))
  /\ In (CreateScore "trace-0" "case_3_llm_judge_quality" 1.5
           "LLM judge quality for case 3: Wire fraud scheme")
        (new_calls (Sample.world Sample.live)
           (snd (trace_evaluation_run Sample.quiet
                   (Sample.result_of Sample.three_details None)
                   "gpt" "openai" Sample.five_cases None
                   (Sample.world Sample.live)))).
Proof.
  assert (Q : never_raises Sample.quiet) by (intros h c; reflexivity).
  split; [exact Q |]. split; [reflexivity |].
  pose proof (proj1 (llm_judge_score_is_raw_over_ten Sample.quiet
                       (Sample.world Sample.live)
                       (Sample.result_of Sample.three_details None)
                       "gpt" "openai" Sample.five_cases None Q eq_refl eq_refl))
    as H.
  split.
  - exact (proj1 (proj2 (proj2 (proj2
             (H 1 _ Sample.case_b [("overall_quality", PyInt 7)] eq_refl eq_refl))))
             eq_refl).
  - exact (proj2 (proj2 (proj2 (proj2
             (H 2 _ Sample.case_a [("overall_quality", PyInt 15)] eq_refl eq_refl))))
             eq_refl).
Defined.

Lemma in_ragas_calls tid k v f items :
  In (k, v) items -> isinstance_int_float v = true -> py_float v = Ret f ->
  In (ragas_score tid k f) (ragas_calls tid items).
Proof.
  intros I N F. unfold ragas_calls. apply in_flat_map. exists (k, v).
  split; [assumption |].
  unfold ragas_item_calls. cbn [fst snd]. rewrite N, F. now left.
Qed.

Lemma in_ragas_calls_inv tid c items :
  In c (ragas_calls tid items) ->
  exists k v f,
    In (k, v) items
    /\ (v = PyFloat f
        \/ (exists z, v = PyInt z /\ float_of_Z z = Some f)
        \/ (exists b, v = PyBool b /\ f = if b then 1%float else 0%float))
    /\ c = ragas_score tid k f.
Proof.
  unfold ragas_calls. intros H. apply in_flat_map in H as ([k v] & I & H).
  unfold ragas_item_calls in H. cbn [fst snd] in H.
  destruct v; cbn [isinstance_int_float py_float] in H; try contradiction.
  - destruct H as [H | []]. exists k, (PyBool b), (float_of_bool b).
    split; [exact I |]. split; [| now symmetry].
    right. right. exists b. split; [reflexivity | now destruct b].
  - destruct (float_of_Z z) as [f |] eqn:F; [| contradiction].
    destruct H as [H | []]. exists k, (PyInt z), f.
    split; [exact I |]. split; [| now symmetry].
    right. left. now exists z.
  - destruct H as [H | []]. exists k, (PyFloat f), f.
    split; [exact I |]. split; [now left | now symmetry].
Qed.

(** Claim C8 as written fails where an int value is too large for a float:
    of two numeric values none is emitted, because [float(score)] raises on
    the first, the helper catches it, and the loop is over. *)
Lemma huge_int_stops_auxiliary_scores :
  let w := Sample.world Sample.live in
  let r := Sample.result_of [] (Some Sample.huge_ragas) in
  let w' := snd (trace_evaluation_run Sample.quiet r "gpt" "openai" [] None w) in
  List.length (filter is_numeric_item Sample.huge_ragas) = 2
  /\ List.length (filter is_ragas_call (new_calls w w')) = 0
  /\ List.length (filter is_ragas_call (new_calls w w'))
     <> List.length (filter is_numeric_item Sample.huge_ragas)
  /\ In (ERROR, "Failed to push RAGAS scores: int too large to convert to float"%string)
        (logs w').
Proof.
  vm_compute. repeat split; try discriminate. now left.
Qed.

(** C8, amended.  In a full run against a library that does not raise, the
    auxiliary scores emitted are those of the items whose value is an int, a
    bool or a float, in order, up to the first int too large for a float,
    where the emission ends; an item with any other value is passed over.
    The score of the item [name: value] is named [ragas_<name>], has the
    comment [RAGAS <name> score] and the value [float(value)]: the float
    itself, the float of the int, 1.0 or 0.0 for a bool; and every auxiliary
    score emitted is the score of such an item.  When every int has a
    float, that is one score per numeric item and the helper logs nothing;
    otherwise the helper logs the [OverflowError] and returns. *)
Theorem auxiliary_scores_one_per_number
    (L : Langfuse) (w : World)
    (r : EvaluationResult) (mn mp : string) (tcs : list TestCase) (md : option dict) :
  never_raises L -> enabled (self w) = true -> client (self w) = true ->
  let tid := new_trace_id L (calls w) in
  let w' := snd (trace_evaluation_run L r mn mp tcs md w) in
  let sent := filter is_ragas_call (new_calls w w') in
  let reached := before_overflow (ragas_items r) in
  let score k f :=
    CreateScore tid ("ragas_" ++ k)%string f ("RAGAS " ++ k ++ " score")%string in
  sent = ragas_calls tid reached
  /\ (forall k f, In (k, PyFloat f) reached -> In (score k f) sent)
  /\ (forall k z f, In (k, PyInt z) reached -> float_of_Z z = Some f -> In (score k f) sent)
  /\ (forall k b, In (k, PyBool b) reached ->
        In (score k (if b then 1%float else 0%float)) sent)
  /\ (forall c, In c sent ->
        exists k v f,
          In (k, v) reached
          /\ (v = PyFloat f
              \/ (exists z, v = PyInt z /\ float_of_Z z = Some f)
              \/ (exists b, v = PyBool b /\ f = if b then 1%float else 0%float))
          /\ c = score k f)
  /\ (forallb score_ok (ragas_items r) = true ->
      reached = ragas_items r
      /\ List.length sent = List.length (filter is_numeric_item (ragas_items r))
      /\ (forall k v, In (k, v) (ragas_items r) -> isinstance_int_float v = false ->
            ragas_item_calls tid (k, v) = [])
      /\ push_ragas_if_available L tid r w
         = (Ret tt, add_calls (ragas_calls tid (ragas_items r)) w))
  /\ (forallb score_ok (ragas_items r) = false ->
      push_ragas_if_available L tid r w
      = (Ret tt,
         add_log ERROR "Failed to push RAGAS scores: int too large to convert to float"
           (add_calls (ragas_calls tid reached) w))).
Proof.
  intros Q E C tid w' sent reached score.
  assert (ES : sent = ragas_calls tid reached)
    by (apply run_ragas_calls; assumption).
  split; [exact ES |].
  split.
  { intros k f I. rewrite ES.
    exact (in_ragas_calls tid k (PyFloat f) f reached I eq_refl eq_refl). }
  split.
  { intros k z f I F. rewrite ES.
    apply (in_ragas_calls tid k (PyInt z) f reached I eq_refl).
    cbn [py_float]. now rewrite F. }
  split.
  { intros k b I. rewrite ES.
    apply (in_ragas_calls tid k (PyBool b) _ reached I eq_refl).
    now destruct b. }
  split.
  { intros c I. rewrite ES in I. exact (in_ragas_calls_inv tid c reached I). }
  split; [| intros KO; rewrite push_ragas_if_quiet by assumption; now rewrite KO].
  intros OK.
  assert (RI : reached = ragas_items r) by (apply before_overflow_all; exact OK).
  split; [exact RI |]. split; [| split].
  - rewrite ES, RI. now apply length_ragas_calls.
  - intros k v I N. unfold ragas_item_calls. cbn [snd]. now rewrite N.
  - rewrite push_ragas_if_quiet by assumption. now rewrite OK.
Qed.

Lemma auxiliary_scores_one_per_number_witness :
  never_raises Sample.quiet
  /\ forallb score_ok Sample.mixed_ragas = true
  /\ List.length
       (filter is_ragas_call
          (new_calls (Sample.world Sample.live)
             (snd (trace_evaluation_run Sample.quiet
                     (Sample.result_of [] (Some Sample.mixed_ragas))
                     "gpt" "openai" [] None (Sample.world Sample.live))))) = 1
  /\ In (CreateScore "trace-0" "ragas_faithfulness" 0.5 "RAGAS faithfulness score")
        (filter is_ragas_call
           (new_calls (Sample.world Sample.live)
              (snd (trace_evaluation_run Sample.quiet
                      (Sample.result_of [] (Some Sample.mixed_ragas))
                      "gpt" "openai" [] None (Sample.world Sample.live))))).
Proof.
  assert (Q : never_raises Sample.quiet) by (intros h c; reflexivity).
  split; [exact Q |]. split; [reflexivity |].
  pose proof (auxiliary_scores_one_per_number Sample.quiet
                (Sample.world Sample.live) (Sample.result_of [] (Some Sample.mixed_ragas))
                "gpt" "openai" [] None Q eq_refl eq_refl)
    as (_ & Hf & _ & _ & _ & Hok & _).
  split.
  - exact (proj1 (proj2 (Hok eq_refl))).
  - apply (Hf "faithfulness"%string 0.5%float). now left.
Defined.

(* ===================================================================== *)
(** * The single-case operation *)
(* ===================================================================== *)

(** The calls of [trace_single_case_evaluation], in order. *)
Lemma single_quiet (L : Langfuse) tc p mn md w :
  never_raises L -> enabled (self w) = true -> client (self w) = true ->
  let tid := new_trace_id L (calls w) in
  let name := ("single_case_evaluation_" ++ mn)%string in
  trace_single_case_evaluation L tc p mn md w =
  (Ret (Some tid),
   add_calls [ CreateTraceId; StartAsCurrentSpan name;
               UpdateCurrentTrace name (single_case_metadata tc p mn md);
               single_case_score tid tc p;
               SpanUpdate (single_case_output tc p);
               SpanExit; Flush ] w).
Proof.
  intros Q E C tid name.
  unfold trace_single_case_evaluation, bind at 1, get_self. rewrite E. cbn [negb].
  unfold try_except.
  rewrite (bind_step (create_trace_id_quiet L w Q C)). fold tid.
  unfold with_span. rewrite bind_bind.
  erewrite bind_step by (apply client_call_quiet; [exact Q | exact C]).
  unfold bind at 1.
  erewrite bind_step by (apply client_call_quiet; [exact Q | exact C]).
  erewrite bind_step by (apply client_call_quiet; [exact Q | exact C]).
  rewrite !library_call_quiet by exact Q.
  erewrite bind_step by (apply client_call_quiet; [exact Q | exact C]).
  unfold ret. now rewrite !add_call_as_calls, !add_calls_add_calls.
Qed.

Lemma single_quiet_calls (L : Langfuse) tc p mn md w :
  never_raises L -> enabled (self w) = true -> client (self w) = true ->
  let tid := new_trace_id L (calls w) in
  let name := ("single_case_evaluation_" ++ mn)%string in
  new_calls w (snd (trace_single_case_evaluation L tc p mn md w)) =
  [ CreateTraceId; StartAsCurrentSpan name;
    UpdateCurrentTrace name (single_case_metadata tc p mn md);
    single_case_score tid tc p;
    SpanUpdate (single_case_output tc p);
    SpanExit; Flush ].
Proof.
  intros Q E C tid name. rewrite single_quiet by assumption.
  now apply new_calls_app.
Qed.

(** C7.  In the single-case operation against a library that does not
    raise, one score is emitted, [case_accuracy], and its value is 1.0 when
    [prediction.get('fraud_flag', False) == test_case.expected_fraud_flag]
    and 0.0 otherwise.  For a boolean predicted flag that is equality of the
    two booleans. *)
Theorem single_case_score_is_flag_equality
    (L : Langfuse) (w : World)
    (tc : TestCase) (p : dict) (mn : string) (md : option dict) :
  never_raises L -> enabled (self w) = true -> client (self w) = true ->
  let tid := new_trace_id L (calls w) in
  let w' := snd (trace_single_case_evaluation L tc p mn md w) in
  filter is_score (new_calls w w')
  = [ CreateScore tid "case_accuracy"
        (if is_correct tc p then 1%float else 0%float)
        ("Case accuracy: " ++ title tc)%string ]
  /\ (forall b, dict_get "fraud_flag" p = Some (PyBool b) ->
        is_correct tc p = Bool.eqb b (expected_fraud_flag tc))
  /\ (forall b, dict_get "fraud_flag" p = Some (PyBool b) ->
        b = expected_fraud_flag tc ->
        filter is_score (new_calls w w')
        = [ CreateScore tid "case_accuracy" 1%float ("Case accuracy: " ++ title tc)%string ])
  /\ (forall b, dict_get "fraud_flag" p = Some (PyBool b) ->
        b <> expected_fraud_flag tc ->
        filter is_score (new_calls w w')
        = [ CreateScore tid "case_accuracy" 0%float ("Case accuracy: " ++ title tc)%string ]).
Proof.
  intros Q E C tid w'.
  assert (EC : filter is_score (new_calls w w')
               = [ CreateScore tid "case_accuracy"
                     (if is_correct tc p then 1%float else 0%float)
                     ("Case accuracy: " ++ title tc)%string ]).
  { unfold w'. rewrite single_quiet_calls by assumption. reflexivity. }
  assert (IC : forall b, dict_get "fraud_flag" p = Some (PyBool b) ->
                 is_correct tc p = Bool.eqb b (expected_fraud_flag tc)).
  { intros b G. unfold is_correct, predicted_fraud, dict_get_default. now rewrite G. }
  repeat split.
  - exact EC.
  - exact IC.
  - intros b G Eb. rewrite EC, (IC b G), Eb, Bool.eqb_reflx. reflexivity.
  - intros b G Nb. rewrite EC, (IC b G).
    destruct (Bool.eqb b (expected_fraud_flag tc)) eqn:Eq; [| reflexivity].
    apply Bool.eqb_prop in Eq. contradiction.
Qed.

Lemma single_case_score_is_flag_equality_witness :
  never_raises Sample.quiet
  /\ filter is_score
       (new_calls (Sample.world Sample.live)
          (snd (trace_single_case_evaluation Sample.quiet Sample.case_a
                  [("fraud_flag", PyBool false)] "gpt" None (Sample.world Sample.live))))
     = [ CreateScore "trace-0" "case_accuracy" 0%float "Case accuracy: Wire fraud scheme" ].
Proof.
  assert (Q : never_raises Sample.quiet) by (intros h c; reflexivity).
  split; [exact Q |].
  apply (proj2 (proj2 (proj2 (single_case_score_is_flag_equality Sample.quiet
           (Sample.world Sample.live) Sample.case_a [("fraud_flag", PyBool false)]
           "gpt" None Q eq_refl eq_refl))) false eq_refl).
  discriminate.
Defined.



(* ===================================================================== *)
(** * Where an exception ends up *)
(* ===================================================================== *)

Lemma new_calls_nil (w w' : World) : calls w' = calls w -> new_calls w w' = [].
Proof. intros E. apply new_calls_app. now rewrite app_nil_r. Qed.

Lemma new_logs_nil (w w' : World) : logs w' = logs w -> new_logs w w' = [].
Proof. intros E. apply new_logs_app. now rewrite app_nil_r. Qed.

Lemma count_errors_app (ls ls' : list (level * string)) :
  count_errors (ls ++ ls') = count_errors ls + count_errors ls'.
Proof. unfold count_errors. now rewrite filter_app, length_app. Qed.

Lemma some_raise_app (L : Langfuse) (cs cs' : list Call) : forall h,
  some_raise L h (cs ++ cs') = some_raise L h cs || some_raise L (h ++ cs) cs'.
Proof.
  induction cs as [| c cs IH]; intros h; simpl.
  - now rewrite app_nil_r.
  - destruct (raises L h c); [reflexivity |].
    rewrite IH, <- app_assoc. reflexivity.
Qed.

Lemma skip_scores (L : Langfuse) (cs rest : list Call) : forall h,
  forallb is_score cs = true ->
  some_raise_outside_scores L h (cs ++ rest) = some_raise_outside_scores L (h ++ cs) rest.
Proof.
  induction cs as [| c cs IH]; intros h F; simpl.
  - now rewrite app_nil_r.
  - simpl in F. apply andb_true_iff in F as [Fc Fcs].
    rewrite Fc. cbn [negb orb].
    destruct (raises L h c); rewrite IH by assumption; now rewrite <- app_assoc.
Qed.

Section Tracking.

Variable L : Langfuse.

Lemma tracked_ret {A} (a : A) : tracked L (ret a).
Proof.
  intros w. exists []. simpl. rewrite add_calls_nil.
  repeat split; discriminate.
Qed.

Lemma tracked_lift {A} (o : outcome A) : tracked L (lift o).
Proof.
  intros w. exists []. simpl. rewrite add_calls_nil.
  repeat split; discriminate.
Qed.

Lemma tracked_self_client : tracked L self_client.
Proof.
  intros w. exists []. rewrite add_calls_nil. unfold self_client, bind, get_self, ret, raise.
  destruct (client (self w)); simpl; repeat split; discriminate.
Qed.

Lemma tracked_library_call (c : Call) : is_score c = true -> tracked L (library_call L c).
Proof.
  intros Sc w. unfold library_call. exists [c]. simpl. rewrite Sc.
  destruct (raises L (calls w) c) as [e |]; simpl; repeat split; eauto; discriminate.
Qed.

Lemma tracked_bind {A B} (m : M A) (k : A -> M B) :
  tracked L m -> (forall a, tracked L (k a)) -> tracked L (bind m k).
Proof.
  intros Hm Hk w. unfold bind.
  destruct (Hm w) as (cs & E & F & R).
  destruct (m w) as [[a | e] w1]; simpl in *.
  - destruct (Hk a w1) as (cs' & E' & F' & R').
    exists (cs ++ cs'). subst w1. rewrite E', add_calls_add_calls.
    split; [reflexivity |]. split; [now rewrite forallb_app, F, F' |].
    rewrite some_raise_app. intros H. apply orb_true_iff in H as [H | H].
    + destruct (R H) as [e He]. discriminate.
    + apply R'. exact H.
  - exists cs. eauto.
Qed.

Lemma tracked_client_call (c : Call) : is_score c = true -> tracked L (client_call L c).
Proof.
  intros Sc. unfold client_call.
  apply tracked_bind; [apply tracked_self_client | intros _].
  now apply tracked_library_call.
Qed.

Lemma tracked_case_loop tid pairs : forall i, tracked L (case_loop L tid i pairs).
Proof.
  induction pairs as [| [result test_case] rest IH]; intros i; simpl.
  - apply tracked_ret.
  - apply tracked_bind; [now apply tracked_client_call | intros _].
    apply tracked_bind; [| intros _; apply IH].
    destruct (dict_get "llm_judgment" result); [| apply tracked_ret].
    apply tracked_bind; [apply tracked_self_client | intros _].
    apply tracked_bind; [apply tracked_lift | intros raw].
    apply tracked_bind; [apply tracked_lift | intros v].
    now apply tracked_library_call.
Qed.

Lemma tracked_ragas_loop tid items : tracked L (ragas_loop L tid items).
Proof.
  induction items as [| [metric_name score] rest IH]; simpl.
  - apply tracked_ret.
  - apply tracked_bind; [| intros _; apply IH].
    destruct (isinstance_int_float score); [| apply tracked_ret].
    apply tracked_bind; [apply tracked_self_client | intros _].
    apply tracked_bind; [apply tracked_lift | intros v].
    now apply tracked_library_call.
Qed.

Hypothesis only_Exception : raises_only_Exception L.

(** The shape of the three helpers: a guard on [enabled], then a body under
    [try ... except Exception as e: logger.error(...)]. *)
Lemma guarded_helper_absorbs (body : M unit) (msg : exn -> string) :
  tracked L body -> catchable body ->
  absorbs L (s <- get_self ;;
             if negb (enabled s) then ret tt
             else try_except body (fun e => log ERROR (msg e))).
Proof.
  intros T Cb w. unfold bind at 1, get_self.
  destruct (negb (enabled (self w))).
  - exists [], []. unfold ret. rewrite <- world_eta.
    repeat split; auto; discriminate.
  - unfold try_except. destruct (T w) as (cs & E & F & R). specialize (Cb w).
    destruct (body w) as [[[] | e] w1]; simpl in *; subst w1.
    + exists cs, []. rewrite app_nil_r. repeat split; auto.
      intros H. destruct (R H) as [e He]. discriminate.
    + rewrite (Cb e eq_refl). exists cs, [(ERROR, msg e)].
      unfold log, add_log, add_calls. simpl. repeat split; auto.
Qed.

Lemma absorbs_push_overall tid r mn : absorbs L (_push_overall_scores L tid r mn).
Proof.
  apply guarded_helper_absorbs.
  - repeat (apply tracked_bind; [now apply tracked_client_call | intros _]).
    now apply tracked_client_call.
  - repeat (apply catchable_bind; [now apply catchable_client_call | intros _]).
    now apply catchable_client_call.
Qed.

Lemma absorbs_push_cases tid r tcs : absorbs L (_push_case_scores L tid r tcs).
Proof.
  apply guarded_helper_absorbs;
    [apply tracked_case_loop | now apply catchable_case_loop].
Qed.

Lemma absorbs_push_ragas tid d : absorbs L (_push_ragas_scores L tid d).
Proof.
  apply guarded_helper_absorbs;
    [apply tracked_ragas_loop | now apply catchable_ragas_loop].
Qed.

Lemma absorbs_push_ragas_if tid r : absorbs L (push_ragas_if_available L tid r).
Proof.
  unfold push_ragas_if_available.
  destruct (ragas_scores r) as [[| kv d] |]; try apply absorbs_push_ragas;
    intros w; exists [], []; unfold ret; rewrite <- world_eta;
    repeat split; auto; discriminate.
Qed.

End Tracking.

(** Following an operation call by call: [next_raise] asks the library
    about the next call, [leaf] closes a branch with the outcome and the
    world that the operation has reached there. *)
Ltac norm_world :=
  cbn [fst snd];
  repeat first
    [ erewrite new_calls_nil by reflexivity
    | erewrite new_calls_app
        by (cbn [calls logs self add_call add_log add_calls]; rewrite <- ?app_assoc;
            cbn [app]; reflexivity)
    | erewrite new_logs_nil by reflexivity
    | erewrite new_logs_app
        by (cbn [calls logs self add_call add_log add_calls]; rewrite <- ?app_assoc;
            cbn [app]; reflexivity) ].

Ltac use_raises :=
  repeat match goal with
         | H : raises ?L ?h ?c = _ |- context [raises ?L ?h ?c] => rewrite H
         end.

Ltac use_client :=
  cbn [calls logs self environ add_call add_log];
  repeat match goal with
         | C : client (self ?w) = true |- context [client (self ?w)] => rewrite C
         end;
  cbn [calls logs self environ add_call add_log].

Ltac next_raise R :=
  use_client;
  match goal with
  | |- context [raises ?L ?h ?c] => destruct (raises L h c) eqn:R
  end;
  cbn [calls logs self environ add_call add_log].

Ltac replay :=
  repeat (cbn [some_raise some_raise_outside_scores app is_score negb orb];
          use_raises;
          rewrite ?skip_scores by assumption).

Ltac leaf OE :=
  repeat match goal with
         | H : raises _ _ _ = Some ?e |- context [is_Exception ?e] => rewrite (OE _ _ _ H)
         end;
  intros Run; apply pair_equal_spec in Run as [<- <-]; norm_world; replay.

Ltac absorb_helper H w :=
  let cs := fresh "cs" in
  let ls := fresh "ls" in
  let Eh := fresh "Eh" in
  let Fs := fresh "Fs" in
  let Le := fresh "Le" in
  let Lg := fresh "Lg" in
  destruct (H w) as (cs & ls & Eh & Fs & Le & Lg);
  rewrite Eh; clear Eh;
  cbn [calls logs self environ add_call add_log] in Lg.

Section WhereExceptionsEnd.

Variable L : Langfuse.
Hypothesis OE : raises_only_Exception L.

Lemma single_outcome tc p mn md w :
  enabled (self w) = true -> client (self w) = true ->
  let res := trace_single_case_evaluation L tc p mn md w in
  let w' := snd res in
  (some_raise L (calls w) (new_calls w w') = true ->
     fst res = Ret None /\ count_errors (new_logs w w') = 1)
  /\ (some_raise L (calls w) (new_calls w w') = false ->
     fst res = Ret (Some (new_trace_id L (calls w))) /\ new_logs w w' = []).
Proof.
  intros E C. cbv zeta.
  destruct (trace_single_case_evaluation L tc p mn md w) as [o wf] eqn:Run.
  revert Run.
  unfold trace_single_case_evaluation, bind at 1, get_self. rewrite E. cbn [negb].
  unfold try_except, create_trace_id, with_span, client_call, self_client, bind,
    get_self, library_call, ret, log.
  next_raise R1. { leaf OE. split; intros H; [split; reflexivity | discriminate H]. }
  next_raise R2. { leaf OE. split; intros H; [split; reflexivity | discriminate H]. }
  next_raise R3.
  { next_raise R4; leaf OE; (split; intros H; [split; reflexivity | discriminate H]). }
  next_raise R4.
  { next_raise R5; leaf OE; (split; intros H; [split; reflexivity | discriminate H]). }
  next_raise R5.
  { next_raise R6; leaf OE; (split; intros H; [split; reflexivity | discriminate H]). }
  next_raise R6. { leaf OE. split; intros H; [split; reflexivity | discriminate H]. }
  next_raise R7. { leaf OE. split; intros H; [split; reflexivity | discriminate H]. }
  leaf OE. split; intros H; [discriminate H | split; reflexivity].
Qed.

Lemma single_without_client tc p mn md w :
  enabled (self w) = true -> client (self w) = false ->
  trace_single_case_evaluation L tc p mn md w
  = (Ret None,
     add_log ERROR
       ("Failed to create single case trace: 'LangfuseTracer' object has no attribute 'client'")%string
       w).
Proof.
  intros E C.
  unfold trace_single_case_evaluation, bind at 1, get_self. rewrite E. cbn [negb].
  unfold try_except, create_trace_id, with_span, client_call, self_client, bind,
    get_self, library_call, ret, log, raise.
  rewrite C. reflexivity.
Qed.

Lemma run_without_client r mn mp tcs md w :
  enabled (self w) = true -> client (self w) = false ->
  trace_evaluation_run L r mn mp tcs md w
  = (Ret None,
     add_log ERROR
       ("Failed to create evaluation trace: 'LangfuseTracer' object has no attribute 'client'")%string
       w).
Proof.
  intros E C.
  unfold trace_evaluation_run, bind at 1, get_self. rewrite E. cbn [negb].
  unfold try_except, create_trace_id, with_span, client_call, self_client, bind,
    get_self, library_call, ret, log, raise.
  rewrite C. reflexivity.
Qed.

Ltac absorb_next :=
  cbn [calls logs self environ add_call add_log];
  match goal with
  | |- context [_push_overall_scores L ?t ?r ?m ?W] =>
      absorb_helper (absorbs_push_overall L OE t r m) W
  | |- context [_push_case_scores L ?t ?r ?tcs ?W] =>
      absorb_helper (absorbs_push_cases L OE t r tcs) W
  | |- context [push_ragas_if_available L ?t ?r ?W] =>
      absorb_helper (absorbs_push_ragas_if L OE t r) W
  end;
  cbn [calls logs self environ add_call add_log].

Ltac outer_failure :=
  split;
  [ intros _; split;
    [ reflexivity
    | eexists; repeat (apply in_or_app; right); left; reflexivity ]
  | split;
    [ intros H; discriminate H
    | intros _; rewrite ?count_errors_app;
      cbn [count_errors filter is_error fst List.length]; lia ] ].

Lemma run_outcome r mn mp tcs md w :
  enabled (self w) = true -> client (self w) = true ->
  let res := trace_evaluation_run L r mn mp tcs md w in
  let w' := snd res in
  (some_raise_outside_scores L (calls w) (new_calls w w') = true ->
     fst res = Ret None
     /\ exists e, In (ERROR, ("Failed to create evaluation trace: " ++ exn_text e)%string)
                     (new_logs w w'))
  /\ (some_raise_outside_scores L (calls w) (new_calls w w') = false ->
     fst res = Ret (Some (new_trace_id L (calls w))))
  /\ (some_raise L (calls w) (new_calls w w') = true ->
     1 <= count_errors (new_logs w w')).
Proof.
  intros E C. cbv zeta.
  destruct (trace_evaluation_run L r mn mp tcs md w) as [o wf] eqn:Run.
  revert Run.
  unfold trace_evaluation_run, bind at 1, get_self. rewrite E. cbn [negb].
  unfold try_except, create_trace_id, with_span, client_call, self_client, bind,
    get_self, library_call, ret, log.
  next_raise R1. { leaf OE. outer_failure. }
  next_raise R2. { leaf OE. outer_failure. }
  next_raise R3. { next_raise R4; leaf OE; outer_failure. }
  absorb_next. absorb_next. absorb_next.
  next_raise R5. { next_raise R6; leaf OE; outer_failure. }
  next_raise R6. { leaf OE. outer_failure. }
  next_raise R7. { leaf OE. outer_failure. }
  leaf OE.
  split; [intros H; discriminate H |]. split; [reflexivity |].
  rewrite !some_raise_app. cbn [some_raise]. use_raises.
  rewrite !count_errors_app. rewrite !orb_false_r.
  intros H. apply orb_true_iff in H as [H | H]; [apply Lg in H; lia |].
  apply orb_true_iff in H as [H | H]; [apply Lg0 in H; lia | apply Lg1 in H; lia].
Qed.

End WhereExceptionsEnd.

(** Claim C1 as written fails in the full-run operation.  The library
    raises on every score emission; each of the three helpers catches the
    exception and logs it, and the run goes on: it returns the trace id, not
    [None]. *)
Lemma score_failure_still_returns_trace_id :
  let L := Sample.failing is_score Sample.timeout_error in
  let w := Sample.world Sample.live in
  let res := trace_evaluation_run L
               (Sample.result_of Sample.three_details (Some Sample.mixed_ragas))
               "gpt" "openai" Sample.five_cases None w in
  is_Exception Sample.timeout_error = true
  /\ some_raise L (calls w) (new_calls w (snd res)) = true
  /\ fst res = Ret (Some "trace-0"%string)
  /\ fst res <> Ret None
  /\ count_errors (new_logs w (snd res)) = 3.
Proof.
  vm_compute. repeat split. discriminate.
Qed.

(** The same without any failure of the library: a per-case record whose
    [overall_quality] is a string makes the division raise [TypeError]
    inside the per-case helper, and the run still returns the trace id. *)
Lemma unreadable_record_still_returns_trace_id :
  let w := Sample.world Sample.live in
  let res := trace_evaluation_run Sample.quiet
               (Sample.result_of Sample.bad_details None)
               "gpt" "openai" Sample.five_cases None w in
  fst res = Ret (Some "trace-0"%string)
  /\ new_logs w (snd res)
     = [ (ERROR, "Failed to push case scores: unsupported operand type(s) for /: 'str' and 'float'"%string);
         (INFO, "Evaluation trace created with ID: trace-0"%string) ].
Proof.
  vm_compute. split; reflexivity.
Qed.

(** And an exception that does not derive from [Exception] is not caught:
    [except Exception] lets a [KeyboardInterrupt] through. *)
Lemma keyboard_interrupt_escapes :
  let L := Sample.failing Sample.is_flush Sample.keyboard_interrupt in
  fst (trace_single_case_evaluation L Sample.case_a [] "gpt" None
         (Sample.world Sample.live))
  = Raise Sample.keyboard_interrupt.
Proof.
  vm_compute. reflexivity.
Qed.

(** C1, amended.  On an enabled reporter, when every exception the library
    raises derives from [Exception]:
    - neither operation lets an exception out;
    - the single-case operation returns [None] and logs exactly one error
      when the library raised on any of its calls, and returns the trace id
      and logs nothing when it raised on none;
    - the full-run operation returns [None], with the failure logged, when
      the library raised on a call that is not a score emission (creating
      the trace id, entering or leaving the span, updating the trace or the
      span, flushing), and returns the trace id when it raised on no such
      call -- an exception raised while scores are emitted is caught and
      logged inside the helper that emits them and does not end the run;
    - whenever the library raised during a full run, an error was logged. *)
Theorem exceptions_are_absorbed
    (L : Langfuse) (w : World)
    (r : EvaluationResult) (mn mp : string) (tcs : list TestCase) (md : option dict)
    (tc : TestCase) (p : dict) :
  raises_only_Exception L -> enabled (self w) = true -> client (self w) = true ->
  let tid := new_trace_id L (calls w) in
  let run := trace_evaluation_run L r mn mp tcs md w in
  let single := trace_single_case_evaluation L tc p mn md w in
  ((exists out, fst single = Ret out)
   /\ (some_raise L (calls w) (new_calls w (snd single)) = true ->
       fst single = Ret None /\ count_errors (new_logs w (snd single)) = 1)
   /\ (some_raise L (calls w) (new_calls w (snd single)) = false ->
       fst single = Ret (Some tid) /\ new_logs w (snd single) = []))
  /\
  ((exists out, fst run = Ret out)
   /\ (some_raise_outside_scores L (calls w) (new_calls w (snd run)) = true ->
       fst run = Ret None
       /\ exists e, In (ERROR, ("Failed to create evaluation trace: " ++ exn_text e)%string)
                       (new_logs w (snd run)))
   /\ (some_raise_outside_scores L (calls w) (new_calls w (snd run)) = false ->
       fst run = Ret (Some tid))
   /\ (some_raise L (calls w) (new_calls w (snd run)) = true ->
       1 <= count_errors (new_logs w (snd run)))).
Proof.
  intros OE E C tid run single. split.
  - split; [apply (returns_single L OE) |].
    exact (single_outcome L OE tc p mn md w E C).
  - split; [apply (returns_run L OE) |].
    exact (run_outcome L OE r mn mp tcs md w E C).
Qed.

Lemma exceptions_are_absorbed_witness :
  raises_only_Exception (Sample.failing Sample.is_flush Sample.timeout_error)
  /\ fst (trace_evaluation_run (Sample.failing Sample.is_flush Sample.timeout_error)
            (Sample.result_of Sample.three_details (Some Sample.mixed_ragas))
            "gpt" "openai" Sample.five_cases None (Sample.world Sample.live))
     = Ret None.
Proof.
  assert (OE : raises_only_Exception (Sample.failing Sample.is_flush Sample.timeout_error)).
  { intros h c e H. simpl in H. destruct (Sample.is_flush c); inversion H. reflexivity. }
  split; [exact OE |].
  apply (proj1 (proj2 (proj2 (exceptions_are_absorbed
           (Sample.failing Sample.is_flush Sample.timeout_error)
           (Sample.world Sample.live)
           (Sample.result_of Sample.three_details (Some Sample.mixed_ragas))
           "gpt" "openai" Sample.five_cases None Sample.case_a []
           OE eq_refl eq_refl)))).
  vm_compute. reflexivity.
Defined.

(* ===================================================================== *)
(** * Construction *)
(* ===================================================================== *)

(** [__init__] on a new object in closed form, whatever was called and
    logged before: the outcome and the world it leaves, by the conditions it
    tests in order. *)
Lemma init_cases
    (L : Langfuse) (cs : list Call) (ls : list (level * string))
    (env : list (string * string))
    (pk sk h : option string) (en : option bool) :
  let pkv := effective_key pk "LANGFUSE_PUBLIC_KEY" env in
  let skv := effective_key sk "LANGFUSE_SECRET_KEY" env in
  let hv := effective_host h env in
  let env' := exported_environ pkv skv hv env in
  let call := GetClient (key_text pkv) in
  __init__ L pk sk h en (mkWorld blank cs ls env) =
  if negb (requested_enabled en env && LANGFUSE_AVAILABLE L) then
    (Ret tt,
     mkWorld blank cs
       (ls ++ [(INFO, "Langfuse tracing disabled or not available"%string)]) env)
  else if negb (str_truthy pkv) || negb (str_truthy skv) then
    (Ret tt,
     mkWorld (mkTracer false pkv skv (Some hv) false) cs
       (ls ++ [(WARNING, "Langfuse credentials not found. Set LANGFUSE_PUBLIC_KEY and LANGFUSE_SECRET_KEY environment variables."%string)])
       env)
  else if negb (exportable pkv skv hv) then
    (Ret tt,
     mkWorld (mkTracer false pkv skv (Some hv) false) cs
       (ls ++ [(ERROR, "Failed to initialize Langfuse client: embedded null byte"%string)])
       (partly_exported pkv skv env))
  else
    match raises L cs call with
    | None =>
        (Ret tt,
         mkWorld (mkTracer true pkv skv (Some hv) true) (cs ++ [call])
           (ls ++ [(INFO, ("Langfuse client initialized successfully with host: " ++ hv)%string)])
           env')
    | Some e =>
        if is_Exception e then
          (Ret tt,
           mkWorld (mkTracer false pkv skv (Some hv) false) (cs ++ [call])
             (ls ++ [(ERROR, ("Failed to initialize Langfuse client: " ++ exn_text e)%string)])
             env')
        else
          (Raise e, mkWorld (mkTracer true pkv skv (Some hv) false) (cs ++ [call]) ls env')
    end.
Proof.
  cbv zeta. unfold __init__.
  set (w0 := mkWorld blank cs ls env).
  assert (Eev : match en with
                | Some b => ret b
                | None => v <- getenv_default "ENABLE_LANGFUSE_TRACING" "true" ;;
                          ret (String.eqb (lower v) "true")
                end w0 = (Ret (requested_enabled en env), w0))
    by (destruct en; reflexivity).
  rewrite (bind_step Eev). clear Eev.
  erewrite bind_step by reflexivity.
  erewrite bind_step by reflexivity.
  cbn [self enabled set_self].
  destruct (requested_enabled en env && LANGFUSE_AVAILABLE L); cbn [negb];
    [| reflexivity].
  match goal with
  | |- context [bind ?m _ ?w] =>
      assert (Epk : m w = (Ret (effective_key pk "LANGFUSE_PUBLIC_KEY" env), w))
        by (unfold effective_key; destruct (str_truthy pk); reflexivity)
  end.
  rewrite (bind_step Epk). clear Epk.
  erewrite bind_step by reflexivity.
  match goal with
  | |- context [bind ?m _ ?w] =>
      assert (Esk : m w = (Ret (effective_key sk "LANGFUSE_SECRET_KEY" env), w))
        by (unfold effective_key; destruct (str_truthy sk); reflexivity)
  end.
  rewrite (bind_step Esk). clear Esk.
  erewrite bind_step by reflexivity.
  match goal with
  | |- context [bind ?m _ ?w] =>
      assert (Eh : m w = (Ret (effective_host h env), w))
        by (unfold effective_host; destruct (str_truthy h); reflexivity)
  end.
  rewrite (bind_step Eh). clear Eh.
  erewrite bind_step by reflexivity.
  set (pkv := effective_key pk "LANGFUSE_PUBLIC_KEY" env).
  set (skv := effective_key sk "LANGFUSE_SECRET_KEY" env).
  set (hv := effective_host h env).
  destruct (negb (str_truthy pkv) || negb (str_truthy skv)); [reflexivity |].
  unfold try_except, bind, setenv, library_call, set_client, log, set_enabled.
  change (has_nul "LANGFUSE_PUBLIC_KEY") with false.
  change (has_nul "LANGFUSE_SECRET_KEY") with false.
  change (has_nul "LANGFUSE_HOST") with false.
  change (String.eqb "LANGFUSE_PUBLIC_KEY" "" || has_equals "LANGFUSE_PUBLIC_KEY") with false.
  change (String.eqb "LANGFUSE_SECRET_KEY" "" || has_equals "LANGFUSE_SECRET_KEY") with false.
  change (String.eqb "LANGFUSE_HOST" "" || has_equals "LANGFUSE_HOST") with false.
  cbn [orb calls set_environ set_self w0].
  fold (key_text pkv). fold (key_text skv).
  unfold exportable, partly_exported.
  destruct (has_nul (key_text pkv)); [reflexivity |].
  destruct (has_nul (key_text skv)); [reflexivity |].
  destruct (has_nul hv); [reflexivity |]. cbn [negb andb calls set_environ set_self w0].
  destruct (raises L cs (GetClient (key_text pkv))) as [e |]; [| reflexivity].
  destruct (is_Exception e); reflexivity.
Qed.

(** The constructor in closed form. *)
Lemma construct_cases
    (L : Langfuse) (env : list (string * string))
    (pk sk h : option string) (en : option bool) :
  let pkv := effective_key pk "LANGFUSE_PUBLIC_KEY" env in
  let skv := effective_key sk "LANGFUSE_SECRET_KEY" env in
  let hv := effective_host h env in
  let env' := exported_environ pkv skv hv env in
  let call := GetClient (key_text pkv) in
  construct L env pk sk h en =
  if negb (requested_enabled en env && LANGFUSE_AVAILABLE L) then
    (Ret tt,
     mkWorld blank [] [(INFO, "Langfuse tracing disabled or not available"%string)] env)
  else if negb (str_truthy pkv) || negb (str_truthy skv) then
    (Ret tt,
     mkWorld (mkTracer false pkv skv (Some hv) false) []
       [(WARNING, "Langfuse credentials not found. Set LANGFUSE_PUBLIC_KEY and LANGFUSE_SECRET_KEY environment variables."%string)]
       env)
  else if negb (exportable pkv skv hv) then
    (Ret tt,
     mkWorld (mkTracer false pkv skv (Some hv) false) []
       [(ERROR, "Failed to initialize Langfuse client: embedded null byte"%string)]
       (partly_exported pkv skv env))
  else
    match raises L [] call with
    | None =>
        (Ret tt,
         mkWorld (mkTracer true pkv skv (Some hv) true) [call]
           [(INFO, ("Langfuse client initialized successfully with host: " ++ hv)%string)]
           env')
    | Some e =>
        if is_Exception e then
          (Ret tt,
           mkWorld (mkTracer false pkv skv (Some hv) false) [call]
             [(ERROR, ("Failed to initialize Langfuse client: " ++ exn_text e)%string)]
             env')
        else
          (Raise e, mkWorld (mkTracer true pkv skv (Some hv) false) [call] [] env')
    end.
Proof. exact (init_cases L [] [] env pk sk h en). Qed.

(** A constructed reporter that is enabled has its client: the facts above
    that assume both hold for every enabled reporter that [__init__]
    returned. *)
Lemma constructed_enabled_has_client
    (L : Langfuse) (env : list (string * string))
    (pk sk h : option string) (en : option bool) :
  fst (construct L env pk sk h en) = Ret tt ->
  enabled (self (snd (construct L env pk sk h en))) = true ->
  client (self (snd (construct L env pk sk h en))) = true.
Proof.
  rewrite construct_cases.
  destruct (negb (requested_enabled en env && LANGFUSE_AVAILABLE L));
    [intros _ H; discriminate H |].
  destruct (negb (str_truthy (effective_key pk "LANGFUSE_PUBLIC_KEY" env))
            || negb (str_truthy (effective_key sk "LANGFUSE_SECRET_KEY" env)));
    [intros _ H; discriminate H |].
  destruct (negb (exportable _ _ _)); [intros _ H; discriminate H |].
  destruct (raises L [] _) as [e |].
  - destruct (is_Exception e); intros H1 H2; discriminate.
  - reflexivity.
Qed.

(** The library being unavailable disables the reporter whatever was
    asked for. *)
Lemma unavailable_library_disables
    (L : Langfuse) (env : list (string * string))
    (pk sk h : option string) (en : option bool) :
  LANGFUSE_AVAILABLE L = false ->
  enabled (self (snd (construct L env pk sk h en))) = false
  /\ calls (snd (construct L env pk sk h en)) = [].
Proof.
  intros NA.
  unfold construct, __init__, bind, ret, log, get_self, getenv_default, set_enabled.
  destruct en as [[|] |]; cbn [fst snd self enabled set_self blank];
    rewrite NA, ?andb_false_r; cbn [negb]; split; reflexivity.
Qed.

(* ===================================================================== *)
(** * What the constructor leaves *)
(* ===================================================================== *)


(** X1.  Construction does not fail on an error of the library: when every
    exception of the library derives from [Exception], [__init__] returns,
    whatever the parameters and the environment.  The only exception that
    can leave it is one that [langfuse.get_client] raised and that does not
    derive from [Exception]. *)
Theorem construction_absorbs_library_errors
    (L : Langfuse) (env : list (string * string))
    (pk sk h : option string) (en : option bool) :
  (raises_only_Exception L -> fst (construct L env pk sk h en) = Ret tt)
  /\ (forall e, fst (construct L env pk sk h en) = Raise e ->
        raises L [] (GetClient (key_text (effective_key pk "LANGFUSE_PUBLIC_KEY" env)))
        = Some e
        /\ is_Exception e = false).
Proof.
  rewrite construct_cases.
  destruct (negb (requested_enabled en env && LANGFUSE_AVAILABLE L));
    [split; [reflexivity | discriminate] |].
  destruct (negb (str_truthy (effective_key pk "LANGFUSE_PUBLIC_KEY" env))
            || negb (str_truthy (effective_key sk "LANGFUSE_SECRET_KEY" env)));
    [split; [reflexivity | discriminate] |].
  destruct (negb (exportable _ _ _)); [split; [reflexivity | discriminate] |].
  destruct (raises L [] _) as [e |] eqn:R; [| split; [reflexivity | discriminate]].
  destruct (is_Exception e) eqn:X; cbn [fst].
  - split; [reflexivity | discriminate].
  - split.
    + intros OE. rewrite (OE _ _ _ R) in X. discriminate X.
    + intros e' H. inversion H; subst. auto.
Qed.

Lemma construction_absorbs_library_errors_witness :
  raises_only_Exception (Sample.failing SampleEnv.is_get_client Sample.timeout_error)
  /\ fst (construct (Sample.failing SampleEnv.is_get_client Sample.timeout_error)
            SampleEnv.credentials None None None None) = Ret tt.
Proof.
  assert (OE : raises_only_Exception
                 (Sample.failing SampleEnv.is_get_client Sample.timeout_error)).
  { intros hh c e H. simpl in H. destruct (SampleEnv.is_get_client c); inversion H.
    reflexivity. }
  split; [exact OE |].
  exact (proj1 (construction_absorbs_library_errors
                  (Sample.failing SampleEnv.is_get_client Sample.timeout_error)
                  SampleEnv.credentials None None None None) OE).
Defined.



(** X3.  A construction that ends disabled because tracing was not asked
    for, the library is unavailable, or a credential is missing has no side
    effect beyond one log record: it calls nothing, leaves [os.environ] as it
    was, and sets no client. *)
Theorem disabled_construction_has_no_side_effect
    (L : Langfuse) (env : list (string * string))
    (pk sk h : option string) (en : option bool) :
  requested_enabled en env && LANGFUSE_AVAILABLE L
  && str_truthy (effective_key pk "LANGFUSE_PUBLIC_KEY" env)
  && str_truthy (effective_key sk "LANGFUSE_SECRET_KEY" env) = false ->
  let res := construct L env pk sk h en in
  fst res = Ret tt
  /\ enabled (self (snd res)) = false
  /\ client (self (snd res)) = false
  /\ calls (snd res) = []
  /\ environ (snd res) = env
  /\ List.length (logs (snd res)) = 1.
Proof.
  intros H. cbv zeta. rewrite construct_cases.
  destruct (requested_enabled en env && LANGFUSE_AVAILABLE L); cbn [negb andb] in *;
    [| repeat split].
  destruct (str_truthy (effective_key pk "LANGFUSE_PUBLIC_KEY" env));
    cbn [negb orb andb] in *; [| repeat split].
  rewrite H. cbn [negb]. repeat split.
Qed.

Lemma disabled_construction_has_no_side_effect_witness :
  calls (snd (construct Sample.quiet [("LANGFUSE_PUBLIC_KEY", "pk-env")]
                None (Some "") None (Some true))) = []
  /\ environ (snd (construct Sample.quiet [("LANGFUSE_PUBLIC_KEY", "pk-env")]
                     None (Some "") None (Some true)))
     = [("LANGFUSE_PUBLIC_KEY", "pk-env")].
Proof.
  pose proof (disabled_construction_has_no_side_effect Sample.quiet
                [("LANGFUSE_PUBLIC_KEY", "pk-env")] None (Some "") None (Some true)
                eq_refl) as (_ & _ & _ & Hc & He & _).
  split; [exact Hc | exact He].
Defined.





(** X6.  Where the credentials come from: once tracing is asked for and the
    library is available, a non-empty parameter is what the reporter holds,
    whatever the environment says; a parameter that is [None] or the empty
    string gives way to the environment variable; and the host falls back
    to the fixed URL when neither names one. *)
Theorem credentials_parameter_then_environment
    (L : Langfuse) (env : list (string * string))
    (pk sk h : option string) (en : option bool) :
  requested_enabled en env && LANGFUSE_AVAILABLE L = true ->
  let t := self (snd (construct L env pk sk h en)) in
  (forall s, pk = Some s -> s <> ""%string -> public_key t = Some s)
  /\ (pk = None \/ pk = Some ""%string ->
      public_key t = env_get "LANGFUSE_PUBLIC_KEY" env)
  /\ (forall s, sk = Some s -> s <> ""%string -> secret_key t = Some s)
  /\ (sk = None \/ sk = Some ""%string ->
      secret_key t = env_get "LANGFUSE_SECRET_KEY" env)
  /\ (forall s, h = Some s -> s <> ""%string -> host t = Some s)
  /\ (h = None \/ h = Some ""%string ->
      env_get "LANGFUSE_HOST" env = None ->
      host t = Some "https://us.cloud.langfuse.com"%string).
Proof.
  intros HA. cbv zeta.
  assert (T : public_key (self (snd (construct L env pk sk h en)))
              = effective_key pk "LANGFUSE_PUBLIC_KEY" env
              /\ secret_key (self (snd (construct L env pk sk h en)))
                 = effective_key sk "LANGFUSE_SECRET_KEY" env
              /\ host (self (snd (construct L env pk sk h en)))
                 = Some (effective_host h env)).
  { rewrite construct_cases. rewrite HA. cbn [negb].
    destruct (negb _ || negb _); [repeat split |].
    destruct (negb (exportable _ _ _)); [repeat split |].
    destruct (raises L [] _) as [e |]; [destruct (is_Exception e) |]; repeat split. }
  destruct T as (-> & -> & ->). unfold effective_key, effective_host, str_truthy.
  repeat split.
  - intros s -> N. apply String.eqb_neq in N. now rewrite N.
  - intros [-> | ->]; reflexivity.
  - intros s -> N. apply String.eqb_neq in N. now rewrite N.
  - intros [-> | ->]; reflexivity.
  - intros s -> N. apply String.eqb_neq in N. now rewrite N.
  - intros [-> | ->] ->; reflexivity.
Qed.

Lemma credentials_parameter_then_environment_witness :
  public_key (self (snd (construct Sample.quiet SampleEnv.credentials
                           (Some "pk-arg") (Some "") None (Some true))))
  = Some "pk-arg"%string
  /\ secret_key (self (snd (construct Sample.quiet SampleEnv.credentials
                              (Some "pk-arg") (Some "") None (Some true))))
     = Some "sk-env"%string.
Proof.
  pose proof (credentials_parameter_then_environment Sample.quiet SampleEnv.credentials
                (Some "pk-arg") (Some "") None (Some true) eq_refl)
    as (H1 & _ & _ & H4 & _).
  split.
  - apply (H1 "pk-arg"%string eq_refl). discriminate.
  - apply H4. now right.
Defined.

(** X7.  Every enabled reporter that [__init__] returned is fully
    configured: it has its client, a non-empty public key, a non-empty
    secret key and a host. *)
Theorem enabled_reporter_is_fully_configured
    (L : Langfuse) (env : list (string * string))
    (pk sk h : option string) (en : option bool) :
  fst (construct L env pk sk h en) = Ret tt ->
  enabled (self (snd (construct L env pk sk h en))) = true ->
  let t := self (snd (construct L env pk sk h en)) in
  client t = true
  /\ str_truthy (public_key t) = true
  /\ str_truthy (secret_key t) = true
  /\ host t <> None.
Proof.
  cbv zeta. rewrite construct_cases.
  destruct (negb (requested_enabled en env && LANGFUSE_AVAILABLE L));
    [intros _ H; discriminate H |].
  destruct (str_truthy (effective_key pk "LANGFUSE_PUBLIC_KEY" env)) eqn:HP;
    [| intros _ H; discriminate H].
  destruct (str_truthy (effective_key sk "LANGFUSE_SECRET_KEY" env)) eqn:HS;
    [| intros _ H; discriminate H].
  cbn [negb orb].
  destruct (negb (exportable _ _ _)); [intros _ H; discriminate H |].
  destruct (raises L [] _) as [e |].
  - destruct (is_Exception e); intros H1 H2; discriminate.
  - intros _ _. cbn [snd self client public_key secret_key host].
    repeat split; try assumption. discriminate.
Qed.

Lemma enabled_reporter_is_fully_configured_witness :
  client (self (snd (construct Sample.quiet SampleEnv.credentials None None None None)))
  = true.
Proof.
  exact (proj1 (enabled_reporter_is_fully_configured Sample.quiet SampleEnv.credentials
                  None None None None eq_refl eq_refl)).
Defined.

(* ===================================================================== *)
(** * Closing *)
(* ===================================================================== *)

Lemma close_cases (L : Langfuse) (w : World) :
  enabled (self w) = true -> client (self w) = true ->
  close L w =
  match raises L (calls w) Shutdown with
  | None =>
      (Ret tt, add_log INFO "Langfuse client shut down successfully" (add_call Shutdown w))
  | Some e =>
      if is_Exception e then
        (Ret tt,
         add_log ERROR ("Error shutting down Langfuse client: " ++ exn_text e)%string
           (add_call Shutdown w))
      else (Raise e, add_call Shutdown w)
  end.
Proof.
  intros E C. unfold close, bind at 1, get_self. rewrite E, C. cbn [andb].
  unfold try_except, client_call, self_client, bind, get_self, library_call, ret, log.
  rewrite C. destruct (raises L (calls w) Shutdown) as [e |]; reflexivity.
Qed.

(** X8.  [close] on an enabled reporter calls [shutdown] once and nothing
    else, absorbs an exception deriving from [Exception] with one log
    record, and leaves the reporter as it was: still enabled, still holding
    the client.  So a second [close] calls [shutdown] a second time. *)
Theorem close_shuts_down_and_leaves_reporter_enabled
    (L : Langfuse) (w : World) :
  enabled (self w) = true -> client (self w) = true ->
  let w' := snd (close L w) in
  new_calls w w' = [Shutdown]
  /\ self w' = self w
  /\ (raises_only_Exception L ->
      fst (close L w) = Ret tt /\ List.length (new_logs w w') = 1)
  /\ calls (snd (close L w')) = calls w ++ [Shutdown; Shutdown].
Proof.
  intros E C. cbv zeta.
  assert (K : forall v, enabled (self v) = true -> client (self v) = true ->
                self (snd (close L v)) = self v
                /\ calls (snd (close L v)) = calls v ++ [Shutdown]).
  { intros v Ev Cv. rewrite close_cases by assumption.
    destruct (raises L (calls v) Shutdown) as [e |]; [destruct (is_Exception e) |];
      split; reflexivity. }
  destruct (K w E C) as [Ks Kc].
  assert (E' : enabled (self (snd (close L w))) = true) by (now rewrite Ks).
  assert (C' : client (self (snd (close L w))) = true) by (now rewrite Ks).
  repeat split.
  - now apply new_calls_app.
  - exact Ks.
  - rewrite close_cases by assumption.
    destruct (raises L (calls w) Shutdown) as [e |] eqn:R; [| reflexivity].
    now rewrite (H _ _ _ R).
  - rewrite close_cases by assumption.
    destruct (raises L (calls w) Shutdown) as [e |] eqn:R;
      [rewrite (H _ _ _ R) |]; cbn [snd];
      erewrite new_logs_app by (cbn [logs add_log add_call]; reflexivity);
      reflexivity.
  - destruct (K _ E' C') as [_ Kc']. rewrite Kc', Kc, <- app_assoc. reflexivity.
Qed.

Lemma close_shuts_down_and_leaves_reporter_enabled_witness :
  calls (snd (close Sample.quiet (snd (close Sample.quiet (Sample.world Sample.live)))))
  = [Shutdown; Shutdown].
Proof.
  exact (proj2 (proj2 (proj2 (close_shuts_down_and_leaves_reporter_enabled
           Sample.quiet (Sample.world Sample.live) eq_refl eq_refl)))).
Defined.

(* ===================================================================== *)
(** * The score helpers on their own *)
(* ===================================================================== *)

(** X9.  Called on its own, each of the three score helpers absorbs the
    failures of the library that derive from [Exception]: it returns, the
    calls it made are all score emissions, it logs at most one error, and it
    logs exactly one when the library raised on one of its calls. *)
Theorem score_helpers_absorb_failures
    (L : Langfuse) (tid : string) (r : EvaluationResult) (mn : string)
    (tcs : list TestCase) (ragas : dict) :
  raises_only_Exception L ->
  absorbs L (_push_overall_scores L tid r mn)
  /\ absorbs L (_push_case_scores L tid r tcs)
  /\ absorbs L (_push_ragas_scores L tid ragas).
Proof.
  intros OE. repeat split.
  - now apply absorbs_push_overall.
  - now apply absorbs_push_cases.
  - now apply absorbs_push_ragas.
Qed.

Lemma score_helpers_absorb_failures_witness :
  raises_only_Exception (Sample.failing is_score Sample.timeout_error)
  /\ absorbs (Sample.failing is_score Sample.timeout_error)
       (_push_ragas_scores (Sample.failing is_score Sample.timeout_error)
          "t" Sample.mixed_ragas).
Proof.
  assert (OE : raises_only_Exception (Sample.failing is_score Sample.timeout_error)).
  { intros hh c e H. simpl in H. destruct (is_score c); inversion H. reflexivity. }
  split; [exact OE |].
  exact (proj2 (proj2 (score_helpers_absorb_failures
           (Sample.failing is_score Sample.timeout_error) "t"
           (Sample.result_of [] None) "gpt" [] Sample.mixed_ragas OE))).
Defined.

Section Order.

Variable L : Langfuse.

Lemma sent_prefix_refl (cs : list Call) : sent_prefix cs cs.
Proof. exists []. now rewrite app_nil_r. Qed.

Lemma sent_prefix_nil (cs : list Call) : sent_prefix [] cs.
Proof. now exists cs. Qed.

Lemma sent_prefix_app_l (cs full more : list Call) :
  sent_prefix cs full -> sent_prefix cs (full ++ more).
Proof. intros [rest ->]. exists (rest ++ more). now rewrite app_assoc. Qed.

Lemma sent_prefix_app (pre cs full : list Call) :
  sent_prefix cs full -> sent_prefix (pre ++ cs) (pre ++ full).
Proof. intros [rest ->]. exists rest. now rewrite app_assoc. Qed.

Lemma sends_ret {A} (a : A) : sends_in_order (ret a) [].
Proof.
  intros w C. exists []. simpl. rewrite add_calls_nil.
  repeat split; auto using sent_prefix_nil.
Qed.

Lemma sends_lift {A} (o : outcome A) : sends_in_order (lift o) [].
Proof.
  intros w C. exists []. simpl. rewrite add_calls_nil.
  repeat split; auto using sent_prefix_nil.
Qed.

Lemma sends_self_client : sends_in_order self_client [].
Proof.
  intros w C. exists []. rewrite self_client_present by assumption.
  simpl. rewrite add_calls_nil. repeat split; auto using sent_prefix_nil.
Qed.

Lemma sends_library_call (c : Call) : sends_in_order (library_call L c) [c].
Proof.
  intros w C. exists [c]. unfold library_call.
  destruct (raises L (calls w) c); simpl; repeat split; auto using sent_prefix_refl.
Qed.

Lemma sends_bind {A B} (m : M A) (k : A -> M B) (full1 full2 : list Call) :
  sends_in_order m full1 -> (forall a, sends_in_order (k a) full2) ->
  sends_in_order (bind m k) (full1 ++ full2).
Proof.
  intros Hm Hk w C. unfold bind.
  destruct (Hm w C) as (cs1 & E1 & P1 & F1).
  destruct (m w) as [[a | e] w1]; simpl in *.
  - rewrite (F1 a eq_refl) in E1. subst w1.
    destruct (Hk a (add_calls full1 w) C) as (cs2 & E2 & P2 & F2).
    exists (full1 ++ cs2). rewrite E2, add_calls_add_calls.
    repeat split.
    + now apply sent_prefix_app.
    + intros b Hb. now rewrite (F2 b Hb).
  - exists cs1. repeat split; auto using sent_prefix_app_l. discriminate.
Qed.

Lemma sends_client_call (c : Call) : sends_in_order (client_call L c) [c].
Proof.
  unfold client_call. apply (sends_bind _ _ [] [c]).
  - apply sends_self_client.
  - intros _. apply sends_library_call.
Qed.

Lemma sends_bind_pure {A B} (m : M A) (k : A -> M B) (a : A) (full : list Call) :
  (forall w, m w = (Ret a, w)) -> sends_in_order (k a) full ->
  sends_in_order (bind m k) full.
Proof.
  intros Hm Hk w C. unfold bind. rewrite Hm. now apply Hk.
Qed.

Lemma sends_case_loop tid pairs : forall i,
  forallb judgment_ok (map fst pairs) = true ->
  sends_in_order (case_loop L tid i pairs) (case_calls tid i pairs).
Proof.
  induction pairs as [| [result tc] rest IH]; intros i OK.
  - apply sends_ret.
  - cbn [map fst forallb] in OK. apply andb_true_iff in OK as [OK1 OK2].
    cbn [case_loop case_calls].
    apply (sends_bind _ _ [case_accuracy_score tid i result tc]);
      [apply sends_client_call | intros _].
    apply sends_bind; [| intros _; now apply IH].
    unfold judgment_ok in OK1. unfold judge_calls.
    destruct (dict_get "llm_judgment" result) as [[| | | | | | j] |]; try discriminate.
    + cbn [py_get].
      apply (sends_bind _ _ []); [apply sends_self_client | intros _].
      eapply sends_bind_pure; [reflexivity | cbv beta].
      destruct (truediv_10 (dict_get_default "overall_quality" (PyInt 0) j)) as [v | e];
        [| discriminate].
      eapply sends_bind_pure; [reflexivity | cbv beta].
      apply sends_library_call.
    + apply sends_ret.
Qed.

Lemma sends_ragas_loop tid items :
  sends_in_order (ragas_loop L tid items) (ragas_calls tid (before_overflow items)).
Proof.
  induction items as [| [metric_name score] rest IH].
  - apply sends_ret.
  - cbn [ragas_loop before_overflow].
    destruct (isinstance_int_float score) eqn:N.
    + pose proof (py_float_score_ok metric_name score N) as F.
      destruct (score_ok (metric_name, score)).
      * destruct F as [v Ev].
        unfold ragas_calls. cbn [flat_map]. fold (ragas_calls tid (before_overflow rest)).
        unfold ragas_item_calls. cbn [fst snd]. rewrite N, Ev.
        apply sends_bind; [| intros _; exact IH].
        apply (sends_bind _ _ []); [apply sends_self_client | intros _].
        eapply sends_bind_pure; [reflexivity | cbv beta].
        apply sends_library_call.
      * rewrite F. cbn [ragas_calls flat_map].
        intros w C. exists []. rewrite bind_bind.
        erewrite bind_step by (apply self_client_present; exact C).
        unfold bind, lift. rewrite add_calls_nil. cbn [fst snd].
        split; [reflexivity |]. split; [apply sent_prefix_nil | reflexivity].
    + assert (OK : score_ok (metric_name, score) = true)
        by (unfold score_ok; cbn [snd]; destruct score; auto; discriminate).
      rewrite OK.
      unfold ragas_calls. cbn [flat_map]. fold (ragas_calls tid (before_overflow rest)).
      unfold ragas_item_calls. cbn [fst snd]. rewrite N. cbn [app].
      apply (sends_bind _ _ []); [apply sends_ret | intros _; exact IH].
Qed.

Lemma sends_push_overall_body tid r mn :
  sends_in_order
    (client_call L (CreateScore tid "fraud_detection_accuracy" (accuracy r)
                      ("Overall fraud detection accuracy for " ++ mn)%string) ;;
     client_call L (CreateScore tid "fraud_detection_precision" (precision r)
                      ("Fraud detection precision for " ++ mn)%string) ;;
     client_call L (CreateScore tid "fraud_detection_recall" (recall r)
                      ("Fraud detection recall for " ++ mn)%string) ;;
     client_call L (CreateScore tid "fraud_detection_f1" (f1_score r)
                      ("Fraud detection F1 score for " ++ mn)%string) ;;
     client_call L (CreateScore tid "fraud_detection_overall_quality" (overall_quality r)
                      ("Overall quality score for " ++ mn)%string))%py
    (overall_scores tid r mn).
Proof.
  unfold overall_scores.
  repeat (apply (sends_bind _ _ [_]); [apply sends_client_call | intros _]).
  apply sends_client_call.
Qed.

(** A helper of the guarded shape sends what its body sends, and all of it
    when it returned without logging. *)
Lemma guarded_helper_sends (body : M unit) (msg : exn -> string) (full : list Call)
    (w : World) :
  enabled (self w) = true -> client (self w) = true ->
  sends_in_order body full ->
  let res := (s <- get_self ;;
              if negb (enabled s) then ret tt
              else try_except body (fun e => log ERROR (msg e)))%py w in
  sent_prefix (new_calls w (snd res)) full
  /\ (fst res = Ret tt -> new_logs w (snd res) = [] -> new_calls w (snd res) = full).
Proof.
  intros E C S res.
  assert (Hres : res = try_except body (fun e => log ERROR (msg e)) w)
    by (unfold res, bind, get_self; now rewrite E).
  rewrite Hres. clear Hres res.
  unfold try_except. destruct (S w C) as (cs & E1 & P & F).
  destruct (body w) as [[[] | e] w1]; cbn [fst snd] in *; subst w1.
  - rewrite (new_calls_app _ _ cs) by reflexivity.
    split; [exact P | intros _ _; now apply (F tt)].
  - destruct (is_Exception e); cbn [fst snd].
    + unfold log. cbn [fst snd].
      rewrite (new_calls_app _ _ cs) by reflexivity.
      rewrite (new_logs_app _ _ [(ERROR, msg e)]) by reflexivity.
      split; [exact P | intros _ H; discriminate H].
    + rewrite (new_calls_app _ _ cs) by reflexivity.
      split; [exact P | intros H; discriminate H].
Qed.

End Order.

(** X10.  Called on an enabled reporter, each score helper makes its calls
    in a fixed order and skips none: what it sent is an initial part of what
    it sends when nothing fails -- the five aggregate scores; for each pair
    the correctness score and then the judge score; one score per numeric
    item -- and it is all of it when the helper returned without logging an
    error.  (For the per-case helper, over records that read well.) *)
Theorem score_helpers_send_in_order
    (L : Langfuse) (w : World) (tid : string) (r : EvaluationResult) (mn : string)
    (tcs : list TestCase) (ragas : dict) :
  enabled (self w) = true -> client (self w) = true ->
  let sent m := new_calls w (snd (m w)) in
  let quiet_return (m : M unit) := fst (m w) = Ret tt /\ new_logs w (snd (m w)) = [] in
  (sent_prefix (sent (_push_overall_scores L tid r mn)) (overall_scores tid r mn)
   /\ (quiet_return (_push_overall_scores L tid r mn) ->
       sent (_push_overall_scores L tid r mn) = overall_scores tid r mn))
  /\ (forallb judgment_ok (detailed_results r) = true ->
      sent_prefix (sent (_push_case_scores L tid r tcs))
                  (case_calls tid 0 (combine (detailed_results r) tcs))
      /\ (quiet_return (_push_case_scores L tid r tcs) ->
          sent (_push_case_scores L tid r tcs)
          = case_calls tid 0 (combine (detailed_results r) tcs)))
  /\ (sent_prefix (sent (_push_ragas_scores L tid ragas))
                  (ragas_calls tid (before_overflow ragas))
      /\ (quiet_return (_push_ragas_scores L tid ragas) ->
          sent (_push_ragas_scores L tid ragas)
          = ragas_calls tid (before_overflow ragas))).
Proof.
  intros E C. cbv zeta. repeat split.
  - apply (guarded_helper_sends _ _ _ w E C (sends_push_overall_body L tid r mn)).
  - intros [H1 H2].
    now apply (guarded_helper_sends _ _ _ w E C (sends_push_overall_body L tid r mn)).
  - apply (guarded_helper_sends _ _ _ w E C).
    apply sends_case_loop. now apply forallb_combine_fst.
  - intros [H1 H2]. revert H1 H2.
    apply (guarded_helper_sends _ _ _ w E C).
    apply sends_case_loop. now apply forallb_combine_fst.
  - apply (guarded_helper_sends _ _ _ w E C (sends_ragas_loop L tid ragas)).
  - intros [H1 H2].
    now apply (guarded_helper_sends _ _ _ w E C (sends_ragas_loop L tid ragas)).
Qed.

Lemma score_helpers_send_in_order_witness :
  sent_prefix
    (new_calls (Sample.world Sample.live)
       (snd (_push_overall_scores (Sample.failing is_score Sample.timeout_error)
               "t" (Sample.result_of [] None) "gpt" (Sample.world Sample.live))))
    (overall_scores "t" (Sample.result_of [] None) "gpt").
Proof.
  exact (proj1 (proj1 (score_helpers_send_in_order
           (Sample.failing is_score Sample.timeout_error) (Sample.world Sample.live)
           "t" (Sample.result_of [] None) "gpt" [] [] eq_refl eq_refl))).
Defined.

(* ===================================================================== *)
(** * What the operations leave alone *)
(* ===================================================================== *)

Lemma perform_appends (L : Langfuse) (op : Operation) (w : World) :
  exists cs ls,
    perform L op w = mkWorld (self w) (calls w ++ cs) (logs w ++ ls) (environ w).
Proof.
  destruct op; simpl.
  - destruct (appends_run L evaluation_result model_name model_provider test_cases
                metadata w) as (cs & ls & E & _); eauto.
  - destruct (appends_single L test_case prediction model_name metadata w)
      as (cs & ls & E & _); eauto.
  - destruct (appends_close L w) as (cs & ls & E & _); eauto.
  - destruct (appends_push_overall L trace_id evaluation_result model_name w)
      as (cs & ls & E & _); eauto.
  - destruct (appends_push_cases L trace_id evaluation_result test_cases w)
      as (cs & ls & E & _); eauto.
  - destruct (appends_push_ragas L trace_id ragas w) as (cs & ls & E & _); eauto.
Qed.

(** X11.  The reporting operations, [close] and the helpers only ever add:
    after any sequence of them the calls made before and the records logged
    before are still there, in place, as an initial part of the calls and of
    the log, and [os.environ] is what it was -- only [__init__] writes the
    environment. *)
Theorem operations_only_append
    (L : Langfuse) (ops : list Operation) (w : World) :
  let w' := perform_all L ops w in
  environ w' = environ w
  /\ (exists cs, calls w' = calls w ++ cs)
  /\ (exists ls, logs w' = logs w ++ ls).
Proof.
  cbv zeta. revert w. induction ops as [| op ops IH]; intros w; simpl.
  - repeat split; exists []; now rewrite app_nil_r.
  - destruct (perform_appends L op w) as (cs & ls & E).
    destruct (IH (perform L op w)) as (He & (cs' & Hc) & (ls' & Hl)).
    fold (perform_all L ops (perform L op w)).
    rewrite He, Hc, Hl, E. cbn [environ calls logs].
    repeat split.
    + exists (cs ++ cs'). now rewrite app_assoc.
    + exists (ls ++ ls'). now rewrite app_assoc.
Qed.

(* ===================================================================== *)
(** * The trace id *)
(* ===================================================================== *)

Ltac on_trace_leaf :=
  solve [ auto with frame
        | apply appends_client_call; first [reflexivity | apply String.eqb_refl]
        | apply appends_library_call; first [reflexivity | apply String.eqb_refl] ].

Ltac on_trace_seq :=
  first [ on_trace_leaf
        | apply appends_bind; [on_trace_leaf | intros ?; on_trace_seq] ].

Section TraceId.

Variable L : Langfuse.

Lemma on_trace_push_overall tid r mn :
  appends (on_trace tid) (_push_overall_scores L tid r mn).
Proof.
  unfold _push_overall_scores. apply appends_bind; [on_trace_leaf |].
  intros s. destruct (negb (enabled s)); [on_trace_leaf |].
  apply appends_try_except; [on_trace_seq | intros e; on_trace_leaf].
Qed.

Lemma on_trace_case_loop tid pairs : forall i, appends (on_trace tid) (case_loop L tid i pairs).
Proof.
  induction pairs as [| [result test_case] rest IH]; intros i; simpl.
  - on_trace_leaf.
  - apply appends_bind; [on_trace_leaf | intros _].
    apply appends_bind; [| intros _; apply IH].
    destruct (dict_get "llm_judgment" result); [on_trace_seq | on_trace_leaf].
Qed.

Lemma on_trace_push_cases tid r tcs :
  appends (on_trace tid) (_push_case_scores L tid r tcs).
Proof.
  unfold _push_case_scores. apply appends_bind; [on_trace_leaf |].
  intros s. destruct (negb (enabled s)); [on_trace_leaf |].
  apply appends_try_except; [apply on_trace_case_loop | intros e; on_trace_leaf].
Qed.

Lemma on_trace_ragas_loop tid items : appends (on_trace tid) (ragas_loop L tid items).
Proof.
  induction items as [| [metric_name score] rest IH]; simpl.
  - on_trace_leaf.
  - apply appends_bind; [| intros _; apply IH].
    destruct (isinstance_int_float score); [on_trace_seq | on_trace_leaf].
Qed.

Lemma on_trace_push_ragas_if tid r :
  appends (on_trace tid) (push_ragas_if_available L tid r).
Proof.
  unfold push_ragas_if_available.
  destruct (ragas_scores r) as [[| kv d] |]; try on_trace_leaf.
  unfold _push_ragas_scores. apply appends_bind; [on_trace_leaf |].
  intros s. destruct (negb (enabled s)); [on_trace_leaf |].
  apply appends_try_except; [apply on_trace_ragas_loop | intros e; on_trace_leaf].
Qed.

Lemma create_trace_id_cases (w : World) :
  create_trace_id L w = (Ret (new_trace_id L (calls w)), add_call CreateTraceId w)
  \/ exists e, create_trace_id L w = (Raise e, w)
               \/ create_trace_id L w = (Raise e, add_call CreateTraceId w).
Proof.
  unfold create_trace_id, client_call, self_client, bind, get_self, library_call,
    ret, raise.
  destruct (client (self w)); [| eauto].
  destruct (raises L (calls w) CreateTraceId); eauto.
Qed.

Lemma returns_only_ret {A} (a : A) : returns_only a (ret a).
Proof. intros w x H. now inversion H. Qed.

Lemma returns_only_bind {A B} (b : B) (m : M A) (k : A -> M B) :
  (forall a, returns_only b (k a)) -> returns_only b (bind m k).
Proof.
  intros Hk w x. unfold bind. destruct (m w) as [[a | e] w1]; [apply Hk | discriminate].
Qed.

(** After the trace id: the rest of a traced operation, with its handler. *)
Lemma traced_operation (k : string -> M (option string)) (msg : exn -> string) (w : World) :
  (forall a, appends (on_trace a) (k a)) ->
  (forall a, returns_only (Some a) (k a)) ->
  let tid := new_trace_id L (calls w) in
  let res := try_except (trace_id <- create_trace_id L ;; k trace_id)
                        (fun e => log ERROR (msg e) ;; ret None) w in
  (exists cs ls,
      snd res = mkWorld (self w) (calls w ++ cs) (logs w ++ ls) (environ w)
      /\ forallb (on_trace tid) cs = true)
  /\ (forall id, fst res = Ret (Some id) -> id = tid).
Proof.
  intros Hk Hr tid res.
  destruct (create_trace_id_cases w) as [E | [e [E | E]]].
  - destruct (Hk tid (add_call CreateTraceId w)) as (cs & ls & Ew & F).
    specialize (Hr tid (add_call CreateTraceId w)).
    assert (Hres : res = match k tid (add_call CreateTraceId w) with
                         | (Ret a, w') => (Ret a, w')
                         | (Raise e, w') =>
                             if is_Exception e
                             then (Ret None, add_log ERROR (msg e) w')
                             else (Raise e, w')
                         end).
    { unfold res, try_except, bind at 1. rewrite E. fold tid.
      destruct (k tid (add_call CreateTraceId w)) as [[x | e] w1]; [reflexivity |].
      destruct (is_Exception e); reflexivity. }
    rewrite Hres. clear Hres.
    destruct (k tid (add_call CreateTraceId w)) as [[x | e] w1];
      cbn [fst snd calls logs self environ add_call] in *; subst w1.
    + split.
      * exists (CreateTraceId :: cs), ls. rewrite <- app_assoc. split; [reflexivity |].
        exact F.
      * intros id H. specialize (Hr _ eq_refl). rewrite Hr in H. now inversion H.
    + destruct (is_Exception e); unfold add_log;
        cbn [fst snd calls logs self environ]; (split; [| discriminate]).
      * exists (CreateTraceId :: cs), (ls ++ [(ERROR, msg e)]).
        rewrite <- !app_assoc. split; [reflexivity | exact F].
      * exists (CreateTraceId :: cs), ls. rewrite <- app_assoc.
        split; [reflexivity | exact F].
  - assert (Hres : res = if is_Exception e
                         then (Ret None, add_log ERROR (msg e) w) else (Raise e, w)).
    { unfold res, try_except, bind at 1. rewrite E.
      destruct (is_Exception e); reflexivity. }
    rewrite Hres. clear Hres.
    destruct (is_Exception e); unfold add_log;
      cbn [fst snd calls logs self environ]; (split; [| discriminate]).
    + exists [], [(ERROR, msg e)]. rewrite app_nil_r. split; reflexivity.
    + exists [], []. rewrite <- world_eta. split; reflexivity.
  - assert (Hres : res = if is_Exception e
                         then (Ret None, add_log ERROR (msg e) (add_call CreateTraceId w))
                         else (Raise e, add_call CreateTraceId w)).
    { unfold res, try_except, bind at 1. rewrite E.
      destruct (is_Exception e); reflexivity. }
    rewrite Hres. clear Hres.
    destruct (is_Exception e); unfold add_log, add_call;
      cbn [fst snd calls logs self environ]; (split; [| discriminate]).
    + exists [CreateTraceId], [(ERROR, msg e)]. split; reflexivity.
    + exists [CreateTraceId], []. rewrite app_nil_r. split; reflexivity.
Qed.

End TraceId.

Lemma on_trace_in (tid : string) (cs : list Call) t n v c :
  forallb (on_trace tid) cs = true -> In (CreateScore t n v c) cs -> t = tid.
Proof.
  intros F I. rewrite forallb_forall in F. apply F in I. now apply String.eqb_eq.
Qed.

Lemma run_traced (L : Langfuse) r mn mp tcs md (w : World) :
  enabled (self w) = true ->
  let tid := new_trace_id L (calls w) in
  let res := trace_evaluation_run L r mn mp tcs md w in
  (exists cs ls,
      snd res = mkWorld (self w) (calls w ++ cs) (logs w ++ ls) (environ w)
      /\ forallb (on_trace tid) cs = true)
  /\ (forall id, fst res = Ret (Some id) -> id = tid).
Proof.
  intros E tid res.
  assert (Hres : res = try_except
            (trace_id <- create_trace_id L ;;
             with_span L ("fraud_detection_evaluation_" ++ mn)%string
               (client_call L (UpdateCurrentTrace ("fraud_detection_evaluation_" ++ mn)%string
                                 (trace_metadata r mn mp tcs md)) ;;
                _push_overall_scores L trace_id r mn ;;
                _push_case_scores L trace_id r tcs ;;
                push_ragas_if_available L trace_id r ;;
                library_call L (SpanUpdate (run_output r tcs))) ;;
             client_call L Flush ;;
             log INFO ("Evaluation trace created with ID: " ++ trace_id)%string ;;
             ret (Some trace_id))
            (fun e => log ERROR ("Failed to create evaluation trace: " ++ exn_text e)%string ;;
                      ret None) w).
  { unfold res, trace_evaluation_run, bind at 1, get_self. now rewrite E. }
  rewrite Hres. clear Hres res.
  apply (traced_operation L
           (fun trace_id =>
              with_span L ("fraud_detection_evaluation_" ++ mn)%string
                (client_call L (UpdateCurrentTrace
                                  ("fraud_detection_evaluation_" ++ mn)%string
                                  (trace_metadata r mn mp tcs md)) ;;
                 _push_overall_scores L trace_id r mn ;;
                 _push_case_scores L trace_id r tcs ;;
                 push_ragas_if_available L trace_id r ;;
                 library_call L (SpanUpdate (run_output r tcs))) ;;
              client_call L Flush ;;
              log INFO ("Evaluation trace created with ID: " ++ trace_id)%string ;;
              ret (Some trace_id))
           (fun e => ("Failed to create evaluation trace: " ++ exn_text e)%string)).
  - intros a.
    apply appends_bind; [| intros _; on_trace_seq].
    apply appends_with_span; [reflexivity | reflexivity |].
    apply appends_bind; [on_trace_leaf | intros _].
    apply appends_bind; [apply on_trace_push_overall | intros _].
    apply appends_bind; [apply on_trace_push_cases | intros _].
    apply appends_bind; [apply on_trace_push_ragas_if | intros _; on_trace_leaf].
  - intros a. repeat (apply returns_only_bind; intros ?). apply returns_only_ret.
Qed.

Lemma single_traced (L : Langfuse) tc p mn md (w : World) :
  enabled (self w) = true ->
  let tid := new_trace_id L (calls w) in
  let res := trace_single_case_evaluation L tc p mn md w in
  (exists cs ls,
      snd res = mkWorld (self w) (calls w ++ cs) (logs w ++ ls) (environ w)
      /\ forallb (on_trace tid) cs = true)
  /\ (forall id, fst res = Ret (Some id) -> id = tid).
Proof.
  intros E tid res.
  assert (Hres : res = try_except
            (trace_id <- create_trace_id L ;;
             with_span L ("single_case_evaluation_" ++ mn)%string
               (client_call L (UpdateCurrentTrace ("single_case_evaluation_" ++ mn)%string
                                 (single_case_metadata tc p mn md)) ;;
                client_call L (single_case_score trace_id tc p) ;;
                library_call L (SpanUpdate (single_case_output tc p))) ;;
             client_call L Flush ;;
             ret (Some trace_id))
            (fun e => log ERROR ("Failed to create single case trace: " ++ exn_text e)%string ;;
                      ret None) w).
  { unfold res, trace_single_case_evaluation, bind at 1, get_self. now rewrite E. }
  rewrite Hres. clear Hres res.
  apply (traced_operation L
           (fun trace_id =>
              with_span L ("single_case_evaluation_" ++ mn)%string
                (client_call L (UpdateCurrentTrace ("single_case_evaluation_" ++ mn)%string
                                  (single_case_metadata tc p mn md)) ;;
                 client_call L (single_case_score trace_id tc p) ;;
                 library_call L (SpanUpdate (single_case_output tc p))) ;;
              client_call L Flush ;;
              ret (Some trace_id))
           (fun e => ("Failed to create single case trace: " ++ exn_text e)%string)).
  - intros a.
    apply appends_bind; [| intros _; on_trace_seq].
    apply appends_with_span; [reflexivity | reflexivity | on_trace_seq].
  - intros a. repeat (apply returns_only_bind; intros ?). apply returns_only_ret.
Qed.

(** X12.  Whatever the library does, every score a reporting operation
    emits is attached to the trace id that [create_trace_id] handed out at
    the start of that operation, and an operation that returns an id returns
    that same id. *)
Theorem scores_carry_the_returned_trace_id
    (L : Langfuse) (w : World)
    (r : EvaluationResult) (mn mp : string) (tcs : list TestCase) (md : option dict)
    (tc : TestCase) (p : dict) :
  let tid := new_trace_id L (calls w) in
  let run := trace_evaluation_run L r mn mp tcs md w in
  let single := trace_single_case_evaluation L tc p mn md w in
  (forall t n v c, In (CreateScore t n v c) (new_calls w (snd run)) -> t = tid)
  /\ (forall id, fst run = Ret (Some id) -> id = tid)
  /\ (forall t n v c, In (CreateScore t n v c) (new_calls w (snd single)) -> t = tid)
  /\ (forall id, fst single = Ret (Some id) -> id = tid).
Proof.
  cbv zeta. destruct (enabled (self w)) eqn:E.
  - destruct (run_traced L r mn mp tcs md w E) as ((cs & ls & Ew & F) & Hid).
    destruct (single_traced L tc p mn md w E) as ((cs' & ls' & Ew' & F') & Hid').
    repeat split; try assumption.
    + intros t n v c. rewrite (new_calls_app w _ cs) by (now rewrite Ew).
      now apply on_trace_in.
    + intros t n v c. rewrite (new_calls_app w _ cs') by (now rewrite Ew').
      now apply on_trace_in.
  - assert (Er : trace_evaluation_run L r mn mp tcs md w = (Ret None, w))
      by (unfold trace_evaluation_run, bind, get_self; now rewrite E).
    assert (Es : trace_single_case_evaluation L tc p mn md w = (Ret None, w))
      by (unfold trace_single_case_evaluation, bind, get_self; now rewrite E).
    rewrite Er, Es. cbn [fst snd]. rewrite new_calls_same.
    repeat split; try discriminate; intros; contradiction.
Qed.

(* ===================================================================== *)
(** * The span is always left *)
(* ===================================================================== *)

Lemma score_not_exit (c : Call) : is_score c = true -> is_span_exit c = false.
Proof. destruct c; simpl; congruence. Qed.

Lemma case_call_not_exit (c : Call) : is_case_call c = true -> is_span_exit c = false.
Proof. intros H. now apply score_not_exit, case_call_is_score. Qed.

Lemma ragas_call_not_exit (c : Call) : is_ragas_call c = true -> is_span_exit c = false.
Proof. intros H. now apply score_not_exit, ragas_call_is_score. Qed.

Ltac drop_scores :=
  rewrite ?filter_app;
  repeat match goal with
         | F : forallb is_score ?cs = true |- context [filter is_span_exit ?cs] =>
             rewrite (filter_disjoint is_span_exit is_score cs score_not_exit F)
         | F : forallb is_case_call ?cs = true |- context [filter is_span_exit ?cs] =>
             rewrite (filter_disjoint is_span_exit is_case_call cs case_call_not_exit F)
         | F : forallb is_ragas_call ?cs = true |- context [filter is_span_exit ?cs] =>
             rewrite (filter_disjoint is_span_exit is_ragas_call cs ragas_call_not_exit F)
         end.

Ltac leaf_any :=
  repeat match goal with
         | |- context [is_Exception ?e] => destruct (is_Exception e)
         end;
  intros Run; apply pair_equal_spec in Run as [<- <-]; norm_world;
  cbn [span_entered filter is_span_exit app]; use_raises;
  drop_scores;
  cbn [span_entered filter is_span_exit app List.length]; use_raises;
  try reflexivity.

Section SpanIsLeft.

Variable L : Langfuse.

Ltac helper_any H W :=
  let cs := fresh "cs" in
  let ls := fresh "ls" in
  let Ew := fresh "Ew" in
  let Fs := fresh "Fs" in
  let oh := fresh "oh" in
  let wh := fresh "wh" in
  destruct (H W) as (cs & ls & Ew & Fs);
  match type of Ew with
  | snd (?m ?w0) = _ => destruct (m w0) as [oh wh]
  end;
  cbn [snd calls logs self environ add_call add_log] in Ew; subst wh;
  destruct oh as [[] | ?];
  cbn [calls logs self environ add_call add_log].

Ltac helper_next :=
  cbn [calls logs self environ add_call add_log];
  match goal with
  | |- context [_push_overall_scores L ?t ?r ?m ?W] =>
      helper_any (appends_push_overall L t r m) W
  | |- context [_push_case_scores L ?t ?r ?tcs ?W] =>
      helper_any (appends_push_cases L t r tcs) W
  | |- context [push_ragas_if_available L ?t ?r ?W] =>
      helper_any (appends_push_ragas_if L t r) W
  end.

Lemma single_leaves_span tc p mn md w :
  let cs := new_calls w (snd (trace_single_case_evaluation L tc p mn md w)) in
  List.length (filter is_span_exit cs)
  = if span_entered L (calls w) cs then 1 else 0.
Proof.
  cbv zeta.
  destruct (trace_single_case_evaluation L tc p mn md w) as [o wf] eqn:Run.
  revert Run.
  unfold trace_single_case_evaluation, bind at 1, get_self.
  destruct (enabled (self w)); cbn [negb]; [| unfold ret; leaf_any].
  unfold try_except, create_trace_id, with_span, client_call, self_client, bind,
    get_self, library_call, ret, log, raise.
  destruct (client (self w)) eqn:C; [| leaf_any].
  next_raise R1. { leaf_any. }
  next_raise R2. { leaf_any. }
  next_raise R3. { next_raise R4; leaf_any. }
  next_raise R4. { next_raise R5; leaf_any. }
  next_raise R5. { next_raise R6; leaf_any. }
  next_raise R6. { leaf_any. }
  next_raise R7; leaf_any.
Qed.

Lemma run_leaves_span r mn mp tcs md w :
  let cs := new_calls w (snd (trace_evaluation_run L r mn mp tcs md w)) in
  List.length (filter is_span_exit cs)
  = if span_entered L (calls w) cs then 1 else 0.
Proof.
  cbv zeta.
  destruct (trace_evaluation_run L r mn mp tcs md w) as [o wf] eqn:Run.
  revert Run.
  unfold trace_evaluation_run, bind at 1, get_self.
  destruct (enabled (self w)); cbn [negb]; [| unfold ret; leaf_any].
  unfold try_except, create_trace_id, with_span, client_call, self_client, bind,
    get_self, library_call, ret, log, raise.
  destruct (client (self w)) eqn:C; [| leaf_any].
  next_raise R1. { leaf_any. }
  next_raise R2. { leaf_any. }
  next_raise R3. { next_raise R4; leaf_any. }
  helper_next; [| next_raise R4; leaf_any].
  helper_next; [| next_raise R4; leaf_any].
  helper_next; [| next_raise R4; leaf_any].
  next_raise R5. { next_raise R6; leaf_any. }
  next_raise R6. { leaf_any. }
  next_raise R7; leaf_any.
Qed.

End SpanIsLeft.

(** X13.  A span that was entered is always left, once: in either reporting
    operation, whatever the library raises and wherever -- also an exception
    that is not caught, such as [KeyboardInterrupt] -- the calls made contain
    exactly one exit of the span when [start_as_current_span] returned, and
    none when it was not reached or raised. *)
Theorem entered_span_is_always_left
    (L : Langfuse) (w : World)
    (r : EvaluationResult) (mn mp : string) (tcs : list TestCase) (md : option dict)
    (tc : TestCase) (p : dict) :
  let run_calls := new_calls w (snd (trace_evaluation_run L r mn mp tcs md w)) in
  let single_calls := new_calls w (snd (trace_single_case_evaluation L tc p mn md w)) in
  List.length (filter is_span_exit run_calls)
  = (if span_entered L (calls w) run_calls then 1 else 0)
  /\ List.length (filter is_span_exit single_calls)
     = (if span_entered L (calls w) single_calls then 1 else 0).
Proof.
  split; [apply run_leaves_span | apply single_leaves_span].
Qed.

(* ===================================================================== *)
(** * The module-level accessor and entry point *)
(* ===================================================================== *)

Lemma skipn_length_app {A} (l l' : list A) : skipn (List.length l) (l ++ l') = l'.
Proof. induction l as [| x l IH]; simpl; [reflexivity | exact IH]. Qed.

Lemma process_new_calls_same (p : Process) : process_new_calls p p = [].
Proof. unfold process_new_calls. apply skipn_all. Qed.

(** The first access in closed form: the constructor is called without
    arguments on a new object. *)
Lemma first_access (L : Langfuse) (p : Process) :
  _global_tracer p = None ->
  get_langfuse_tracer L p =
  match __init__ L None None None None
          (mkWorld blank (process_calls p) (process_logs p) (process_environ p)) with
  | (Ret _, w) => (Ret (self w), process_of (Some (self w)) w)
  | (Raise e, w) => (Raise e, process_of None w)
  end.
Proof. intros G. unfold get_langfuse_tracer, world_of. now rewrite G. Qed.

(** X14.  The global tracer is created once: an access that returns leaves
    the tracer it returned in the global, so that the next access returns
    the same tracer and changes nothing; an access that found the global set
    returned it unchanged; and an access makes no call on the library, or
    the one [get_client] of the constructor. *)
Theorem global_tracer_is_created_once
    (L : Langfuse) (p p' : Process) (t : LangfuseTracer) :
  get_langfuse_tracer L p = (Ret t, p') ->
  _global_tracer p' = Some t
  /\ get_langfuse_tracer L p' = (Ret t, p')
  /\ (forall t0, _global_tracer p = Some t0 -> t = t0 /\ p' = p)
  /\ (process_new_calls p p' = []
      \/ exists k, _global_tracer p = None /\ process_new_calls p p' = [GetClient k]).
Proof.
  intros H.
  destruct (_global_tracer p) as [t0 |] eqn:G.
  - unfold get_langfuse_tracer in H. rewrite G in H.
    apply pair_equal_spec in H as [H1 <-]. inversion H1. subst t0.
    split; [| split; [| split]].
    + exact G.
    + unfold get_langfuse_tracer. now rewrite G.
    + intros t1 E. now inversion E.
    + left. apply process_new_calls_same.
  - rewrite (first_access L p G), init_cases in H.
    assert (Set_global : forall w : World,
               (Ret (self w), process_of (Some (self w)) w) = (Ret t, p') ->
               _global_tracer p' = Some t /\ get_langfuse_tracer L p' = (Ret t, p')).
    { intros w E. apply pair_equal_spec in E as [E1 <-]. inversion E1.
      split; reflexivity. }
    destruct (negb (requested_enabled None (process_environ p) && LANGFUSE_AVAILABLE L)).
    { destruct (Set_global _ H) as [S1 S2].
      apply pair_equal_spec in H as [_ <-].
      split; [exact S1 | split; [exact S2 | split; [discriminate |]]].
      left. unfold process_new_calls, process_of. cbn [process_calls calls].
      apply skipn_all. }
    destruct (negb (str_truthy (effective_key None "LANGFUSE_PUBLIC_KEY" (process_environ p)))
              || negb (str_truthy (effective_key None "LANGFUSE_SECRET_KEY" (process_environ p)))).
    { destruct (Set_global _ H) as [S1 S2].
      apply pair_equal_spec in H as [_ <-].
      split; [exact S1 | split; [exact S2 | split; [discriminate |]]].
      left. unfold process_new_calls, process_of. cbn [process_calls calls].
      apply skipn_all. }
    destruct (negb (exportable _ _ _)).
    { destruct (Set_global _ H) as [S1 S2].
      apply pair_equal_spec in H as [_ <-].
      split; [exact S1 | split; [exact S2 | split; [discriminate |]]].
      left. unfold process_new_calls, process_of. cbn [process_calls calls].
      apply skipn_all. }
    destruct (raises L (process_calls p) _) as [e |].
    + destruct (is_Exception e); [| discriminate H].
      destruct (Set_global _ H) as [S1 S2].
      apply pair_equal_spec in H as [_ <-].
      split; [exact S1 | split; [exact S2 | split; [discriminate |]]].
      right. eexists. split; [reflexivity |].
      unfold process_new_calls, process_of. cbn [process_calls calls].
      apply skipn_length_app.
    + destruct (Set_global _ H) as [S1 S2].
      apply pair_equal_spec in H as [_ <-].
      split; [exact S1 | split; [exact S2 | split; [discriminate |]]].
      right. eexists. split; [reflexivity |].
      unfold process_new_calls, process_of. cbn [process_calls calls].
      apply skipn_length_app.
Qed.

Lemma global_tracer_is_created_once_witness :
  get_langfuse_tracer Sample.quiet (SampleEnv.fresh SampleEnv.credentials)
  = (Ret (mkTracer true (Some "pk-env"%string) (Some "sk-env"%string)
            (Some "https://us.cloud.langfuse.com"%string) true),
     snd (get_langfuse_tracer Sample.quiet (SampleEnv.fresh SampleEnv.credentials)))
  /\ get_langfuse_tracer Sample.quiet
       (snd (get_langfuse_tracer Sample.quiet (SampleEnv.fresh SampleEnv.credentials)))
     = (Ret (mkTracer true (Some "pk-env"%string) (Some "sk-env"%string)
               (Some "https://us.cloud.langfuse.com"%string) true),
        snd (get_langfuse_tracer Sample.quiet (SampleEnv.fresh SampleEnv.credentials))).
Proof.
  assert (H : get_langfuse_tracer Sample.quiet (SampleEnv.fresh SampleEnv.credentials)
              = (Ret (mkTracer true (Some "pk-env"%string) (Some "sk-env"%string)
                        (Some "https://us.cloud.langfuse.com"%string) true),
                 snd (get_langfuse_tracer Sample.quiet
                        (SampleEnv.fresh SampleEnv.credentials))))
    by (vm_compute; reflexivity).
  split; [exact H |].
  exact (proj1 (proj2 (global_tracer_is_created_once Sample.quiet _ _ _ H))).
Defined.

(** X15.  An access can fail, and then the global stays unset: the only
    exception that leaves [get_langfuse_tracer] is one that
    [langfuse.get_client] raised in the constructor and that does not derive
    from [Exception]; the global was unset and is still unset, so the next
    access constructs again; nothing was logged, and the credentials read
    from the environment were written back to it. *)
Theorem failed_first_access_leaves_global_unset
    (L : Langfuse) (p p' : Process) (e : exn) :
  get_langfuse_tracer L p = (Raise e, p') ->
  let env := process_environ p in
  let pkv := env_get "LANGFUSE_PUBLIC_KEY" env in
  let skv := env_get "LANGFUSE_SECRET_KEY" env in
  _global_tracer p = None
  /\ _global_tracer p' = None
  /\ is_Exception e = false
  /\ raises L (process_calls p) (GetClient (key_text pkv)) = Some e
  /\ process_new_calls p p' = [GetClient (key_text pkv)]
  /\ process_logs p' = process_logs p
  /\ process_environ p' = exported_environ pkv skv (effective_host None env) env.
Proof.
  intros H. cbv zeta.
  destruct (_global_tracer p) as [t0 |] eqn:G.
  { unfold get_langfuse_tracer in H. rewrite G in H. discriminate H. }
  rewrite (first_access L p G), init_cases in H. revert H.
  change (effective_key None "LANGFUSE_PUBLIC_KEY" (process_environ p))
    with (env_get "LANGFUSE_PUBLIC_KEY" (process_environ p)).
  change (effective_key None "LANGFUSE_SECRET_KEY" (process_environ p))
    with (env_get "LANGFUSE_SECRET_KEY" (process_environ p)).
  destruct (negb (requested_enabled None (process_environ p) && LANGFUSE_AVAILABLE L));
    [discriminate |].
  destruct (negb (str_truthy (env_get "LANGFUSE_PUBLIC_KEY" (process_environ p)))
            || negb (str_truthy (env_get "LANGFUSE_SECRET_KEY" (process_environ p))));
    [discriminate |].
  destruct (negb (exportable _ _ _)); [discriminate |].
  destruct (raises L (process_calls p) _) as [e0 |] eqn:R; [| discriminate].
  destruct (is_Exception e0) eqn:X; [discriminate |].
  intros H. apply pair_equal_spec in H as [H1 <-]. inversion H1. subst e0.
  repeat split; try assumption; try reflexivity.
  unfold process_new_calls, process_of. cbn [process_calls calls].
  apply skipn_length_app.
Qed.

Lemma failed_first_access_leaves_global_unset_witness :
  get_langfuse_tracer (Sample.failing SampleEnv.is_get_client Sample.keyboard_interrupt)
    (SampleEnv.fresh SampleEnv.credentials)
  = (Raise Sample.keyboard_interrupt,
     snd (get_langfuse_tracer
            (Sample.failing SampleEnv.is_get_client Sample.keyboard_interrupt)
            (SampleEnv.fresh SampleEnv.credentials)))
  /\ _global_tracer
       (snd (get_langfuse_tracer
               (Sample.failing SampleEnv.is_get_client Sample.keyboard_interrupt)
               (SampleEnv.fresh SampleEnv.credentials))) = None.
Proof.
  assert (H : get_langfuse_tracer
                (Sample.failing SampleEnv.is_get_client Sample.keyboard_interrupt)
                (SampleEnv.fresh SampleEnv.credentials)
              = (Raise Sample.keyboard_interrupt,
                 snd (get_langfuse_tracer
                        (Sample.failing SampleEnv.is_get_client Sample.keyboard_interrupt)
                        (SampleEnv.fresh SampleEnv.credentials))))
    by (vm_compute; reflexivity).
  split; [exact H |].
  exact (proj1 (proj2 (failed_first_access_leaves_global_unset _ _ _ _ H))).
Defined.

Lemma reporting_of_score (c : Call) : is_score c = true -> is_reporting c = true.
Proof. destruct c; intros H; try discriminate H; reflexivity. Qed.

Lemma reporting_not_lifecycle (c : Call) : is_reporting c = true -> is_lifecycle c = false.
Proof. unfold is_reporting. now destruct (is_lifecycle c). Qed.

Section Reporting.

Variable L : Langfuse.

Lemma reporting_run r mn mp tcs md :
  appends is_reporting (trace_evaluation_run L r mn mp tcs md).
Proof.
  unfold trace_evaluation_run. apply appends_bind; [frame_leaf |].
  intros s. destruct (negb (enabled s)); [frame_leaf |].
  apply appends_try_except; [| intros e; frame_seq].
  apply appends_bind; [frame_leaf | intros tid].
  apply appends_bind; [| intros _; frame_seq].
  apply appends_with_span; [reflexivity | reflexivity |].
  apply appends_bind; [frame_leaf | intros _].
  apply appends_bind;
    [apply (appends_weaken is_score), appends_push_overall; exact reporting_of_score
    | intros _].
  apply appends_bind;
    [apply (appends_weaken is_case_call), appends_push_cases;
     intros c H; apply reporting_of_score, case_call_is_score, H
    | intros _].
  apply appends_bind;
    [apply (appends_weaken is_ragas_call), appends_push_ragas_if;
     intros c H; apply reporting_of_score, ragas_call_is_score, H
    | intros _; frame_leaf].
Qed.

Lemma reporting_single tc p mn md :
  appends is_reporting (trace_single_case_evaluation L tc p mn md).
Proof.
  unfold trace_single_case_evaluation. apply appends_bind; [frame_leaf |].
  intros s. destruct (negb (enabled s)); [frame_leaf |].
  apply appends_try_except; [| intros e; frame_seq].
  apply appends_bind; [frame_leaf | intros tid].
  apply appends_bind; [| intros _; frame_seq].
  apply appends_with_span; [reflexivity | reflexivity |].
  frame_seq.
Qed.

Lemma appended_calls_none (m : M (option string)) (w : World) :
  appends is_reporting m -> filter is_lifecycle (new_calls w (snd (m w))) = [].
Proof.
  intros H. destruct (H w) as (cs & ls & E & F). rewrite E.
  erewrite new_calls_app by reflexivity.
  exact (filter_disjoint is_lifecycle is_reporting cs reporting_not_lifecycle F).
Qed.

End Reporting.

(** X17.  The reporting operations never make the client and never end it:
    whatever the library does and whatever state the reporter is in, no call
    of a full run or of a single-case report is [langfuse.get_client] or
    [shutdown]. *)
Theorem reporting_never_makes_or_ends_the_client
    (L : Langfuse) (w : World)
    (r : EvaluationResult) (mn mp : string) (tcs : list TestCase) (md : option dict)
    (tc : TestCase) (p : dict) :
  filter is_lifecycle (new_calls w (snd (trace_evaluation_run L r mn mp tcs md w))) = []
  /\ filter is_lifecycle
       (new_calls w (snd (trace_single_case_evaluation L tc p mn md w))) = [].
Proof.
  split.
  - apply appended_calls_none, reporting_run.
  - apply appended_calls_none, reporting_single.
Qed.

(** An access returns when the library raises nothing but [Exception]s. *)
Lemma access_returns (L : Langfuse) (p : Process) :
  raises_only_Exception L ->
  exists t p', get_langfuse_tracer L p = (Ret t, p') /\ _global_tracer p' = Some t.
Proof.
  intros OE.
  destruct (_global_tracer p) as [t0 |] eqn:G.
  - exists t0, p. split; [| exact G]. unfold get_langfuse_tracer. now rewrite G.
  - rewrite (first_access L p G), init_cases.
    destruct (negb (requested_enabled None (process_environ p) && LANGFUSE_AVAILABLE L)).
    { eexists. eexists. split; reflexivity. }
    destruct (negb (str_truthy (effective_key None "LANGFUSE_PUBLIC_KEY" (process_environ p)))
              || negb (str_truthy (effective_key None "LANGFUSE_SECRET_KEY" (process_environ p)))).
    { eexists. eexists. split; reflexivity. }
    destruct (negb (exportable _ _ _)).
    { eexists. eexists. split; reflexivity. }
    destruct (raises L (process_calls p) _) as [e |] eqn:R.
    + rewrite (OE _ _ _ R). eexists. eexists. split; reflexivity.
    + eexists. eexists. split; reflexivity.
Qed.

(** [trace_evaluation] once the tracer is at hand. *)
Lemma trace_evaluation_after_access
    (L : Langfuse) r mn mp tcs md (p p' : Process) (t : LangfuseTracer) :
  get_langfuse_tracer L p = (Ret t, p') ->
  trace_evaluation L r mn mp tcs md p =
  if enabled t then
    (fst (trace_evaluation_run L r mn mp tcs md (world_of t p')),
     process_of (Some t) (snd (trace_evaluation_run L r mn mp tcs md (world_of t p'))))
  else (Ret None, p').
Proof.
  intros H. unfold trace_evaluation. rewrite H.
  destruct (enabled t); [| reflexivity].
  destruct (appends_run L r mn mp tcs md (world_of t p')) as (cs & ls & E & _).
  destruct (trace_evaluation_run L r mn mp tcs md (world_of t p')) as [o w1].
  cbn [fst snd] in *. rewrite E. reflexivity.
Qed.

(** X18.  The convenience function returns whenever every exception of the
    library derives from [Exception] -- whether the global tracer has to be
    constructed first or is there, enabled or not, with or without a client
    -- and the global is set when it has returned. *)
Theorem trace_evaluation_absorbs_library_errors
    (L : Langfuse) (r : EvaluationResult) (mn mp : string) (tcs : list TestCase)
    (md : option dict) (p : Process) :
  raises_only_Exception L ->
  (exists out, fst (trace_evaluation L r mn mp tcs md p) = Ret out)
  /\ exists t, _global_tracer (snd (trace_evaluation L r mn mp tcs md p)) = Some t.
Proof.
  intros OE.
  destruct (access_returns L p OE) as (t & p' & A & G).
  rewrite (trace_evaluation_after_access L r mn mp tcs md p p' t A).
  destruct (enabled t); cbn [fst snd].
  - split; [apply (returns_run L OE) | now exists t].
  - split; [now exists None | now exists t].
Qed.

Lemma trace_evaluation_absorbs_library_errors_witness :
  raises_only_Exception (Sample.failing SampleEnv.is_get_client Sample.timeout_error)
  /\ exists out,
       fst (trace_evaluation
              (Sample.failing SampleEnv.is_get_client Sample.timeout_error)
              (Sample.result_of Sample.three_details None) "gpt" "openai"
              Sample.five_cases None (SampleEnv.fresh SampleEnv.credentials)) = Ret out.
Proof.
  assert (OE : raises_only_Exception
                 (Sample.failing SampleEnv.is_get_client Sample.timeout_error)).
  { intros hh c e H. simpl in H. destruct (SampleEnv.is_get_client c); inversion H.
    reflexivity. }
  split; [exact OE |].
  exact (proj1 (trace_evaluation_absorbs_library_errors
                  (Sample.failing SampleEnv.is_get_client Sample.timeout_error)
                  (Sample.result_of Sample.three_details None) "gpt" "openai"
                  Sample.five_cases None (SampleEnv.fresh SampleEnv.credentials) OE)).
Defined.

(** X19.  Once the global is set, [trace_evaluation] works on that tracer
    and keeps it: the global is the same tracer afterwards, no call is
    [langfuse.get_client] or [shutdown], and the environment is not written;
    with a disabled tracer the function returns [None] and changes
    nothing. *)
Theorem trace_evaluation_reuses_the_global_tracer
    (L : Langfuse) (r : EvaluationResult) (mn mp : string) (tcs : list TestCase)
    (md : option dict) (p : Process) (t : LangfuseTracer) :
  _global_tracer p = Some t ->
  let res := trace_evaluation L r mn mp tcs md p in
  _global_tracer (snd res) = Some t
  /\ filter is_lifecycle (process_new_calls p (snd res)) = []
  /\ process_environ (snd res) = process_environ p
  /\ (enabled t = false -> res = (Ret None, p)).
Proof.
  intros G. cbv zeta.
  assert (A : get_langfuse_tracer L p = (Ret t, p))
    by (unfold get_langfuse_tracer; now rewrite G).
  rewrite (trace_evaluation_after_access L r mn mp tcs md p p t A).
  destruct (enabled t); cbn [fst snd].
  - destruct (reporting_run L r mn mp tcs md (world_of t p)) as (cs & ls & E & F).
    rewrite E. unfold process_of, process_new_calls, world_of.
    cbn [_global_tracer process_calls process_environ calls environ self].
    rewrite skipn_length_app.
    split; [reflexivity | split; [| split; [reflexivity | discriminate]]].
    exact (filter_disjoint is_lifecycle is_reporting cs reporting_not_lifecycle F).
  - rewrite process_new_calls_same.
    split; [exact G | split; [reflexivity | split; reflexivity]].
Qed.

Lemma trace_evaluation_reuses_the_global_tracer_witness :
  _global_tracer (snd (set_langfuse_tracer Sample.live (SampleEnv.fresh []))) = Some Sample.live
  /\ _global_tracer
       (snd (trace_evaluation Sample.quiet
               (Sample.result_of Sample.three_details None) "gpt" "openai"
               Sample.five_cases None
               (snd (set_langfuse_tracer Sample.live (SampleEnv.fresh [])))))
     = Some Sample.live.
Proof.
  split; [reflexivity |].
  exact (proj1 (trace_evaluation_reuses_the_global_tracer Sample.quiet
                  (Sample.result_of Sample.three_details None) "gpt" "openai"
                  Sample.five_cases None
                  (snd (set_langfuse_tracer Sample.live (SampleEnv.fresh [])))
                  Sample.live eq_refl)).
Defined.

(** X20.  Credentials that are missing at the first use disable the entry
    point for good: when the global is unset and the environment holds no
    public key or no secret key, [trace_evaluation] returns [None] without a
    call on the library, and every later [trace_evaluation] returns [None]
    and changes nothing, also after the environment was given the
    credentials. *)
Theorem missing_credentials_disable_the_entry_point_for_good
    (L : Langfuse) (r : EvaluationResult) (mn mp : string) (tcs : list TestCase)
    (md : option dict) (p : Process) :
  _global_tracer p = None ->
  str_truthy (env_get "LANGFUSE_PUBLIC_KEY" (process_environ p))
  && str_truthy (env_get "LANGFUSE_SECRET_KEY" (process_environ p)) = false ->
  let p1 := snd (trace_evaluation L r mn mp tcs md p) in
  fst (trace_evaluation L r mn mp tcs md p) = Ret None
  /\ process_new_calls p p1 = []
  /\ forall env' r' mn' mp' tcs' md',
       trace_evaluation L r' mn' mp' tcs' md' (with_environ env' p1)
       = (Ret None, with_environ env' p1).
Proof.
  intros G K. cbv zeta.
  assert (Later : forall (t : LangfuseTracer) (q : Process),
             _global_tracer q = Some t -> enabled t = false ->
             forall env' r' mn' mp' tcs' md',
               trace_evaluation L r' mn' mp' tcs' md' (with_environ env' q)
               = (Ret None, with_environ env' q)).
  { intros t q Gq Dis env' r' mn' mp' tcs' md'.
    assert (A : get_langfuse_tracer L (with_environ env' q) = (Ret t, with_environ env' q))
      by (unfold get_langfuse_tracer, with_environ; cbn [_global_tracer]; now rewrite Gq).
    rewrite (trace_evaluation_after_access L r' mn' mp' tcs' md' _ _ t A).
    now rewrite Dis. }
  assert (No_keys : negb (str_truthy (effective_key None "LANGFUSE_PUBLIC_KEY" (process_environ p)))
                    || negb (str_truthy (effective_key None "LANGFUSE_SECRET_KEY" (process_environ p)))
                    = true).
  { change (effective_key None "LANGFUSE_PUBLIC_KEY" (process_environ p))
      with (env_get "LANGFUSE_PUBLIC_KEY" (process_environ p)).
    change (effective_key None "LANGFUSE_SECRET_KEY" (process_environ p))
      with (env_get "LANGFUSE_SECRET_KEY" (process_environ p)).
    rewrite <- negb_andb, K. reflexivity. }
  pose proof (first_access L p G) as A. rewrite init_cases, No_keys in A.
  destruct (negb (requested_enabled None (process_environ p) && LANGFUSE_AVAILABLE L)).
  - cbn [self] in A.
    rewrite (trace_evaluation_after_access L r mn mp tcs md _ _ _ A).
    cbn [enabled blank fst snd].
    split; [reflexivity | split].
    + unfold process_new_calls, process_of. cbn [process_calls calls]. apply skipn_all.
    + apply (Later blank); reflexivity.
  - cbn [self] in A.
    rewrite (trace_evaluation_after_access L r mn mp tcs md _ _ _ A).
    cbn [enabled fst snd].
    split; [reflexivity | split].
    + unfold process_new_calls, process_of. cbn [process_calls calls]. apply skipn_all.
    + eapply Later; reflexivity.
Qed.

Lemma missing_credentials_disable_the_entry_point_for_good_witness :
  _global_tracer (SampleEnv.fresh []) = None
  /\ trace_evaluation Sample.quiet
       (Sample.result_of Sample.three_details None) "gpt" "openai" Sample.five_cases None
       (with_environ SampleEnv.credentials
          (snd (trace_evaluation Sample.quiet
                  (Sample.result_of Sample.three_details None) "gpt" "openai"
                  Sample.five_cases None (SampleEnv.fresh []))))
     = (Ret None,
        with_environ SampleEnv.credentials
          (snd (trace_evaluation Sample.quiet
                  (Sample.result_of Sample.three_details None) "gpt" "openai"
                  Sample.five_cases None (SampleEnv.fresh [])))).
Proof.
  split; [reflexivity |].
  exact (proj2 (proj2 (missing_credentials_disable_the_entry_point_for_good Sample.quiet
                  (Sample.result_of Sample.three_details None) "gpt" "openai"
                  Sample.five_cases None (SampleEnv.fresh []) eq_refl eq_refl))
           SampleEnv.credentials
           (Sample.result_of Sample.three_details None) "gpt" "openai"
           Sample.five_cases None).
Defined.

(* ===================================================================== *)
(** * What a reporting operation logs about its result *)
(* ===================================================================== *)

Section ResultIsLogged.

Variable L : Langfuse.

Ltac log_leaf :=
  repeat match goal with
         | |- context [is_Exception ?e] => destruct (is_Exception e) eqn:?
         end;
  intros Run; apply pair_equal_spec in Run as [<- <-]; norm_world;
  first [ assumption
        | split; reflexivity
        | eexists; reflexivity
        | exists []; eexists; reflexivity
        | split; [reflexivity |]; exists []; reflexivity
        | eexists; eexists; rewrite ?app_assoc; reflexivity
        | split; [reflexivity |]; eexists; rewrite ?app_assoc; reflexivity ].

Ltac log_helper H W :=
  let cs := fresh "cs" in
  let ls := fresh "ls" in
  let Ew := fresh "Ew" in
  let Fs := fresh "Fs" in
  let oh := fresh "oh" in
  let wh := fresh "wh" in
  destruct (H W) as (cs & ls & Ew & Fs);
  match type of Ew with
  | snd (?m ?w0) = _ => destruct (m w0) as [oh wh]
  end;
  cbn [snd calls logs self environ add_call add_log] in Ew; subst wh;
  destruct oh as [[] | ?];
  cbn [calls logs self environ add_call add_log].

Ltac log_helper_next :=
  cbn [calls logs self environ add_call add_log];
  match goal with
  | |- context [_push_overall_scores L ?t ?r ?m ?W] =>
      log_helper (appends_push_overall L t r m) W
  | |- context [_push_case_scores L ?t ?r ?tcs ?W] =>
      log_helper (appends_push_cases L t r tcs) W
  | |- context [push_ragas_if_available L ?t ?r ?W] =>
      log_helper (appends_push_ragas_if L t r) W
  end.

Lemma single_result_logged tc p mn md w :
  enabled (self w) = true ->
  let res := trace_single_case_evaluation L tc p mn md w in
  match fst res with
  | Ret (Some id) => id = new_trace_id L (calls w) /\ new_logs w (snd res) = []
  | Ret None =>
      exists e, new_logs w (snd res)
                = [(ERROR, ("Failed to create single case trace: " ++ exn_text e)%string)]
  | Raise e => is_Exception e = false
  end.
Proof.
  intros E. cbv zeta.
  destruct (trace_single_case_evaluation L tc p mn md w) as [o wf] eqn:Run.
  revert Run.
  unfold trace_single_case_evaluation, bind at 1, get_self. rewrite E. cbn [negb].
  unfold try_except, create_trace_id, with_span, client_call, self_client, bind,
    get_self, library_call, ret, log, raise.
  destruct (client (self w)) eqn:C;
    [| cbn [is_Exception exn_type]; log_leaf].
  next_raise R1. { log_leaf. }
  next_raise R2. { log_leaf. }
  next_raise R3. { next_raise R4; log_leaf. }
  next_raise R4. { next_raise R5; log_leaf. }
  next_raise R5. { next_raise R6; log_leaf. }
  next_raise R6. { log_leaf. }
  next_raise R7; log_leaf.
Qed.

Lemma run_result_logged r mn mp tcs md w :
  enabled (self w) = true ->
  let res := trace_evaluation_run L r mn mp tcs md w in
  match fst res with
  | Ret (Some id) =>
      id = new_trace_id L (calls w)
      /\ exists ls, new_logs w (snd res)
                    = ls ++ [(INFO, ("Evaluation trace created with ID: " ++ id)%string)]
  | Ret None =>
      exists ls e, new_logs w (snd res)
                   = ls ++ [(ERROR, ("Failed to create evaluation trace: " ++ exn_text e)%string)]
  | Raise e => is_Exception e = false
  end.
Proof.
  intros E. cbv zeta.
  destruct (trace_evaluation_run L r mn mp tcs md w) as [o wf] eqn:Run.
  revert Run.
  unfold trace_evaluation_run, bind at 1, get_self. rewrite E. cbn [negb].
  unfold try_except, create_trace_id, with_span, client_call, self_client, bind,
    get_self, library_call, ret, log, raise.
  destruct (client (self w)) eqn:C;
    [| cbn [is_Exception exn_type]; log_leaf].
  next_raise R1. { log_leaf. }
  next_raise R2. { log_leaf. }
  next_raise R3. { next_raise R4; log_leaf. }
  log_helper_next; [| next_raise R4; log_leaf].
  log_helper_next; [| next_raise R4; log_leaf].
  log_helper_next; [| next_raise R4; log_leaf].
  next_raise R5. { next_raise R6; log_leaf. }
  next_raise R6. { log_leaf. }
  next_raise R7; log_leaf.
Qed.

End ResultIsLogged.

(** X21.  What an enabled reporter logs tells the result, whatever the
    library does.  A full run that returns a trace id returns the one
    [create_trace_id] gave and ends its log with the line that names it; one
    that returns [None] ends its log with the error of the run.  A
    single-case report that returns a trace id has logged nothing -- it has
    no line for success -- and one that returns [None] has logged its one
    error.  An exception that leaves either operation does not derive from
    [Exception]. *)
Theorem result_of_a_report_is_logged
    (L : Langfuse) (w : World)
    (r : EvaluationResult) (mn mp : string) (tcs : list TestCase) (md : option dict)
    (tc : TestCase) (p : dict) :
  enabled (self w) = true ->
  let run := trace_evaluation_run L r mn mp tcs md w in
  let single := trace_single_case_evaluation L tc p mn md w in
  match fst run with
  | Ret (Some id) =>
      id = new_trace_id L (calls w)
      /\ exists ls, new_logs w (snd run)
                    = ls ++ [(INFO, ("Evaluation trace created with ID: " ++ id)%string)]
  | Ret None =>
      exists ls e, new_logs w (snd run)
                   = ls ++ [(ERROR, ("Failed to create evaluation trace: " ++ exn_text e)%string)]
  | Raise e => is_Exception e = false
  end
  /\
  match fst single with
  | Ret (Some id) => id = new_trace_id L (calls w) /\ new_logs w (snd single) = []
  | Ret None =>
      exists e, new_logs w (snd single)
                = [(ERROR, ("Failed to create single case trace: " ++ exn_text e)%string)]
  | Raise e => is_Exception e = false
  end.
Proof.
  intros E. cbv zeta. split.
  - exact (run_result_logged L r mn mp tcs md w E).
  - exact (single_result_logged L tc p mn md w E).
Qed.

Lemma result_of_a_report_is_logged_witness :
  enabled (self (Sample.world Sample.live)) = true
  /\ exists ls e,
       new_logs (Sample.world Sample.live)
         (snd (trace_evaluation_run (Sample.failing Sample.is_flush Sample.timeout_error)
                 (Sample.result_of Sample.three_details None) "gpt" "openai"
                 Sample.five_cases None (Sample.world Sample.live)))
       = ls ++ [(ERROR, ("Failed to create evaluation trace: " ++ exn_text e)%string)].
Proof.
  split; [reflexivity |].
  pose proof (result_of_a_report_is_logged
                (Sample.failing Sample.is_flush Sample.timeout_error)
                (Sample.world Sample.live)
                (Sample.result_of Sample.three_details None) "gpt" "openai"
                Sample.five_cases None Sample.case_a [] eq_refl) as H.
  cbv zeta in H. destruct H as [H _].
  vm_compute in H. vm_compute. exact H.
Defined.


